(** * repo-nature: the SSR detector

    A shallow embedding of the two implementations of [detectSSR] found in
    the repository:

    - [src/detectssr.js], the variant served over HTTP (module [Minimal]);
    - [src/unnamed/part_000], the command-line variant with the directory
      and code-pattern detectors (module [Extended]).

    The [results] object is mutated in place by the JavaScript code; here it
    is the state of a small state-and-exception monad.  Every write goes
    through [mutate], which also records the write in a log, so that
    statements about "every assignment" and "the state throughout a run"
    can be made about the log. *)

From Stdlib Require Import ZArith Ascii DecimalString.
From stdpp Require Import gmap strings list.

Set Warnings "-register-all".
Set Default Proof Using "Type".

Local Open Scope Z_scope.

(** ** Strings

    JavaScript strings are modelled as [string]; the code only compares
    them, concatenates them and searches them for literal substrings. *)

Module Str.

(** [s.startsWith(p)] *)
Definition startsWith (p s : string) : bool := String.prefix p s.

(** [s.includes(pat)] *)
Fixpoint includes (pat s : string) : bool :=
  String.prefix pat s ||
  match s with
  | EmptyString => false
  | String _ s' => includes pat s'
  end.

(** [s.replace(pat, rep)] for a string pattern: only the first occurrence of
    [pat] is replaced, wherever it stands. *)
Fixpoint drop (n : nat) (s : string) : string :=
  match n, s with
  | O, _ => s
  | S n', String _ s' => drop n' s'
  | S _, EmptyString => EmptyString
  end.

Fixpoint replace (pat rep s : string) : string :=
  if String.prefix pat s then rep +:+ drop (String.length pat) s
  else match s with
       | EmptyString => EmptyString
       | String c s' => String c (replace pat rep s')
       end.

(** The longest prefix without ['/'] and what follows it: the greedy
    [[^\/]*] of the regular expressions, and one step of [split('/')]. *)
Fixpoint span_segment (s : string) : string * string :=
  match s with
  | EmptyString => (EmptyString, EmptyString)
  | String c s' =>
      if Ascii.eqb c "/" then (EmptyString, s)
      else let '(a, r) := span_segment s' in (String c a, r)
  end.

(** [s.split('/')[0]] *)
Definition split_head (s : string) : string := fst (span_segment s).

(** [s.split('/')]: the pieces between the separators (never empty as a
    list: the empty string splits into one empty piece). *)
Fixpoint split_slash_aux (cur : string -> string) (s : string) : list string :=
  match s with
  | EmptyString => [cur EmptyString]
  | String c s' =>
      if Ascii.eqb c "/" then cur EmptyString :: split_slash_aux (fun x => x) s'
      else split_slash_aux (fun x => cur (String c x)) s'
  end.
Definition split_slash (s : string) : list string := split_slash_aux (fun x => x) s.

(** [pieces.join('/')] *)
Fixpoint join_slash (pieces : list string) : string :=
  match pieces with
  | [] => EmptyString
  | [piece] => piece
  | piece :: rest => piece +:+ "/" +:+ join_slash rest
  end.

(** Is the last character of [s] a slash? *)
Fixpoint ends_with_slash (s : string) : bool :=
  match s with
  | EmptyString => false
  | String c EmptyString => Ascii.eqb c "/"
  | String _ s' => ends_with_slash s'
  end.

(** Matching a literal at the head of [s]; what is left after it. *)
Fixpoint strip_prefix (p s : string) : option string :=
  match p, s with
  | EmptyString, _ => Some s
  | String a p', String b s' => if Ascii.eqb a b then strip_prefix p' s' else None
  | String _ _, EmptyString => None
  end.

(** Index of the last ['.'] of [s], if any. *)
Fixpoint last_dot (i : nat) (s : string) : option nat :=
  match s with
  | EmptyString => None
  | String c s' =>
      match last_dot (S i) s' with
      | Some j => Some j
      | None => if Ascii.eqb c "." then Some i else None
      end
  end.

(** [path.extname(name)] for a name without separator (what [readdirSync]
    returns): the text from the last dot on, and the empty string when there
    is no dot, when the only dot is the first character, or for [".."]. *)
Definition extname (name : string) : string :=
  match last_dot 0 name with
  | None | Some O => EmptyString
  | Some j => if String.eqb name ".." then EmptyString else drop j name
  end.

End Str.

(** ** The GitHub URL pattern

    [/github\.com\/([^\/]+)\/([^\/]+)/]: not anchored, so the match is
    searched from every position, leftmost first.  At one position the
    literal is followed by two greedy runs of non-slash characters separated
    by one slash; a greedy run stops at a slash or at the end of the input,
    so giving characters back can never make the next ['/'] match and the
    longest runs are the only candidates. *)

Definition githubRegex_at (s : string) : option (string * string) :=
  match Str.strip_prefix "github.com/" s with
  | None => None
  | Some r1 =>
      let '(owner, r2) := Str.span_segment r1 in
      match owner, r2 with
      | String _ _, String _ r3 =>
          let '(repo, _) := Str.span_segment r3 in
          match repo with
          | EmptyString => None
          | String _ _ => Some (owner, repo)
          end
      | _, _ => None
      end
  end.

(** [repoPathOrUrl.match(githubRegex)]: the two captured groups. *)
Fixpoint githubRegex_match (s : string) : option (string * string) :=
  match githubRegex_at s with
  | Some m => Some m
  | None =>
      match s with
      | EmptyString => None
      | String _ s' => githubRegex_match s'
      end
  end.

(** [githubRegex.test(repoPathOrUrl)] *)
Definition githubRegex_test (s : string) : bool :=
  match githubRegex_match s with Some _ => true | None => false end.

(** [const owner = match[1]; const repo = match[2].replace('.git', '')] *)
Definition owner_repo (m : string * string) : string * string :=
  (fst m, Str.replace ".git" "" (snd m)).

(** ** The report and the writes to it *)

Record results := mkResults {
  needsSSR : bool;
  evidence : list string;
  frameworkDetected : option string;   (* [None] is JavaScript's [null] *)
  confidence : Z
}.

(** [const results = { needsSSR: false, evidence: [], frameworkDetected:
    null, confidence: 0 }] *)
Definition initial : results :=
  {| needsSSR := false; evidence := []; frameworkDetected := None; confidence := 0 |}.

(** The four kinds of statement that write to [results]. *)
Inductive mutation :=
| PushEvidence (line : string)      (* results.evidence.push(line) *)
| AssignFramework (f : string)      (* results.frameworkDetected = f *)
| AddConfidence (n : Z)             (* results.confidence += n *)
| AssignNeedsSSR (b : bool).        (* results.needsSSR = b *)

Definition write (r : results) (mu : mutation) : results :=
  match mu with
  | PushEvidence line =>
      {| needsSSR := needsSSR r; evidence := evidence r ++ [line];
         frameworkDetected := frameworkDetected r; confidence := confidence r |}
  | AssignFramework f =>
      {| needsSSR := needsSSR r; evidence := evidence r;
         frameworkDetected := Some f; confidence := confidence r |}
  | AddConfidence n =>
      {| needsSSR := needsSSR r; evidence := evidence r;
         frameworkDetected := frameworkDetected r; confidence := confidence r + n |}
  | AssignNeedsSSR b =>
      {| needsSSR := b; evidence := evidence r;
         frameworkDetected := frameworkDetected r; confidence := confidence r |}
  end.

(** [a || b] on an optional string: [null] and the empty string are falsy. *)
Definition or_else (a : option string) (b : string) : string :=
  match a with
  | Some (String c s) => String c s
  | Some EmptyString | None => b
  end.

(** ** Exceptions and the analysis monad *)

(** What an operation that may throw gives back; an exception is known
    to the code only through [error.message]. *)
Inductive outcome (A : Type) :=
| Ok (a : A)
| Throw (message : string).
Arguments Ok {A} a.
Arguments Throw {A} message.

(** The state of one run: the [results] object and, as a ghost, the writes
    made to it so far, oldest first. *)
Record state := mkState { cur : results; log : list mutation }.

Definition extend (st : state) (mus : list mutation) : state :=
  {| cur := fold_left write mus (cur st); log := log st ++ mus |}.

Definition M (A : Type) : Type := state -> outcome A * state.

Definition ret {A} (a : A) : M A := fun st => (Ok a, st).

Definition bind {A B} (m : M A) (k : A -> M B) : M B :=
  fun st =>
    match m st with
    | (Ok a, st') => k a st'
    | (Throw msg, st') => (Throw msg, st')
    end.

(** An exception leaves the writes made before it in place. *)
Definition throw {A} (msg : string) : M A := fun st => (Throw msg, st).

Definition lift {A} (o : outcome A) : M A := fun st => (o, st).

Definition mutate (mu : mutation) : M unit := fun st => (Ok tt, extend st [mu]).

Definition gets {A} (f : results -> A) : M A := fun st => (Ok (f (cur st)), st).

(** [try { m } catch (error) { h error.message }] *)
Definition try_catch {A} (m : M A) (h : string -> M A) : M A :=
  fun st =>
    match m st with
    | (Ok a, st') => (Ok a, st')
    | (Throw msg, st') => h msg st'
    end.

Declare Scope js_scope.
Delimit Scope js_scope with js.
Notation "x <- m ;; k" := (bind m (fun x => k))
  (at level 100, m at next level, right associativity) : js_scope.
Notation "m ;; k" := (bind m (fun _ => k))
  (at level 100, right associativity) : js_scope.
Open Scope js_scope.

(** [if (c) { m }] *)
Definition when (c : bool) (m : M unit) : M unit := if c then m else ret tt.

(** [for (const x of l) { body x }] *)
Fixpoint for_of {A} (l : list A) (body : A -> M unit) : M unit :=
  match l with
  | [] => ret tt
  | x :: l' => body x ;; for_of l' body
  end.

(** ** JSON values

    What [JSON.parse] returns.  An object is a finite map from property
    names to values.  The code reads a number only through its truthiness,
    where every number behaves as [0] or as a non-zero integer, so numbers
    are integers here. *)
Inductive value :=
| VNull
| VBool (b : bool)
| VNum (n : Z)
| VStr (s : string)
| VArr (l : list value)
| VObj (m : gmap string value).

Definition truthy (v : value) : bool :=
  match v with
  | VNull => false
  | VBool b => b
  | VNum n => negb (n =? 0)
  | VStr s => negb (String.eqb s "")
  | VArr _ | VObj _ => true
  end.

(** [v.dependencies], [v.devDependencies]: only an object has such a
    property; [None] is [undefined]. *)
Definition member (v : value) (k : string) : option value :=
  match v with
  | VObj m => m !! k
  | _ => None
  end.

(** The name of the property holding element [i] of an array or string. *)
Definition index_key (i : nat) : string := NilEmpty.string_of_uint (Nat.to_uint i).

Fixpoint chars (s : string) : list value :=
  match s with
  | EmptyString => []
  | String c s' => VStr (String c EmptyString) :: chars s'
  end.

(** The own enumerable properties copied by the spread [{...v}]. *)
Definition own_properties (v : value) : gmap string value :=
  match v with
  | VObj m => m
  | VArr l => list_to_map (imap (fun i x => (index_key i, x)) l)
  | VStr s => list_to_map (imap (fun i x => (index_key i, x)) (chars s))
  | VNull | VBool _ | VNum _ => ∅
  end.

(** [...(o || {})] *)
Definition spread_or_empty (o : option value) : gmap string value :=
  match o with
  | Some v => if truthy v then own_properties v else ∅
  | None => ∅
  end.

(** [{ ...(packageJson.dependencies || {}), ...(packageJson.devDependencies
    || {}) }]: a property copied later replaces one copied earlier. *)
Definition allDependencies (packageJson : value) : gmap string value :=
  spread_or_empty (member packageJson "devDependencies")
  ∪ spread_or_empty (member packageJson "dependencies").

(** [if (allDependencies[dep])]: the value under the key is truthy.  (None
    of the names the code looks up is a property of [Object.prototype].) *)
Definition has_dependency (deps : gmap string value) (dep : string) : bool :=
  match deps !! dep with
  | Some v => truthy v
  | None => false
  end.

(** ** Paths

    [path.join] of Node.js on a POSIX system: the arguments that are not
    empty are put together with a slash between them and the result is
    normalised as a string, without a look at the disk: empty segments and
    ["."] are dropped, and [".."] removes the segment before it. *)

(** [normalizeString]: [res] holds the segments kept so far, the last one
    first.  A [".."] removes the last segment kept; when there is none, or
    when it is a [".."] itself, it is kept if the path is relative
    ([allowAboveRoot]) and dropped otherwise. *)
Fixpoint normalizeString (allowAboveRoot : bool) (segments res : list string)
    : list string :=
  match segments with
  | [] => rev res
  | segment :: rest =>
      if String.eqb segment "" || String.eqb segment "." then
        normalizeString allowAboveRoot rest res
      else if String.eqb segment ".." then
        match res with
        | kept :: res' =>
            if String.eqb kept ".." then
              normalizeString allowAboveRoot rest
                (if allowAboveRoot then ".." :: res else res)
            else normalizeString allowAboveRoot rest res'
        | [] =>
            normalizeString allowAboveRoot rest
              (if allowAboveRoot then [".."] else [])
        end
      else normalizeString allowAboveRoot rest (segment :: res)
  end.

(** [path.normalize(path)] *)
Definition path_normalize (path : string) : string :=
  match path with
  | EmptyString => "."
  | String c _ =>
      let isAbsolute := Ascii.eqb c "/" in
      let trailingSeparator := Str.ends_with_slash path in
      match Str.join_slash (normalizeString (negb isAbsolute) (Str.split_slash path) []) with
      | EmptyString => if isAbsolute then "/" else if trailingSeparator then "./" else "."
      | String _ _ as normalized =>
          (if isAbsolute then "/" else "") +:+ normalized +:+
          (if trailingSeparator then "/" else "")
      end
  end.

(** [path.join(a, b)] *)
Definition path_join (a b : string) : string :=
  match a, b with
  | EmptyString, EmptyString => "."
  | EmptyString, String _ _ => path_normalize b
  | String _ _, EmptyString => path_normalize a
  | String _ _, String _ _ => path_normalize (a +:+ "/" +:+ b)
  end.

(** ** The local disk

    The disk of a [world] (below) says what every path resolves to, as the
    system calls of [fs] see it: a file, a directory, or nothing.  The
    listing of a directory gives, for every name [readdirSync] returns, what
    the code finds at [path.join(dirPath, name)].  A path that resolves to
    nothing ([Missing]) comes with the text of the system error, for
    instance ["ENOENT: no such file or directory"] for a name that is not
    there or for a dangling link, which [readdirSync] still lists. *)
Inductive node :=
| File (content : outcome string)                 (* readFileSync's answer *)
| Dir (listing : outcome (list (string * node)))  (* readdirSync's answer *)
| Missing (error : string).

Definition ENOENT : string := "ENOENT: no such file or directory".

(** The message of the exception of a system call that fails on a path. *)
Definition fs_error (error syscall path : string) : string :=
  error +:+ ", " +:+ syscall +:+ " '" +:+ path +:+ "'".

(** The [fs] functions: [path] is the argument of the call and [p] what it
    resolves to. *)
Definition existsSync (p : node) : bool :=
  match p with
  | File _ | Dir _ => true
  | Missing _ => false
  end.

(** [fs.statSync(path).isDirectory()] *)
Definition statSync_isDirectory (path : string) (p : node) : outcome bool :=
  match p with
  | Dir _ => Ok true
  | File _ => Ok false
  | Missing error => Throw (fs_error error "stat" path)
  end.

(** [fs.readFileSync(path, 'utf8')] *)
Definition readFileSync (path : string) (p : node) : outcome string :=
  match p with
  | File content => content
  | Dir _ => Throw "EISDIR: illegal operation on a directory, read"
  | Missing error => Throw (fs_error error "open" path)
  end.

(** [fs.readdirSync(path)] *)
Definition readdirSync (path : string) (p : node) : outcome (list (string * node)) :=
  match p with
  | Dir listing => listing
  | File _ => Throw (fs_error "ENOTDIR: not a directory" "scandir" path)
  | Missing error => Throw (fs_error error "scandir" path)
  end.

(** ** The remote repository

    What the GitHub API answers for one repository.  An entry of a listing
    is an object; its [name] is a string, or is missing, in which case
    [item.name] is [undefined] ([None] here).  The code compares [item.type]
    with ['dir'] and does nothing else with it, so a type that is no string
    is as good as any string other than ["dir"]. *)
Inductive response :=
| Failed (message : string)     (* the request throws or is not ok *)
| Listing (items : list item)   (* the data is an array of entries *)
| Single (it : item)            (* the data is one object *)
with item :=
| Item (name : option string) (type : string) (contents : response).
   (* [contents]: the answer to the request made for this entry *)

(** [`${x}`] for a string or [undefined] *)
Definition template (x : option string) : string :=
  match x with
  | Some s => s
  | None => "undefined"
  end.

(** [item === s] for a string [s] (and [includes(s)], which compares the
    same way here) *)
Definition strictly_equal (item : option string) (s : string) : bool :=
  match item with
  | Some x => String.eqb x s
  | None => false
  end.

(** [structure.some(item => item === path || item.startsWith(`${path}/`))]:
    the callback throws on an element that is [undefined], unless an element
    before it has answered the question. *)
Fixpoint some_at_or_below (path : string) (structure : list (option string))
    : outcome bool :=
  match structure with
  | [] => Ok false
  | Some item :: rest =>
      if String.eqb item path || Str.startsWith (path +:+ "/") item then Ok true
      else some_at_or_below path rest
  | None :: _ => Throw "Cannot read properties of undefined (reading 'startsWith')"
  end.

Record repository := mkRepository {
  root : response;                       (* GET contents/ and the tree below it *)
  file_content : string -> outcome string; (* decoded content of the file at a path *)
  search_code : string -> outcome Z        (* total_count of a code search *)
}.

(** ** The world one run sees

    [JSON_parse] is the built-in [JSON.parse]: the value a text parses to,
    or the message of the [SyntaxError].  [disk] gives what a path resolves
    to, relative paths being resolved from the current directory of the
    process.  The optional [githubToken] only changes what the API answers;
    it is part of the world. *)
Record world := mkWorld {
  JSON_parse : string -> outcome value;
  disk : string -> node;
  github : string -> string -> repository
}.

(** ** Tables shared by the two implementations (in [Object.entries]
    order, which for these keys is the order they are written in) *)

Definition ssrFrameworks : list (string * string) :=
  [ ("next", "Next.js");
    ("nuxt", "Nuxt.js");
    ("@nuxt/core", "Nuxt.js");
    ("@sveltejs/kit", "SvelteKit");
    ("@remix-run/react", "Remix");
    ("gatsby", "Gatsby");
    ("angular-universal", "Angular Universal");
    ("@angular/platform-server", "Angular Universal");
    ("@nestjs/ng-universal", "Nest.js with Angular Universal") ].

Definition configFiles : list (string * string) :=
  [ ("next.config.js", "Next.js");
    ("nuxt.config.js", "Nuxt.js");
    ("svelte.config.js", "SvelteKit");
    ("remix.config.js", "Remix");
    ("gatsby-config.js", "Gatsby");
    ("angular.json", "Angular") ].

(** [const match = repoPathOrUrl.match(githubRegex); const owner = match[1];
    const repo = match[2].replace('.git', '')]; reading [match[1]] of [null]
    throws. *)
Definition match_owner_repo (repoPathOrUrl : string) : M (string * string) :=
  match githubRegex_match repoPathOrUrl with
  | Some m => ret (owner_repo m)
  | None => throw "Cannot read properties of null (reading '1')"
  end.

(** ** Code that is the same in the two files *)

(** "Check for SSR frameworks": the loop over [Object.entries(ssrFrameworks)]. *)
Definition checkFrameworks (allDependencies : gmap string value) : M unit :=
  for_of ssrFrameworks (fun '(dep, framework) =>
    when (has_dependency allDependencies dep)
      (mutate (PushEvidence ("Found SSR framework: " +:+ framework +:+ " (" +:+ dep +:+ ")")) ;;
       mutate (AssignFramework framework) ;;
       mutate (AddConfidence 30) ;;
       mutate (AssignNeedsSSR true))).

(** "Final confidence calculation": [if (results.confidence > 30)
    { results.needsSSR = true; }], the last statement of the [try] block. *)
Definition finalRule : M unit :=
  c <- gets confidence ;;
  when (30 <? c) (mutate (AssignNeedsSSR true)).

(** The [catch] of [detectSSR]. *)
Definition catchError (message : string) : M unit :=
  mutate (PushEvidence ("Error analyzing repository: " +:+ message)).

(** The state [detectSSR] starts its [try] block in. *)
Definition start : state := {| cur := initial; log := [] |}.

(** ** [src/detectssr.js] *)

Module Minimal.

(** [buildRepoStructure(owner, repo, githubToken)]: the names of the entries
    of the root listing; a request that is not ok, and data that is no array
    (so that [data.map] is no function), end in the [catch] and give [[]]. *)
Definition buildRepoStructure (w : world) (owner repo : string) : list (option string) :=
  match root (github w owner repo) with
  | Listing items => map (fun it => match it with Item name _ _ => name end) items
  | Failed _ | Single _ => []
  end.

(** [getFileFromGithub(owner, repo, filePath, githubToken)]: the decoded
    content, or [null] when the request is not ok or anything throws. *)
Definition getFileFromGithub (w : world) (owner repo filePath : string) : option string :=
  match file_content (github w owner repo) filePath with
  | Ok content => Some content
  | Throw _ => None
  end.

(** Lines 25-47 of [detectSSR]: the manifest and, for a GitHub URL, the
    repository structure. *)
Definition load (w : world) (repoPathOrUrl : string) : M (value * list (option string)) :=
  let isGithubUrl := githubRegex_test repoPathOrUrl in
  let repoPath := repoPathOrUrl in
  if isGithubUrl then
    m <- match_owner_repo repoPathOrUrl ;;
    let '(owner, repo) := m in
    mutate (PushEvidence ("Analyzing GitHub repository: " +:+ owner +:+ "/" +:+ repo)) ;;
    let repoStructure := buildRepoStructure w owner repo in
    match getFileFromGithub w owner repo "package.json" with
    | Some (String c s) =>
        packageJson <- lift (JSON_parse w (String c s)) ;;
        ret (packageJson, repoStructure)
    | Some EmptyString | None => ret (VNull, repoStructure)
    end
  else
    let packageJsonPath := path_join repoPath "package.json" in
    if existsSync (disk w packageJsonPath) then
      text <- lift (readFileSync packageJsonPath (disk w packageJsonPath)) ;;
      packageJson <- lift (JSON_parse w text) ;;
      ret (packageJson, [])
    else ret (VNull, []).

(** Lines 49-75: [if (packageJson) { ... }] *)
Definition analyzePackage (packageJson : value) : M unit :=
  when (truthy packageJson)
    (let allDependencies := allDependencies packageJson in
     checkFrameworks allDependencies).

(** Lines 77-105: the configuration files. *)
Definition checkConfigFiles (w : world) (repoPathOrUrl : string)
    (repoStructure : list (option string)) : M unit :=
  let isGithubUrl := githubRegex_test repoPathOrUrl in
  let repoPath := repoPathOrUrl in
  if isGithubUrl then
    for_of configFiles (fun '(file, framework) =>
      when (existsb (fun item => strictly_equal item file) repoStructure)
        (mutate (PushEvidence ("Found configuration file for " +:+ framework +:+ ": " +:+ file)) ;;
         detected <- gets frameworkDetected ;;
         mutate (AssignFramework (or_else detected framework)) ;;
         mutate (AddConfidence 20) ;;
         mutate (AssignNeedsSSR true)))
  else
    for_of configFiles (fun '(file, framework) =>
      let configPath := path_join repoPath file in
      when (existsSync (disk w configPath))
        (mutate (PushEvidence ("Found configuration file for " +:+ framework +:+ ": " +:+ file)) ;;
         detected <- gets frameworkDetected ;;
         mutate (AssignFramework (or_else detected framework)) ;;
         mutate (AddConfidence 20) ;;
         mutate (AssignNeedsSSR true))).

(** The body of the [try] block of [detectSSR]. *)
Definition detectSSR_try (w : world) (repoPathOrUrl : string) : M unit :=
  loaded <- load w repoPathOrUrl ;;
  let '(packageJson, repoStructure) := loaded in
  analyzePackage packageJson ;;
  checkConfigFiles w repoPathOrUrl repoStructure ;;
  finalRule.

(** [detectSSR]: the [try] block, its [catch], and the state at [return]. *)
Definition detectSSR_run (w : world) (repoPathOrUrl : string) : outcome unit * state :=
  try_catch (detectSSR_try w repoPathOrUrl) catchError start.

Definition detectSSR (w : world) (repoPathOrUrl : string) : results :=
  cur (snd (detectSSR_run w repoPathOrUrl)).

End Minimal.

(** ** [src/unnamed/part_000] *)

Module Extended.

Definition ssrLibraries : list string :=
  [ "react-dom/server"; "vue-server-renderer"; "preact-render-to-string";
    "svelte/server"; "express-react-views" ].

Definition serverPackages : list string :=
  [ "express"; "koa"; "fastify"; "hapi"; "@nestjs/core" ].

(** [{ path, framework }] *)
Definition ssrDirectories : list (string * string) :=
  [ ("pages", "Next.js");
    ("pages/api", "Next.js API Routes");
    ("app", "Next.js App Router");
    ("server", "Generic Server");
    ("serverless", "Serverless Functions");
    ("api", "API Routes");
    ("functions", "Serverless Functions");
    ("lambda", "AWS Lambda Functions") ].

Definition codeExtensions : list string := [ ".js"; ".jsx"; ".ts"; ".tsx" ].

(** [getAllFiles(dirPath, extensions, arrayOfFiles)]: the files below
    [dirPath] with one of the extensions, in listing order; [readdirSync] and
    [statSync] are not guarded, so what they throw leaves the function.
    [dir] is what [dirPath] resolves to, and an element of [arrayOfFiles] is
    a path with what it resolves to.  The first [match] is
    [fs.readdirSync(dirPath)] and the one on [entry] is
    [fs.statSync(filePath).isDirectory()], written out for the recursion to
    be structural. *)
Fixpoint getAllFiles (dirPath : string) (dir : node) (extensions : list string)
    (arrayOfFiles : list (string * node)) : outcome (list (string * node)) :=
  match dir with
  | File _ => Throw (fs_error "ENOTDIR: not a directory" "scandir" dirPath)
  | Missing error => Throw (fs_error error "scandir" dirPath)
  | Dir (Throw msg) => Throw msg
  | Dir (Ok files) =>
      (fix forEach (files : list (string * node)) (arrayOfFiles : list (string * node))
         : outcome (list (string * node)) :=
         match files with
         | [] => Ok arrayOfFiles
         | (file, entry) :: rest =>
             let filePath := path_join dirPath file in
             match entry with
             | Missing error => Throw (fs_error error "stat" filePath)
             | Dir _ =>
                 if negb (String.eqb file "node_modules") && negb (String.eqb file ".git")
                 then match getAllFiles filePath entry extensions arrayOfFiles with
                      | Ok arrayOfFiles' => forEach rest arrayOfFiles'
                      | Throw msg => Throw msg
                      end
                 else forEach rest arrayOfFiles
             | File _ =>
                 let ext := Str.extname file in
                 if (length extensions =? 0)%nat || existsb (String.eqb ext) extensions
                 then forEach rest (arrayOfFiles ++ [(filePath, entry)])
                 else forEach rest arrayOfFiles
             end
         end) files arrayOfFiles
  end.

Definition ssrTokens : list string :=
  [ "getServerSideProps"; "getInitialProps"; "getStaticProps";
    "export async function generateMetadata"; "export const generateMetadata" ].

(** The loop of [searchForSSRFunctions]: a file that cannot be read is
    skipped. *)
Fixpoint anyFileHasToken (files : list (string * node)) : bool :=
  match files with
  | [] => false
  | (file, p) :: rest =>
      match readFileSync file p with
      | Ok content =>
          if existsb (fun token => Str.includes token content) ssrTokens then true
          else anyFileHasToken rest
      | Throw _ => anyFileHasToken rest
      end
  end.

Definition searchForSSRFunctions (dirPath : string) (dir : node) : outcome bool :=
  match getAllFiles dirPath dir codeExtensions [] with
  | Ok files => Ok (anyFileHasToken files)
  | Throw msg => Throw msg
  end.

(** The loop of [searchForPattern]. *)
Fixpoint anyFileIncludes (pattern : string) (files : list (string * node)) : bool :=
  match files with
  | [] => false
  | (file, p) :: rest =>
      match readFileSync file p with
      | Ok content =>
          if Str.includes pattern content then true else anyFileIncludes pattern rest
      | Throw _ => anyFileIncludes pattern rest
      end
  end.

Definition searchForPattern (dirPath : string) (dir : node) (pattern : string)
    : outcome bool :=
  match getAllFiles dirPath dir codeExtensions [] with
  | Ok files => Ok (anyFileIncludes pattern files)
  | Throw msg => Throw msg
  end.

(** The array [structure] shared by all the calls of one walk, and (ghost)
    the number of [getContent] requests made. *)
Record walk := mkWalk { structure : list (option string); requests : nat }.

(** [path = ''] in the parameter list: the path a call works with when it
    is given [itemPath]. *)
Definition path_or_default (itemPath : option string) : string :=
  match itemPath with
  | Some p => p
  | None => ""
  end.

(** One iteration of the loop of [buildRepoStructure], given the function
    for the recursive call. *)
Definition visit (descend : response -> string -> walk -> walk)
    (path : string) (it : item) (wk : walk) : walk :=
  match it with
  | Item name type contents =>
      let itemPath :=
        match path with
        | EmptyString => name
        | String _ _ => Some (path +:+ "/" +:+ template name)
        end in
      let wk1 := {| structure := structure wk ++ [itemPath]; requests := requests wk |} in
      if String.eqb type "dir" && (length (structure wk1) <? 100)%nat
      then descend contents (path_or_default itemPath) wk1
      else wk1
  end.

(** [buildRepoStructure(octokit, owner, repo, path, structure)]: [answer] is
    what [getContent] gives for [path]. *)
Fixpoint buildRepoStructure_at (answer : response) (path : string) (wk : walk) : walk :=
  let wk0 := {| structure := structure wk; requests := S (requests wk) |} in
  match answer with
  | Failed _ => wk0
  | Listing items =>
      (fix each (items : list item) (wk : walk) : walk :=
         match items with
         | [] => wk
         | it :: rest => each rest (visit buildRepoStructure_at path it wk)
         end) items wk0
  | Single it => visit buildRepoStructure_at path it wk0
  end.

Definition buildRepoStructure (w : world) (owner repo : string) : list (option string) :=
  structure (buildRepoStructure_at (root (github w owner repo)) ""
               {| structure := []; requests := 0 |}).

Definition getFileFromGithub (w : world) (owner repo path : string) : option string :=
  match file_content (github w owner repo) path with
  | Ok content => Some content
  | Throw _ => None
  end.

Definition searchForSSRFunctionsInGithub (w : world) (owner repo dirPath : string) : bool :=
  match search_code (github w owner repo)
          ("repo:" +:+ owner +:+ "/" +:+ repo +:+ " path:" +:+ dirPath +:+
           " getServerSideProps OR getInitialProps OR getStaticProps OR generateMetadata") with
  | Ok total_count => 0 <? total_count
  | Throw _ => false
  end.

Definition searchForPatternInGithub (w : world) (owner repo pattern : string) : bool :=
  match search_code (github w owner repo)
          ("repo:" +:+ owner +:+ "/" +:+ repo +:+ " " +:+ pattern) with
  | Ok total_count => 0 <? total_count
  | Throw _ => false
  end.

(** The first part of the [try] block: the manifest and, for a GitHub URL,
    the repository structure.  ([getGithubRepoContents] is called too, but
    its result is never read and it cannot throw.) *)
Definition load (w : world) (repoPathOrUrl : string) : M (value * list (option string)) :=
  let isGithubUrl := githubRegex_test repoPathOrUrl in
  let repoPath := repoPathOrUrl in
  if isGithubUrl then
    m <- match_owner_repo repoPathOrUrl ;;
    let '(owner, repo) := m in
    mutate (PushEvidence ("Analyzing GitHub repository: " +:+ owner +:+ "/" +:+ repo)) ;;
    let repoStructure := buildRepoStructure w owner repo in
    match getFileFromGithub w owner repo "package.json" with
    | Some (String c s) =>
        packageJson <- lift (JSON_parse w (String c s)) ;;
        ret (packageJson, repoStructure)
    | Some EmptyString | None => ret (VNull, repoStructure)
    end
  else
    let packageJsonPath := path_join repoPath "package.json" in
    if existsSync (disk w packageJsonPath) then
      text <- lift (readFileSync packageJsonPath (disk w packageJsonPath)) ;;
      packageJson <- lift (JSON_parse w text) ;;
      ret (packageJson, [])
    else ret (VNull, []).

(** "Analyze package.json if found" *)
Definition analyzePackage (packageJson : value) : M unit :=
  when (truthy packageJson)
    (let allDependencies := allDependencies packageJson in
     checkFrameworks allDependencies ;;
     for_of ssrLibraries (fun lib =>
       let libName := Str.split_head lib in
       when (has_dependency allDependencies libName)
         (mutate (PushEvidence ("Found potential SSR library: " +:+ libName)) ;;
          mutate (AddConfidence 10))) ;;
     for_of serverPackages (fun pkg =>
       when (has_dependency allDependencies pkg)
         (mutate (PushEvidence ("Found server package: " +:+ pkg)) ;;
          mutate (AddConfidence 5)))).

(** "2. Check for configuration files" *)
Definition checkConfigFiles (w : world) (repoPathOrUrl : string)
    (repoStructure : list (option string)) : M unit :=
  let isGithubUrl := githubRegex_test repoPathOrUrl in
  let repoPath := repoPathOrUrl in
  if isGithubUrl then
    m <- match_owner_repo repoPathOrUrl ;;
    for_of configFiles (fun '(file, framework) =>
      let fileExists := existsb (fun item => strictly_equal item file) repoStructure in
      when fileExists
        (mutate (PushEvidence ("Found configuration file for " +:+ framework +:+ ": " +:+ file)) ;;
         detected <- gets frameworkDetected ;;
         mutate (AssignFramework (or_else detected framework)) ;;
         mutate (AddConfidence 20) ;;
         mutate (AssignNeedsSSR true)))
  else
    for_of configFiles (fun '(file, framework) =>
      let configPath := path_join repoPath file in
      when (existsSync (disk w configPath))
        (mutate (PushEvidence ("Found configuration file for " +:+ framework +:+ ": " +:+ file)) ;;
         detected <- gets frameworkDetected ;;
         mutate (AssignFramework (or_else detected framework)) ;;
         mutate (AddConfidence 20) ;;
         mutate (AssignNeedsSSR true))).

(** "3. Check for project structure indicators" *)
Definition checkDirectories (w : world) (repoPathOrUrl : string)
    (repoStructure : list (option string)) : M unit :=
  let isGithubUrl := githubRegex_test repoPathOrUrl in
  let repoPath := repoPathOrUrl in
  if isGithubUrl then
    m <- match_owner_repo repoPathOrUrl ;;
    let '(owner, repo) := m in
    for_of ssrDirectories (fun '(path, framework) =>
      dirExists <- lift (some_at_or_below path repoStructure) ;;
      when dirExists
        (mutate (PushEvidence ("Found SSR-related directory: " +:+ path +:+
                               " (indicates " +:+ framework +:+ ")")) ;;
         mutate (AddConfidence 10) ;;
         when (String.eqb path "pages" || String.eqb path "app")
           (let hasSSRFunctions := searchForSSRFunctionsInGithub w owner repo path in
            when hasSSRFunctions
              (mutate (PushEvidence
                 ("Found SSR functions (getServerSideProps or getInitialProps) in " +:+ path)) ;;
               mutate (AddConfidence 15) ;;
               mutate (AssignNeedsSSR true)))))
  else
    for_of ssrDirectories (fun '(path, framework) =>
      let dirPath := path_join repoPath path in
      isDirectory <- (if existsSync (disk w dirPath)
                      then lift (statSync_isDirectory dirPath (disk w dirPath))
                      else ret false) ;;
      when isDirectory
        (mutate (PushEvidence ("Found SSR-related directory: " +:+ path +:+
                               " (indicates " +:+ framework +:+ ")")) ;;
         mutate (AddConfidence 10) ;;
         when (String.eqb path "pages" || String.eqb path "app")
           (hasSSRFunctions <- lift (searchForSSRFunctions dirPath (disk w dirPath)) ;;
            when hasSSRFunctions
              (mutate (PushEvidence
                 ("Found SSR functions (getServerSideProps or getInitialProps) in " +:+ path)) ;;
               mutate (AddConfidence 15) ;;
               mutate (AssignNeedsSSR true))))).

(** "4. Check for SSR-specific patterns in code" *)
Definition checkCodePatterns (w : world) (repoPathOrUrl : string) : M unit :=
  let isGithubUrl := githubRegex_test repoPathOrUrl in
  let repoPath := repoPathOrUrl in
  if isGithubUrl then
    m <- match_owner_repo repoPathOrUrl ;;
    let '(owner, repo) := m in
    let hasRenderToString := searchForPatternInGithub w owner repo "renderToString" in
    when hasRenderToString
      (mutate (PushEvidence "Found renderToString calls (React SSR)") ;;
       mutate (AddConfidence 15) ;;
       mutate (AssignNeedsSSR true))
  else
    hasRenderToString <- lift (searchForPattern repoPath (disk w repoPath) "renderToString") ;;
    when hasRenderToString
      (mutate (PushEvidence "Found renderToString calls (React SSR)") ;;
       mutate (AddConfidence 15) ;;
       mutate (AssignNeedsSSR true)).

(** The body of the [try] block of [detectSSR]. *)
Definition detectSSR_try (w : world) (repoPathOrUrl : string) : M unit :=
  loaded <- load w repoPathOrUrl ;;
  let '(packageJson, repoStructure) := loaded in
  analyzePackage packageJson ;;
  checkConfigFiles w repoPathOrUrl repoStructure ;;
  checkDirectories w repoPathOrUrl repoStructure ;;
  checkCodePatterns w repoPathOrUrl ;;
  finalRule.

(** [detectSSR]: the [try] block, its [catch], and the state at [return]. *)
Definition detectSSR_run (w : world) (repoPathOrUrl : string) : outcome unit * state :=
  try_catch (detectSSR_try w repoPathOrUrl) catchError start.

Definition detectSSR (w : world) (repoPathOrUrl : string) : results :=
  cur (snd (detectSSR_run w repoPathOrUrl)).

End Extended.

(** ** The two implementations side by side *)

Inductive variant := minimal | extended.

Definition load (v : variant) : world -> string -> M (value * list (option string)) :=
  match v with minimal => Minimal.load | extended => Extended.load end.

Definition detectSSR_try (v : variant) : world -> string -> M unit :=
  match v with minimal => Minimal.detectSSR_try | extended => Extended.detectSSR_try end.

Definition detectSSR_run (v : variant) : world -> string -> outcome unit * state :=
  match v with minimal => Minimal.detectSSR_run | extended => Extended.detectSSR_run end.

Definition detectSSR (v : variant) : world -> string -> results :=
  match v with minimal => Minimal.detectSSR | extended => Extended.detectSSR end.

(** The writes of one run of [detectSSR], in order. *)
Definition trace (v : variant) (w : world) (repoPathOrUrl : string) : list mutation :=
  log (snd (detectSSR_run v w repoPathOrUrl)).

(** ** Findings

    The writes of a run come in groups, one group per [if] block of the
    detectors.  [finding k r b]: a block of kind [k], entered with [results]
    equal to [r], makes the writes [b]. *)

Inductive kind :=
| KRepository | KFramework | KLibrary | KServer | KConfig
| KDirectory | KFunctions | KPattern | KThreshold | KCaught.

Inductive finding : kind -> results -> list mutation -> Prop :=
| finding_repository r owner repo :
    finding KRepository r
      [PushEvidence ("Analyzing GitHub repository: " +:+ owner +:+ "/" +:+ repo)]
| finding_framework r dep framework :
    In (dep, framework) ssrFrameworks ->
    finding KFramework r
      [PushEvidence ("Found SSR framework: " +:+ framework +:+ " (" +:+ dep +:+ ")");
       AssignFramework framework; AddConfidence 30; AssignNeedsSSR true]
| finding_library r libName :
    finding KLibrary r
      [PushEvidence ("Found potential SSR library: " +:+ libName); AddConfidence 10]
| finding_server r pkg :
    finding KServer r
      [PushEvidence ("Found server package: " +:+ pkg); AddConfidence 5]
| finding_config r file framework :
    In (file, framework) configFiles ->
    finding KConfig r
      [PushEvidence ("Found configuration file for " +:+ framework +:+ ": " +:+ file);
       AssignFramework (or_else (frameworkDetected r) framework);
       AddConfidence 20; AssignNeedsSSR true]
| finding_directory r path framework :
    finding KDirectory r
      [PushEvidence ("Found SSR-related directory: " +:+ path +:+
                     " (indicates " +:+ framework +:+ ")");
       AddConfidence 10]
| finding_functions r path :
    finding KFunctions r
      [PushEvidence ("Found SSR functions (getServerSideProps or getInitialProps) in " +:+ path);
       AddConfidence 15; AssignNeedsSSR true]
| finding_pattern r :
    finding KPattern r
      [PushEvidence "Found renderToString calls (React SSR)";
       AddConfidence 15; AssignNeedsSSR true]
| finding_threshold r :
    30 < confidence r ->
    finding KThreshold r [AssignNeedsSSR true]
| finding_caught r message :
    finding KCaught r [PushEvidence ("Error analyzing repository: " +:+ message)].

(** [steps allowed st st']: [st'] is reached from [st] by blocks of the
    allowed kinds. *)
Inductive steps (allowed : kind -> Prop) : state -> state -> Prop :=
| steps_refl st : steps allowed st st
| steps_block st st1 k b :
    steps allowed st st1 -> allowed k -> finding k (cur st1) b ->
    steps allowed st (extend st1 b).

(** A computation that only ever writes by blocks of the allowed kinds,
    whether it returns or throws. *)
Definition walks {A} (allowed : kind -> Prop) (m : M A) : Prop :=
  forall st, steps allowed st (snd (m st)).

(** The kinds of block of each part of the code. *)
Definition in_try (v : variant) (k : kind) : Prop :=
  match v, k with
  | _, KCaught => False
  | minimal, (KLibrary | KServer | KDirectory | KFunctions | KPattern) => False
  | _, _ => True
  end.

Definition in_run (v : variant) (k : kind) : Prop := k = KCaught \/ in_try v k.

Definition after_frameworks (k : kind) : Prop := k <> KFramework.

(** The state of the [results] object after the writes [t]. *)
Definition replay (t : list mutation) : results := fold_left write t initial.

(** The line the [catch] writes. *)
Definition is_error_line (line : string) : bool :=
  String.prefix "Error analyzing repository: " line.

(** The line a GitHub run starts its evidence with. *)
Definition announced (repoPathOrUrl : string) : list string :=
  match githubRegex_match repoPathOrUrl with
  | Some m =>
      let '(owner, repo) := owner_repo m in
      ["Analyzing GitHub repository: " +:+ owner +:+ "/" +:+ repo]
  | None => []
  end.

(** The text both implementations hand to [JSON.parse]: the decoded content
    of the remote [package.json] when it is fetched and not empty, the
    content of the local one when it exists and can be read. *)
Definition manifest_text (w : world) (repoPathOrUrl : string) : option string :=
  match githubRegex_match repoPathOrUrl with
  | Some m =>
      let '(owner, repo) := owner_repo m in
      match file_content (github w owner repo) "package.json" with
      | Ok (String c s) => Some (String c s)
      | Ok EmptyString | Throw _ => None
      end
  | None =>
      let packageJsonPath := path_join repoPathOrUrl "package.json" in
      match readFileSync packageJsonPath (disk w packageJsonPath) with
      | Ok text => Some text
      | Throw _ => None
      end
  end.

(** The same world with another disk. *)
Definition with_disk (w : world) (d : string -> node) : world :=
  {| JSON_parse := JSON_parse w; disk := d; github := github w |}.

(** No character of [s] is a slash. *)
Fixpoint slash_free (s : string) : bool :=
  match s with
  | EmptyString => true
  | String c s' => negb (Ascii.eqb c "/") && slash_free s'
  end.

(** Did the [try] block run to its end? *)
Definition completed (v : variant) (w : world) (repoPathOrUrl : string) : bool :=
  match fst (detectSSR_try v w repoPathOrUrl start) with
  | Ok _ => true
  | Throw _ => false
  end.

(** The part of each [try] block that follows the manifest. *)
Definition rest_of_try (v : variant) (w : world) (repoPathOrUrl : string)
    (repoStructure : list (option string)) : M unit :=
  match v with
  | minimal =>
      Minimal.checkConfigFiles w repoPathOrUrl repoStructure ;; finalRule
  | extended =>
      Extended.checkConfigFiles w repoPathOrUrl repoStructure ;;
      Extended.checkDirectories w repoPathOrUrl repoStructure ;;
      Extended.checkCodePatterns w repoPathOrUrl ;;
      finalRule
  end.


(** The writes of [checkFrameworks], read off the table. *)
Definition framework_block (dep framework : string) : list mutation :=
  [PushEvidence ("Found SSR framework: " +:+ framework +:+ " (" +:+ dep +:+ ")");
   AssignFramework framework; AddConfidence 30; AssignNeedsSSR true].

Definition framework_writes (deps : gmap string value) (table : list (string * string))
    : list mutation :=
  flat_map (fun '(dep, framework) =>
              if has_dependency deps dep then framework_block dep framework else [])
    table.

(** The frameworks of the table whose package is a truthy dependency, in
    table order. *)
Definition present_in (deps : gmap string value) (table : list (string * string))
    : list string :=
  map snd (List.filter (fun e => has_dependency deps (fst e)) table).

Definition frameworks_present (deps : gmap string value) : list string :=
  present_in deps ssrFrameworks.

(** A write that never lowers the verdict or the score. *)
Definition benign (mu : mutation) : Prop :=
  match mu with
  | AssignNeedsSSR b => b = true
  | AddConfidence n => 0 < n
  | AssignFramework _ | PushEvidence _ => True
  end.

(** ** Worlds for the examples *)

Definition dq : string := String (ascii_of_nat 34) EmptyString.
Definition quoted (s : string) : string := dq +:+ s +:+ dq.

(** [{"dependencies":{"next":"13.0.0"}}] *)
Definition manifest_next_text : string :=
  "{" +:+ quoted "dependencies" +:+ ":{" +:+ quoted "next" +:+ ":" +:+
  quoted "13.0.0" +:+ "}}".
Definition manifest_next : value :=
  VObj {[ "dependencies" := VObj {[ "next" := VStr "13.0.0" ]} ]}.

(** [{"dependencies":{"next":"13.0.0","nuxt":"3.0.0"}}] *)
Definition manifest_two_text : string :=
  "{" +:+ quoted "dependencies" +:+ ":{" +:+ quoted "next" +:+ ":" +:+
  quoted "13.0.0" +:+ "," +:+ quoted "nuxt" +:+ ":" +:+ quoted "3.0.0" +:+ "}}".
Definition manifest_two : value :=
  VObj {[ "dependencies" :=
            VObj (<[ "next" := VStr "13.0.0" ]> {[ "nuxt" := VStr "3.0.0" ]}) ]}.

(** [{"dependencies":{"next":""}}]: the empty range, which npm reads as
    "any version". *)
Definition manifest_blank_text : string :=
  "{" +:+ quoted "dependencies" +:+ ":{" +:+ quoted "next" +:+ ":" +:+
  quoted "" +:+ "}}".
Definition manifest_blank : value :=
  VObj {[ "dependencies" := VObj {[ "next" := VStr "" ]} ]}.

(** A manifest cut short. *)
Definition manifest_malformed_text : string := "{".

(** [JSON.parse] on the texts of the examples. *)
Definition JSON_parse_examples (text : string) : outcome value :=
  if String.eqb text manifest_next_text then Ok manifest_next
  else if String.eqb text manifest_two_text then Ok manifest_two
  else if String.eqb text manifest_blank_text then Ok manifest_blank
  else Throw "Unexpected end of JSON input".

Definition no_repository : repository :=
  {| root := Failed "Not Found";
     file_content := fun _ => Throw "Not Found";
     search_code := fun _ => Throw "Not Found" |}.

(** The entry [name] of a listing, and of a directory. *)
Fixpoint lookup_entry (name : string) (entries : list (string * node)) : node :=
  match entries with
  | [] => Missing ENOENT
  | (n, x) :: rest => if String.eqb n name then x else lookup_entry name rest
  end.

Definition child (p : node) (name : string) : node :=
  match p with
  | Dir (Ok entries) => lookup_entry name entries
  | Dir (Throw _) => Missing "EACCES: permission denied"
  | File _ => Missing "ENOTDIR: not a directory"
  | Missing error => Missing error
  end.

(** A disk that holds [tree] at the relative path [name] and nothing else:
    a path resolves by going down the tree, one segment at a time. *)
Definition disk_with (name : string) (tree : node) (path : string) : node :=
  match Str.split_slash path with
  | first :: rest =>
      if String.eqb first name then fold_left child rest tree else Missing ENOENT
  | [] => Missing ENOENT
  end.

(** A world whose disk holds [project] at the path ["project"] and nothing
    else. *)
Definition local_world (project : node) : world :=
  {| JSON_parse := JSON_parse_examples;
     disk := disk_with "project" project;
     github := fun _ _ => no_repository |}.

Definition empty_dir : node := Dir (Ok []).

Definition project_next : node :=
  Dir (Ok [("package.json", File (Ok manifest_next_text))]).

Definition project_two : node :=
  Dir (Ok [("package.json", File (Ok manifest_two_text))]).

Definition project_blank : node :=
  Dir (Ok [("package.json", File (Ok manifest_blank_text))]).

(** Four directories of the table and nothing else. *)
Definition project_servers : node :=
  Dir (Ok [("server", empty_dir); ("api", empty_dir);
           ("functions", empty_dir); ("lambda", empty_dir)]).

(** The same with a link whose target is gone. *)
Definition project_dangling : node :=
  Dir (Ok [("server", empty_dir); ("api", empty_dir);
           ("functions", empty_dir); ("lambda", empty_dir);
           ("current", Missing ENOENT)]).

(** A Next.js configuration file next to a malformed manifest, and next to
    no manifest. *)
Definition project_malformed : node :=
  Dir (Ok [("next.config.js", File (Ok "module.exports = {}"));
           ("package.json", File (Ok manifest_malformed_text))]).

Definition project_no_manifest : node :=
  Dir (Ok [("next.config.js", File (Ok "module.exports = {}"))]).

(** A repository with [n] files in its root directory.  (The answer for the
    path of a file is never asked for.) *)
Definition many_files (n : nat) : list item :=
  map (fun i => Item (Some ("file" +:+ index_key i)) "file" (Failed "not requested")) (seq 0 n).

Definition remote_world (items : list item) : world :=
  {| JSON_parse := JSON_parse_examples;
     disk := fun _ => Missing ENOENT;
     github := fun _ _ =>
       {| root := Listing items;
          file_content := fun _ => Throw "Not Found";
          search_code := fun _ => Ok 0 |} |}.

(** ** Induction on the answers of the API

    The induction hypothesis is available for the answer stored in every
    entry of a listing. *)
Definition item_contents (it : item) : response :=
  match it with Item _ _ contents => contents end.

Section response_induction.
Variable P : response -> Prop.
Hypothesis P_Failed : forall message, P (Failed message).
Hypothesis P_Listing :
  forall items, Forall (fun it => P (item_contents it)) items -> P (Listing items).
Hypothesis P_Single : forall it, P (item_contents it) -> P (Single it).

Fixpoint response_induction (answer : response) : P answer :=
  match answer with
  | Failed message => P_Failed message
  | Listing items =>
      P_Listing items
        ((fix all (l : list item) : Forall (fun it => P (item_contents it)) l :=
            match l with
            | [] => List.Forall_nil _
            | it :: l' =>
                List.Forall_cons _ it l'
                  (match it return P (item_contents it) with
                   | Item _ _ contents => response_induction contents
                   end)
                  (all l')
            end) items)
  | Single it =>
      P_Single it
        (match it return P (item_contents it) with
         | Item _ _ contents => response_induction contents
         end)
  end.
End response_induction.

(** The number of collected paths, counted up to 99. *)
Definition capped (wk : Extended.walk) : nat :=
  Nat.min (length (Extended.structure wk)) 99.

(** What one call of the walk, and one iteration of its loop, add to the
    requests is paid for by paths collected below the cap. *)
Definition pays (wk wk' : Extended.walk) : Prop :=
  (Extended.requests wk' + capped wk <= Extended.requests wk + capped wk')%nat /\
  (length (Extended.structure wk) <= length (Extended.structure wk'))%nat.

(** ** The [try] block in two and in three parts *)

Definition analyzePackage (v : variant) : value -> M unit :=
  match v with
  | minimal => Minimal.analyzePackage
  | extended => Extended.analyzePackage
  end.

(** What follows [load]. *)
Definition after_load (v : variant) (w : world) (repoPathOrUrl : string)
    (loaded : value * list (option string)) : M unit :=
  let '(packageJson, repoStructure) := loaded in
  analyzePackage v packageJson ;;
  rest_of_try v w repoPathOrUrl repoStructure.

(** What follows [checkFrameworks] inside [if (packageJson)]. *)
Definition rest_of_package (v : variant) (deps : gmap string value) : M unit :=
  match v with
  | minimal => ret tt
  | extended =>
      for_of Extended.ssrLibraries (fun lib =>
        let libName := Str.split_head lib in
        when (has_dependency deps libName)
          (mutate (PushEvidence ("Found potential SSR library: " +:+ libName)) ;;
           mutate (AddConfidence 10))) ;;
      for_of Extended.serverPackages (fun pkg =>
        when (has_dependency deps pkg)
          (mutate (PushEvidence ("Found server package: " +:+ pkg)) ;;
           mutate (AddConfidence 5)))
  end.

(** ** More of the code, and what is needed to state its properties *)

(** The points each kind of evidence line comes with, read off the
    [confidence +=] next to each [evidence.push]. *)
Definition weight (line : string) : Z :=
  if String.prefix "Found SSR framework: " line then 30
  else if String.prefix "Found potential SSR library: " line then 10
  else if String.prefix "Found server package: " line then 5
  else if String.prefix "Found configuration file for " line then 20
  else if String.prefix "Found SSR-related directory: " line then 10
  else if String.prefix "Found SSR functions " line then 15
  else if String.prefix "Found renderToString calls" line then 15
  else 0.

Definition score (lines : list string) : Z :=
  fold_right (fun line total => weight line + total) 0 lines.

(** A computation that adds at most [n] to the score, whether it returns or
    throws. *)
Definition spends {A} (n : nat) (m : M A) : Prop :=
  forall st, confidence (cur (snd (m st))) <= confidence (cur st) + Z.of_nat n.

(** The most one entry of [ssrDirectories] can add: 10 for the directory and,
    for [pages] and [app], 15 for the functions found in it. *)
Definition directory_budget (entry : string * string) : nat :=
  if String.eqb (fst entry) "pages" || String.eqb (fst entry) "app" then 25 else 10.

(** The highest score of a report. *)
Definition highest (v : variant) : Z :=
  match v with minimal => 390 | extended => 590 end.

(** The lowest score of a report with a positive verdict. *)
Definition lowest_forcing (v : variant) : Z :=
  match v with minimal => 20 | extended => 15 end.

(** The framework names of the two tables. *)
Definition framework_names : list string :=
  map snd ssrFrameworks ++ map snd configFiles.

(** A computation that never throws. *)
Definition returns {A} (m : M A) : Prop :=
  forall st, exists a st', m st = (Ok a, st').

(** What every report satisfies: the score is not negative; a positive
    verdict comes with a score of at least [lowest_forcing] and a negative one
    with no framework; a framework is one of the names of the tables. *)
Definition report_invariant (v : variant) (r : results) : Prop :=
  0 <= confidence r /\
  (if needsSSR r then lowest_forcing v <= confidence r else frameworkDetected r = None) /\
  match frameworkDetected r with Some f => In f framework_names | None => True end.

(** ** Induction on the disk

    The induction hypothesis is available for every entry of a directory
    that can be listed. *)
Section node_induction.
Variable P : node -> Prop.
Hypothesis P_File : forall content, P (File content).
Hypothesis P_Missing : forall error, P (Missing error).
Hypothesis P_unreadable : forall message, P (Dir (Throw message)).
Hypothesis P_Dir :
  forall entries, Forall (fun e => P (snd e)) entries -> P (Dir (Ok entries)).

Fixpoint node_induction (n : node) : P n :=
  match n with
  | File content => P_File content
  | Missing error => P_Missing error
  | Dir (Throw message) => P_unreadable message
  | Dir (Ok entries) =>
      P_Dir entries
        ((fix all (l : list (string * node)) : Forall (fun e => P (snd e)) l :=
            match l with
            | [] => List.Forall_nil _
            | e :: l' =>
                List.Forall_cons _ e l'
                  (match e return P (snd e) with (_, x) => node_induction x end)
                  (all l')
            end) entries)
  end.
End node_induction.

(** Is the outcome a value? *)
Definition is_ok {A} (o : outcome A) : bool :=
  match o with Ok _ => true | Throw _ => false end.

(** A tree [getAllFiles] can walk: a directory that can be listed and in
    which, outside of [node_modules] and [.git], every entry resolves and
    every directory can be walked in turn. *)
Fixpoint walkable (n : node) : bool :=
  match n with
  | Dir (Ok entries) =>
      (fix all (entries : list (string * node)) : bool :=
         match entries with
         | [] => true
         | (file, x) :: rest =>
             match x with
             | Missing _ => false
             | File _ => all rest
             | Dir _ =>
                 if negb (String.eqb file "node_modules") && negb (String.eqb file ".git")
                 then walkable x && all rest
                 else all rest
             end
         end) entries
  | Dir (Throw _) | File _ | Missing _ => false
  end.

(** What the local run of [src/unnamed/part_000] asks of a path it searches
    for SSR functions: when it is a directory, [getAllFiles] can walk it. *)
Definition walkable_if_directory (n : node) : bool :=
  match n with
  | Dir _ => walkable n
  | File _ | Missing _ => true
  end.

(** The same for an entry of the table of directories: only [pages] and
    [app] are searched. *)
Definition directory_searchable (w : world) (repoPath : string)
    (entry : string * string) : bool :=
  if String.eqb (fst entry) "pages" || String.eqb (fst entry) "app"
  then walkable_if_directory (disk w (path_join repoPath (fst entry)))
  else true.

(** A path through a symbolic link.  [link] points to the directory
    [target] of another place, so ["link/.."] lists that place, which holds
    [target] and nothing else; but [path.join("link/..", name)] is [name],
    a path of the current directory.  The current directory has an empty
    [target] of its own, and a [pages] with a dangling link in it. *)
Definition linked_world : world :=
  {| JSON_parse := JSON_parse_examples;
     disk := fun path =>
       if String.eqb path "link/.." then Dir (Ok [("target", Dir (Ok []))])
       else if String.eqb path "target" then Dir (Ok [])
       else if String.eqb path "pages" then Dir (Ok [("index.js", Missing ENOENT)])
       else Missing ENOENT;
     github := fun _ _ => no_repository |}.

(** The path of an entry listed under [path]. *)
Definition item_path (path : string) (it : item) : option string :=
  match it with
  | Item name _ _ =>
      match path with
      | EmptyString => name
      | String _ _ => Some (path +:+ "/" +:+ template name)
      end
  end.

(** Every path of the tree the API serves, in the order of a depth-first
    walk into the entries of type [dir], without any cap. *)
Fixpoint all_paths (answer : response) (path : string) : list (option string) :=
  match answer with
  | Failed _ => []
  | Listing items =>
      (fix each (items : list item) : list (option string) :=
         match items with
         | [] => []
         | it :: rest =>
             (item_path path it ::
              match it with
              | Item _ type contents =>
                  if String.eqb type "dir"
                  then all_paths contents (Extended.path_or_default (item_path path it))
                  else []
              end) ++ each rest
         end) items
  | Single it =>
      item_path path it ::
      match it with
      | Item _ type contents =>
          if String.eqb type "dir"
          then all_paths contents (Extended.path_or_default (item_path path it))
          else []
      end
  end.

(** ** The configuration-file loops

    The four loops over [configFiles] differ only in the test: membership in
    the repository structure for a GitHub URL, existence on disk for a local
    path. *)
Definition config_present (v : variant) (w : world) (repoPathOrUrl : string)
    (repoStructure : list (option string)) (file : string) : bool :=
  if githubRegex_test repoPathOrUrl then
    existsb (fun item => strictly_equal item file) repoStructure
  else existsSync (disk w (path_join repoPathOrUrl file)).

(** The writes of one such loop, from the framework detected so far. *)
Fixpoint config_writes (present : string -> bool) (table : list (string * string))
    (detected : option string) : list mutation :=
  match table with
  | [] => []
  | (file, framework) :: rest =>
      if present file then
        [PushEvidence ("Found configuration file for " +:+ framework +:+ ": " +:+ file);
         AssignFramework (or_else detected framework);
         AddConfidence 20; AssignNeedsSSR true]
        ++ config_writes present rest (Some (or_else detected framework))
      else config_writes present rest detected
  end.

(** The frameworks of the configuration files that are present, in table
    order. *)
Definition configs_present (present : string -> bool) : list string :=
  map snd (List.filter (fun e => present (fst e)) configFiles).

Definition checkConfigFiles (v : variant) : world -> string -> list (option string) -> M unit :=
  match v with
  | minimal => Minimal.checkConfigFiles
  | extended => Extended.checkConfigFiles
  end.

(** What follows the configuration files in each [try] block. *)
Definition tail_of_try (v : variant) (w : world) (repoPathOrUrl : string)
    (repoStructure : list (option string)) : M unit :=
  match v with
  | minimal => finalRule
  | extended =>
      Extended.checkDirectories w repoPathOrUrl repoStructure ;;
      Extended.checkCodePatterns w repoPathOrUrl ;;
      finalRule
  end.

(** The kinds of block that leave the framework alone. *)
Definition quiet (k : kind) : Prop := k <> KFramework /\ k <> KConfig.

(** One report has all that another one has: the same framework, the
    verdict if the other has it, no lower a score and every line of
    evidence. *)
Definition covers (b a : results) : Prop :=
  frameworkDetected a = frameworkDetected b /\
  (needsSSR a = true -> needsSSR b = true) /\
  confidence a <= confidence b /\
  (forall line, In line (evidence a) -> In line (evidence b)).

(** ** The HTTP endpoint [GET /check-repo] (the server in [src/README.md]) *)

Inductive reply :=
| BadRequest (error : string)                    (* 400 {error} *)
| Results (results : results)                    (* 200 {results} *)
| ServerError (error : string) (details : string). (* 500 {error, details} *)

Definition status (r : reply) : Z :=
  match r with
  | BadRequest _ => 400
  | Results _ => 200
  | ServerError _ _ => 500
  end.

(** The handler: [repoPath] is the query parameter, [None] when it is not
    given.  [detectSSR] is the one of [src/detectssr.js]; what it throws
    would be caught here. *)
Definition check_repo (w : world) (repoPath : option string) : reply :=
  match repoPath with
  | None | Some EmptyString => BadRequest "repoPath is required"
  | Some (String c p) =>
      match Minimal.detectSSR_run w (String c p) with
      | (Ok _, st) => Results (cur st)
      | (Throw message, _) => ServerError "Failed to analyze repository" message
      end
  end.

(** Is a framework named: neither [null] nor the empty string? *)
Definition named (detected : option string) : bool :=
  match detected with
  | Some (String _ _) => true
  | Some EmptyString | None => false
  end.

Definition buildRepoStructure (v : variant) : world -> string -> string -> list (option string) :=
  match v with
  | minimal => Minimal.buildRepoStructure
  | extended => Extended.buildRepoStructure
  end.

(** ** What can end the [try] block for a GitHub URL *)

(** None of the eight searches of the structure for a directory of the
    table throws: each is answered before it comes to an element that is
    [undefined]. *)
Definition probes_return (structure : list (option string)) : bool :=
  forallb (fun entry => is_ok (some_at_or_below (fst entry) structure))
    Extended.ssrDirectories.

(** The repository structure a run builds for a GitHub URL. *)
Definition remote_structure (v : variant) (w : world) (repoPathOrUrl : string)
    : list (option string) :=
  match githubRegex_match repoPathOrUrl with
  | Some m => buildRepoStructure v w (fst (owner_repo m)) (snd (owner_repo m))
  | None => []
  end.

(** Every element is a string. *)
Definition all_named (structure : list (option string)) : bool :=
  forallb (fun item => match item with Some _ => true | None => false end) structure.

(** A repository whose root listing has an entry without a name after the
    entries of [remote_project]. *)
Definition remote_nameless : world :=
  {| JSON_parse := JSON_parse_examples;
     disk := fun _ => Missing ENOENT;
     github := fun _ _ =>
       {| root :=
            Listing [ Item (Some "package.json") "file" (Failed "not requested");
                      Item (Some "pages") "dir"
                        (Listing [Item (Some "index.js") "file" (Failed "not requested")]);
                      Item None "file" (Failed "not requested") ];
          file_content := fun path =>
            if String.eqb path "package.json" then Ok manifest_next_text
            else Throw "Not Found";
          search_code := fun _ => Ok 0 |} |}.

(** ** A local path that does not exist *)

(** The relative names each file joins to [repoPath] and looks up. *)
Definition lookups (v : variant) : list string :=
  "package.json" :: map fst configFiles ++
  match v with
  | minimal => []
  | extended => map fst Extended.ssrDirectories
  end.

(** None of the paths [path.join(repoPath, name)] the code looks up
    exists. *)
Definition nothing_joined (v : variant) (w : world) (repoPath : string) : bool :=
  forallb (fun name => negb (existsSync (disk w (path_join repoPath name)))) (lookups v).

(** A path segment that [path.join] keeps as it is: not empty, neither
    ["."] nor [".."], without a slash. *)
Definition proper (segment : string) : bool :=
  negb (String.eqb segment "") && negb (String.eqb segment ".")
  && negb (String.eqb segment "..") && slash_free segment.

(** The path in normal form with these segments. *)
Definition clean_path (absolute : bool) (segments : list string) : string :=
  (if absolute then "/" else "") +:+ Str.join_slash segments.

(** A current directory that holds a Next.js configuration file and nothing
    else; no other path resolves, relative or absolute. *)
Definition cwd_world : world :=
  {| JSON_parse := JSON_parse_examples;
     disk := fun path =>
       if String.eqb path "next.config.js" then File (Ok "module.exports = {}")
       else Missing ENOENT;
     github := fun _ _ => no_repository |}.

(** ** More worlds for the examples *)

(** A repository with directories in it: five paths. *)
Definition nested_items : list item :=
  [ Item (Some "src") "dir"
      (Listing [ Item (Some "index.js") "file" (Failed "not requested");
                 Item (Some "lib") "dir" (Listing [Item (Some "util.js") "file" (Failed "not requested")]) ]);
    Item (Some "README.md") "file" (Failed "not requested") ].

(** 99 files and then a directory with a file in it: 101 paths, and the
    directory is entry 100 of the structure. *)
Definition capped_items : list item :=
  many_files 99 ++
  [Item (Some "src") "dir" (Listing [Item (Some "index.js") "file" (Failed "not requested")])].

(** A Next.js repository as the API serves it: [manifest] is the answer for
    [package.json] and [search] the answer of every code search. *)
Definition remote_project (manifest : outcome string) (search : outcome Z) : world :=
  {| JSON_parse := JSON_parse_examples;
     disk := fun _ => Missing ENOENT;
     github := fun _ _ =>
       {| root :=
            Listing [ Item (Some "package.json") "file" (Failed "not requested");
                      Item (Some "next.config.js") "file" (Failed "not requested");
                      Item (Some "pages") "dir"
                        (Listing [Item (Some "index.js") "file" (Failed "not requested")]) ];
          file_content := fun path =>
            if String.eqb path "package.json" then manifest else Throw "Not Found";
          search_code := fun _ => search |} |}.

(** A local Next.js project: the manifest, the configuration file, a page
    with [getServerSideProps] and an empty [server] directory. *)
Definition project_full : node :=
  Dir (Ok [ ("package.json", File (Ok manifest_next_text));
            ("next.config.js", File (Ok "module.exports = {}"));
            ("pages", Dir (Ok [("index.js",
                                File (Ok "export async function getServerSideProps() {}"))]));
            ("server", empty_dir) ]).

(** * Proofs *)

(** ** Runs as sequences of blocks *)

Lemma extend_extend st l1 l2 : extend (extend st l1) l2 = extend st (l1 ++ l2).
Proof. unfold extend; cbn. by rewrite fold_left_app, (assoc_L (++)). Qed.

Lemma extend_nil st : extend st [] = st.
Proof. destruct st; unfold extend; cbn. by rewrite app_nil_r. Qed.

Section Steps.
Context (allowed : kind -> Prop).

Lemma steps_trans st1 st2 st3 :
  steps allowed st1 st2 -> steps allowed st2 st3 -> steps allowed st1 st3.
Proof. induction 2; eauto using steps. Qed.

Lemma steps_one st k b :
  allowed k -> finding k (cur st) b -> steps allowed st (extend st b).
Proof. eauto using steps. Qed.

Lemma steps_extends st st' : steps allowed st st' -> exists t, st' = extend st t.
Proof.
  induction 1 as [|st st1 k b _ [t ->] _ _].
  - exists []. by rewrite extend_nil.
  - exists (t ++ b). by rewrite extend_extend.
Qed.

Lemma steps_invariant (P : state -> Prop) st st' :
  (forall k s b, allowed k -> finding k (cur s) b -> P s -> P (extend s b)) ->
  steps allowed st st' -> P st -> P st'.
Proof. intros HP; induction 1; eauto. Qed.

Lemma walks_ret {A} (a : A) : walks allowed (ret a).
Proof. intros st; apply steps_refl. Qed.
Lemma walks_throw {A} msg : walks allowed (@throw A msg).
Proof. intros st; apply steps_refl. Qed.
Lemma walks_lift {A} (o : outcome A) : walks allowed (lift o).
Proof. intros st; apply steps_refl. Qed.
Lemma walks_gets {A} (f : results -> A) : walks allowed (gets f).
Proof. intros st; apply steps_refl. Qed.
Lemma walks_bind {A B} (m : M A) (k : A -> M B) :
  walks allowed m -> (forall a, walks allowed (k a)) -> walks allowed (bind m k).
Proof.
  intros Hm Hk st. unfold bind. specialize (Hm st).
  destruct (m st) as [[a|msg] st1]; cbn in *; [|done].
  eapply steps_trans; [exact Hm | apply Hk].
Qed.
Lemma walks_when c (m : M unit) : walks allowed m -> walks allowed (when c m).
Proof. destruct c; cbn; auto using walks_ret. Qed.
Lemma walks_for_of {A} (l : list A) (body : A -> M unit) :
  (forall x, In x l -> walks allowed (body x)) -> walks allowed (for_of l body).
Proof.
  induction l as [|x l IH]; intros Hb; cbn; [apply walks_ret|].
  apply walks_bind; [apply Hb; by left | intros _; apply IH].
  intros y Hy; apply Hb; by right.
Qed.
Lemma walks_if {A} (c : bool) (m1 m2 : M A) :
  walks allowed m1 -> walks allowed m2 -> walks allowed (if c then m1 else m2).
Proof. by destruct c. Qed.
Lemma walks_try_catch {A} (m : M A) h :
  walks allowed m -> (forall msg, walks allowed (h msg)) -> walks allowed (try_catch m h).
Proof.
  intros Hm Hh st. unfold try_catch. specialize (Hm st).
  destruct (m st) as [[a|msg] st1]; cbn in *; [done|].
  eapply steps_trans; [exact Hm | apply Hh].
Qed.
Lemma walks_match_owner_repo s : walks allowed (match_owner_repo s).
Proof.
  unfold match_owner_repo.
  destruct (githubRegex_match s); auto using walks_ret, walks_throw.
Qed.
End Steps.

Lemma steps_weaken (a a' : kind -> Prop) st st' :
  (forall k, a k -> a' k) -> steps a st st' -> steps a' st st'.
Proof. induction 2; eauto using steps. Qed.

Lemma walks_weaken {A} (a a' : kind -> Prop) (m : M A) :
  (forall k, a k -> a' k) -> walks a m -> walks a' m.
Proof. intros H Hm st. eapply steps_weaken; eauto. Qed.

(** An [if] block made of writes only: run it and name its kind. *)
Ltac block K :=
  let st := fresh "st" in
  intros st; unfold bind, mutate, gets; cbn [snd fst];
  rewrite ?extend_extend; cbn [app];
  apply (steps_one _ st K);
    [try done | cbn [cur extend fold_left write frameworkDetected]].

Create HintDb walk.
#[local] Hint Resolve walks_ret walks_throw walks_lift walks_gets walks_when
  walks_match_owner_repo walks_if : walk.

(** The parts of a computation that write nothing. *)
Ltac walk :=
  repeat first
    [ progress eauto with walk
    | apply walks_bind; [| intros ?]
    | apply walks_for_of; intros ? ?
    | apply walks_when
    | apply walks_if
    | match goal with
      | |- walks _ (let '(_, _) := ?p in _) => destruct p
      | |- walks _ (match ?x with _ => _ end) => destruct x
      end ].

Section Walks.
Context (allowed : kind -> Prop).

Lemma walks_checkFrameworks deps :
  allowed KFramework -> walks allowed (checkFrameworks deps).
Proof.
  intros Ha. unfold checkFrameworks.
  apply walks_for_of. intros [dep fw] Hin. apply walks_when.
  block KFramework. by constructor.
Qed.

Lemma walks_finalRule : allowed KThreshold -> walks allowed finalRule.
Proof.
  intros Ha st. unfold finalRule, bind, gets, when.
  destruct (30 <? confidence (cur st)) eqn:E; [|apply steps_refl].
  apply (steps_one _ st KThreshold); [done|]. constructor. lia.
Qed.

Lemma walks_catchError msg : allowed KCaught -> walks allowed (catchError msg).
Proof. intros Ha. unfold catchError. block KCaught. constructor. Qed.

Lemma walks_minimal_load w s : allowed KRepository -> walks allowed (Minimal.load w s).
Proof.
  intros Ha. unfold Minimal.load. walk.
  block KRepository. constructor.
Qed.

Lemma walks_minimal_analyzePackage p :
  allowed KFramework -> walks allowed (Minimal.analyzePackage p).
Proof. intros Ha. unfold Minimal.analyzePackage. auto using walks_when, walks_checkFrameworks. Qed.

Lemma walks_minimal_checkConfigFiles w s l :
  allowed KConfig -> walks allowed (Minimal.checkConfigFiles w s l).
Proof.
  intros Ha. unfold Minimal.checkConfigFiles. 
  apply walks_if; apply walks_for_of; intros [file fw] Hin; apply walks_when;
    block KConfig; by constructor.
Qed.

Lemma walks_extended_load w s : allowed KRepository -> walks allowed (Extended.load w s).
Proof.
  intros Ha. unfold Extended.load. walk.
  block KRepository. constructor.
Qed.

Lemma walks_extended_libraries deps :
  allowed KLibrary -> allowed KServer ->
  walks allowed
    (for_of Extended.ssrLibraries (fun lib =>
       let libName := Str.split_head lib in
       when (has_dependency deps libName)
         (mutate (PushEvidence ("Found potential SSR library: " +:+ libName)) ;;
          mutate (AddConfidence 10))) ;;
     for_of Extended.serverPackages (fun pkg =>
       when (has_dependency deps pkg)
         (mutate (PushEvidence ("Found server package: " +:+ pkg)) ;;
          mutate (AddConfidence 5)))).
Proof.
  intros Hl Hs. apply walks_bind; [|intros _]; apply walks_for_of; intros x _; 
    cbv zeta; apply walks_when.
  - block KLibrary. constructor.
  - block KServer. constructor.
Qed.

Lemma walks_extended_checkConfigFiles w s l :
  allowed KConfig -> walks allowed (Extended.checkConfigFiles w s l).
Proof.
  intros Ha. unfold Extended.checkConfigFiles.
  apply walks_if; [apply walks_bind; [apply walks_match_owner_repo|intros _]|];
    apply walks_for_of; intros [file fw] Hin; cbv zeta; apply walks_when;
    block KConfig; by constructor.
Qed.

Lemma walks_after_two (a b : mutation) (rest : M unit) :
  walks allowed (mutate a ;; mutate b) -> walks allowed rest ->
  walks allowed (mutate a ;; mutate b ;; rest).
Proof.
  intros H1 H2 st. eapply steps_trans; [apply (H1 st) | apply (H2 _)].
Qed.

Lemma walks_extended_analyzePackage p :
  allowed KFramework -> allowed KLibrary -> allowed KServer ->
  walks allowed (Extended.analyzePackage p).
Proof.
  intros Hf Hl Hs. unfold Extended.analyzePackage. apply walks_when. cbv zeta.
  apply walks_bind; [by apply walks_checkFrameworks | intros _].
  by apply walks_extended_libraries.
Qed.

Lemma walks_extended_checkDirectories w s l :
  allowed KDirectory -> allowed KFunctions ->
  walks allowed (Extended.checkDirectories w s l).
Proof.
  intros Hd Hf. unfold Extended.checkDirectories.
  apply walks_if.
  - apply walks_bind; [apply walks_match_owner_repo | intros [owner repo]].
    apply walks_for_of; intros [path fw] _; cbv zeta.
    apply walks_bind; [apply walks_lift | intros dirExists]. apply walks_when.
    apply walks_after_two; [block KDirectory; constructor |].
    do 2 apply walks_when. block KFunctions. constructor.
  - apply walks_for_of; intros [path fw] _; cbv zeta.
    apply walks_bind; [apply walks_if; auto with walk | intros isDirectory].
    apply walks_when.
    apply walks_after_two; [block KDirectory; constructor |].
    apply walks_when. apply walks_bind; [apply walks_lift | intros found].
    apply walks_when. block KFunctions. constructor.
Qed.

Lemma walks_extended_checkCodePatterns w s :
  allowed KPattern -> walks allowed (Extended.checkCodePatterns w s).
Proof.
  intros Hp. unfold Extended.checkCodePatterns.
  apply walks_if.
  - apply walks_bind; [apply walks_match_owner_repo | intros [owner repo]].
    cbv zeta. apply walks_when. block KPattern. constructor.
  - apply walks_bind; [apply walks_lift | intros found].
    apply walks_when. block KPattern. constructor.
Qed.
End Walks.

Lemma walks_rest_of_try v w s l :
  walks (fun k => in_try v k /\ after_frameworks k) (rest_of_try v w s l).
Proof.
  destruct v; unfold rest_of_try.
  - apply walks_bind; [apply walks_minimal_checkConfigFiles; by split | intros _].
    apply walks_finalRule; by split.
  - apply walks_bind; [apply walks_extended_checkConfigFiles; by split | intros _].
    apply walks_bind; [apply walks_extended_checkDirectories; by split | intros _].
    apply walks_bind; [apply walks_extended_checkCodePatterns; by split | intros _].
    apply walks_finalRule; by split.
Qed.

Lemma walks_detectSSR_try v w s : walks (in_try v) (detectSSR_try v w s).
Proof.
  destruct v; cbn.
  - unfold Minimal.detectSSR_try.
    apply walks_bind; [by apply walks_minimal_load | intros [p l]].
    apply walks_bind; [by apply walks_minimal_analyzePackage | intros _].
    eapply walks_weaken; [|apply (walks_rest_of_try minimal)]. by intros k [H _].
  - unfold Extended.detectSSR_try.
    apply walks_bind; [by apply walks_extended_load | intros [p l]].
    apply walks_bind; [by apply walks_extended_analyzePackage | intros _].
    eapply walks_weaken; [|apply (walks_rest_of_try extended)]. by intros k [H _].
Qed.

Lemma detectSSR_run_eq v w s :
  detectSSR_run v w s = try_catch (detectSSR_try v w s) catchError start.
Proof. by destruct v. Qed.

Lemma detectSSR_eq v w s : detectSSR v w s = cur (snd (detectSSR_run v w s)).
Proof. by destruct v. Qed.

Lemma steps_detectSSR_run v w s : steps (in_run v) start (snd (detectSSR_run v w s)).
Proof.
  rewrite detectSSR_run_eq. apply walks_try_catch.
  - eapply walks_weaken; [|apply walks_detectSSR_try]. intros k; by right.
  - intros msg. apply walks_catchError. by left.
Qed.

(** ** A run is the replay of its trace *)

Lemma run_trace v w s : snd (detectSSR_run v w s) = extend start (trace v w s).
Proof.
  destruct (steps_extends _ _ _ (steps_detectSSR_run v w s)) as [t Ht].
  unfold trace. by rewrite Ht.
Qed.

Lemma detectSSR_replay v w s : detectSSR v w s = replay (trace v w s).
Proof. by rewrite detectSSR_eq, run_trace. Qed.

Lemma replay_app t1 t2 : replay (t1 ++ t2) = fold_left write t2 (replay t1).
Proof. apply fold_left_app. Qed.

(** ** What the writes can do to each field *)

Lemma finding_benign k r b : finding k r b -> Forall benign b.
Proof. destruct 1; repeat constructor; cbn; lia. Qed.

Lemma steps_benign allowed st st' :
  steps allowed st st' -> Forall benign (log st) -> Forall benign (log st').
Proof.
  apply (steps_invariant allowed (fun s => Forall benign (log s))).
  intros k s b _ Hf Hs. cbn. apply Forall_app; eauto using finding_benign.
Qed.

Lemma trace_benign v w s : Forall benign (trace v w s).
Proof. apply (steps_benign _ _ _ (steps_detectSSR_run v w s)). constructor. Qed.

Lemma benign_needsSSR t r :
  Forall benign t -> needsSSR r = true -> needsSSR (fold_left write t r) = true.
Proof.
  intros Ht; revert r; induction Ht as [|mu t Hmu _ IH]; intros r Hr; [done|].
  cbn. apply IH. destruct mu; cbn in *; congruence.
Qed.

Lemma benign_confidence t r :
  Forall benign t -> confidence r <= confidence (fold_left write t r).
Proof.
  intros Ht; revert r; induction Ht as [|mu t Hmu _ IH]; intros r; [done|].
  cbn. etrans; [|apply IH]. destruct mu; cbn in *; lia.
Qed.

(** The lines pushed by a list of writes. *)
Lemma evidence_write_grows mu r line : In line (evidence r) -> In line (evidence (write r mu)).
Proof. destruct mu; cbn; auto. intros H. apply in_or_app; by left. Qed.

Lemma evidence_grows t r line :
  In line (evidence r) -> In line (evidence (fold_left write t r)).
Proof. revert r; induction t; cbn; auto using evidence_write_grows. Qed.

Lemma finding_no_error_line k r b :
  k <> KCaught -> finding k r b ->
  Forall (fun line => is_error_line line = false) (evidence r) ->
  Forall (fun line => is_error_line line = false) (evidence (fold_left write b r)).
Proof.
  intros Hk Hf Hr.
  destruct Hf; try done; cbn; try done; apply Forall_app; split; try done;
    by repeat constructor.
Qed.

Lemma in_try_not_caught v k : in_try v k -> k <> KCaught.
Proof. by destruct v, k. Qed.

Lemma try_no_error_line v w s :
  Forall (fun line => is_error_line line = false)
    (evidence (cur (snd (detectSSR_try v w s start)))).
Proof.
  apply (steps_invariant (in_try v)
           (fun st => Forall (fun line => is_error_line line = false) (evidence (cur st)))
           start).
  - intros k st b Hk Hf Hst. cbn. eauto using finding_no_error_line, in_try_not_caught.
  - apply walks_detectSSR_try.
  - constructor.
Qed.

(** ** Running a sequence *)

Lemma bind_Ok {A B} (m : M A) (k : A -> M B) st b st' :
  bind m k st = (Ok b, st') ->
  exists a st1, m st = (Ok a, st1) /\ k a st1 = (Ok b, st').
Proof.
  unfold bind. destruct (m st) as [[a|msg] st1]; [eauto | discriminate].
Qed.

Lemma finalRule_post st st' :
  finalRule st = (Ok tt, st') -> 30 < confidence (cur st') -> needsSSR (cur st') = true.
Proof.
  unfold finalRule, bind, gets, when.
  destruct (30 <? confidence (cur st)) eqn:E; intros [= <-]; [done|].
  intros H. apply Z.ltb_ge in E. cbn in H. lia.
Qed.

Lemma try_ends_with_finalRule v w s st st' :
  detectSSR_try v w s st = (Ok tt, st') ->
  30 < confidence (cur st') -> needsSSR (cur st') = true.
Proof.
  destruct v; cbn; intros H.
  - apply bind_Ok in H as ([p l] & st1 & _ & H).
    apply bind_Ok in H as (_ & st2 & _ & H).
    apply bind_Ok in H as (_ & st3 & _ & H).
    eauto using finalRule_post.
  - apply bind_Ok in H as ([p l] & st1 & _ & H).
    apply bind_Ok in H as (_ & st2 & _ & H).
    apply bind_Ok in H as (_ & st3 & _ & H).
    apply bind_Ok in H as (_ & st4 & _ & H).
    apply bind_Ok in H as (_ & st5 & _ & H).
    eauto using finalRule_post.
Qed.

(** In [src/detectssr.js] every block that raises the score also sets the
    verdict. *)
Lemma minimal_scored_means_needed w s :
  needsSSR (detectSSR minimal w s) = true \/ confidence (detectSSR minimal w s) = 0.
Proof.
  rewrite detectSSR_eq.
  apply (steps_invariant (in_run minimal)
           (fun st => needsSSR (cur st) = true \/ confidence (cur st) = 0) start).
  - intros k st b Hk Hf Hst. cbn [extend cur].
    destruct Hf; cbn; auto; destruct Hk as [Hk|Hk]; done.
  - apply steps_detectSSR_run.
  - by right.
Qed.

(** ** The threshold rule (C1) *)

Lemma completed_run v w s :
  completed v w s = true ->
  detectSSR_run v w s = detectSSR_try v w s start /\
  fst (detectSSR_try v w s start) = Ok tt.
Proof.
  unfold completed. rewrite detectSSR_run_eq. unfold try_catch.
  destruct (detectSSR_try v w s start) as [[[]|msg] st]; [done | discriminate].
Qed.

(** C1, as the code has it: the rule [confidence > 30 => needsSSR] is the
    last statement of the [try] block, so it holds of every report of a run
    whose [try] block reached its end; in [src/detectssr.js], where every
    block that adds to the score also sets the verdict, it holds of every
    report. *)
Theorem C1_threshold_forces_verdict v w s :
  v = minimal \/ completed v w s = true ->
  30 < confidence (detectSSR v w s) ->
  needsSSR (detectSSR v w s) = true.
Proof.
  intros [-> | Hc] Hconf.
  - destruct (minimal_scored_means_needed w s) as [H | H]; [done | lia].
  - destruct (completed_run v w s Hc) as [Hrun Hok].
    rewrite detectSSR_eq, Hrun in *.
    destruct (detectSSR_try v w s start) as [o st] eqn:E. cbn in *. subst o.
    eauto using try_ends_with_finalRule.
Qed.

(** Four directories of the table, forty points, no detector that forces
    the verdict: the final rule alone sets it. *)
Lemma C1_threshold_forces_verdict_witness :
  completed extended (local_world project_servers) "project" = true /\
  30 < confidence (detectSSR extended (local_world project_servers) "project") /\
  needsSSR (detectSSR extended (local_world project_servers) "project") = true.
Proof.
  split; [reflexivity |]. split; [reflexivity |].
  apply C1_threshold_forces_verdict; [right; reflexivity | reflexivity].
Defined.

(** The same project with a dangling link in it: [getAllFiles] throws in
    the last detector, the [catch] returns the report as it is, and the
    final rule is never reached. *)
Lemma C1_counterexample :
  let r := detectSSR extended (local_world project_dangling) "project" in
  confidence r = 40 /\ needsSSR r = false /\
  ~ (30 < confidence r -> needsSSR r = true).
Proof.
  cbv zeta. split; [reflexivity |]. split; [reflexivity |].
  intros H. by specialize (H eq_refl).
Qed.

(** ** The top-level catch (C6) *)

(** C6: [detectSSR] always returns a report.  When the [try] block throws,
    the report is the [results] object as the exception left it, with the
    one line ["Error analyzing repository: " + message] appended; no other
    line of a report starts like that one. *)
Theorem C6_never_throws v w s :
  fst (detectSSR_run v w s) = Ok tt /\
  match detectSSR_try v w s start with
  | (Ok _, st) =>
      detectSSR v w s = cur st /\
      Forall (fun line => is_error_line line = false) (evidence (cur st))
  | (Throw message, st) =>
      detectSSR v w s =
        {| needsSSR := needsSSR (cur st);
           evidence := evidence (cur st) ++ ["Error analyzing repository: " +:+ message];
           frameworkDetected := frameworkDetected (cur st);
           confidence := confidence (cur st) |} /\
      Forall (fun line => is_error_line line = false) (evidence (cur st))
  end.
Proof.
  pose proof (try_no_error_line v w s) as Hno.
  rewrite detectSSR_eq, detectSSR_run_eq. unfold try_catch.
  destruct (detectSSR_try v w s start) as [[[]|msg] st]; cbn in *; done.
Qed.

(** ** The verdict never goes back (C8) *)

(** C8: the verdict starts false, the report is the initial object after
    the writes of the run, every write to [needsSSR] writes [true], and so
    once it is true after some of the writes it is true after any more of
    them, the last included. *)
Theorem C8_needsSSR_monotone v w s :
  needsSSR (cur start) = false /\
  detectSSR v w s = replay (trace v w s) /\
  (forall b, In (AssignNeedsSSR b) (trace v w s) -> b = true) /\
  (forall t1 t2 t3, trace v w s = t1 ++ t2 ++ t3 ->
     needsSSR (replay t1) = true -> needsSSR (replay (t1 ++ t2)) = true).
Proof.
  pose proof (trace_benign v w s) as Hb.
  split; [done |]. split; [apply detectSSR_replay |]. split.
  - intros b Hin. rewrite Forall_forall in Hb. apply list_elem_of_In in Hin.
    exact (Hb _ Hin).
  - intros t1 t2 t3 Ht H1. rewrite Ht in Hb.
    apply Forall_app in Hb as [_ Hb]. apply Forall_app in Hb as [Hb _].
    rewrite replay_app. by apply benign_needsSSR.
Qed.

(** ** The bound of the remote walk (C4) *)

Section Walk_bound.
Import Extended.

Lemma pays_trans wk1 wk2 wk3 : pays wk1 wk2 -> pays wk2 wk3 -> pays wk1 wk3.
Proof. unfold pays. lia. Qed.

Lemma pays_visit descend path it wk :
  (forall p wk0, pays {| structure := structure wk0; requests := S (requests wk0) |}
                      (descend (item_contents it) p wk0)) ->
  pays wk (visit descend path it wk).
Proof.
  intros Hd. destruct it as [name type contents]. unfold visit.
  set (itemPath := match path with EmptyString => name | _ => _ end).
  set (wk1 := {| structure := structure wk ++ [itemPath]; requests := requests wk |}).
  assert (Hlen : length (structure wk1) = S (length (structure wk)))
    by (cbn; rewrite length_app; cbn; lia).
  assert (Hreq : requests wk1 = requests wk) by reflexivity.
  clearbody wk1.
  destruct (String.eqb type "dir" && (length (structure wk1) <? 100)%nat) eqn:E.
  - apply andb_true_iff in E as [_ E]. apply Nat.ltb_lt in E.
    specialize (Hd (path_or_default itemPath) wk1). cbn [item_contents] in Hd.
    unfold pays, capped in *. cbn [structure requests] in Hd. lia.
  - unfold pays, capped. lia.
Qed.

Lemma pays_call answer :
  forall path wk,
    pays {| structure := structure wk; requests := S (requests wk) |}
         (buildRepoStructure_at answer path wk).
Proof.
  induction answer as [message | items IH | it IH] using response_induction;
    intros path wk; cbn [buildRepoStructure_at].
  - unfold pays; lia.
  - generalize {| structure := structure wk; requests := S (requests wk) |}.
    induction IH as [| it rest Hit _ IHrest]; intros wk0.
    + unfold pays; lia.
    + eapply pays_trans; [apply (pays_visit buildRepoStructure_at path it wk0 Hit) |].
      apply IHrest.
  - by apply pays_visit.
Qed.
End Walk_bound.

(** C4, as the code has it: the cap of 100 guards the descent, not the
    collection.  A subdirectory is listed only while fewer than 100 paths are
    collected, so one walk makes at most 100 listing requests, however large
    the repository. *)
Theorem C4_walk_makes_at_most_100_requests answer :
  let wk := Extended.buildRepoStructure_at answer ""
              {| Extended.structure := []; Extended.requests := 0 |} in
  (Extended.requests wk <= 100)%nat /\
  (Extended.requests wk <= 1 + length (Extended.structure wk))%nat.
Proof.
  cbv zeta.
  destruct (pays_call answer "" {| Extended.structure := []; Extended.requests := 0 |})
    as [H _].
  unfold capped in H. cbn [Extended.structure Extended.requests length] in H. lia.
Qed.

(** A root directory of 101 files: both implementations return 101 paths. *)
Lemma C4_counterexample :
  length (Extended.buildRepoStructure (remote_world (many_files 101)) "o" "r") = 101%nat /\
  length (Minimal.buildRepoStructure (remote_world (many_files 101)) "o" "r") = 101%nat /\
  ~ (length (Extended.buildRepoStructure (remote_world (many_files 101)) "o" "r") <= 100)%nat.
Proof.
  assert (H : length (Extended.buildRepoStructure (remote_world (many_files 101)) "o" "r")
              = 101%nat) by (vm_compute; reflexivity).
  split; [exact H |]. split; [vm_compute; reflexivity |]. rewrite H. lia.
Qed.

(** ** First or last framework (C2) *)

(** C2 fails on the code: with [next] and [nuxt] both in the manifest, the
    framework of the report is that of the later table entry.  The manifest
    loop assigns [frameworkDetected] unconditionally, unlike the
    configuration-file loops. *)
Theorem C2_later_framework_overwrites v :
  let r := detectSSR v (local_world project_two) "project" in
  evidence r = ["Found SSR framework: Next.js (next)";
                "Found SSR framework: Nuxt.js (nuxt)"] /\
  frameworkDetected r = Some "Nuxt.js".
Proof. destruct v; vm_compute; done. Qed.

(** ** Owner and repository name (C7) *)

(** C7 fails on the code: [replace('.git', '')] removes the first [".git"]
    of the second segment wherever it stands, so the suffix of
    [widgets.git] goes, and so does the middle of [acme.github.io]. *)
Theorem C7_first_dot_git_removed :
  owner_repo <$> githubRegex_match "https://github.com/acme/widgets.git"
    = Some ("acme", "widgets") /\
  owner_repo <$> githubRegex_match "https://github.com/acme/acme.github.io"
    = Some ("acme", "acmehub.io") /\
  forall v, evidence (detectSSR v (remote_world []) "https://github.com/acme/acme.github.io")
    = ["Analyzing GitHub repository: acme/acmehub.io"].
Proof. split; [done |]. split; [done |]. by intros []. Qed.

(** ** The [try] block, part by part *)

Lemma detectSSR_try_eq v w s :
  detectSSR_try v w s = bind (load v w s) (after_load v w s).
Proof. by destruct v. Qed.

Lemma walks_analyzePackage v p : walks (in_try v) (analyzePackage v p).
Proof.
  destruct v; cbn.
  - by apply walks_minimal_analyzePackage.
  - by apply walks_extended_analyzePackage.
Qed.

Lemma walks_after_load v w s loaded : walks (in_try v) (after_load v w s loaded).
Proof.
  destruct loaded as [p l]. unfold after_load.
  apply walks_bind; [apply walks_analyzePackage | intros _].
  eapply walks_weaken; [| apply walks_rest_of_try]. by intros k [H _].
Qed.

(** From the state [load] leaves to the state at [return]. *)
Lemma run_after_load v w s :
  match load v w s start with
  | (Ok loaded, st1) =>
      detectSSR_run v w s = try_catch (after_load v w s loaded) catchError st1
  | (Throw message, st1) =>
      detectSSR_run v w s = catchError message st1
  end.
Proof.
  rewrite detectSSR_run_eq, detectSSR_try_eq. unfold try_catch, bind.
  by destruct (load v w s start) as [[loaded|msg] st1].
Qed.

Lemma steps_after_load v w s :
  steps (in_run v) (snd (load v w s start)) (snd (detectSSR_run v w s)).
Proof.
  pose proof (run_after_load v w s) as H.
  destruct (load v w s start) as [[loaded|msg] st1]; rewrite H; cbn [snd].
  - apply walks_try_catch.
    + eapply walks_weaken; [| apply walks_after_load]. intros k; by right.
    + intros msg. apply walks_catchError. by left.
  - apply walks_catchError. by left.
Qed.

(** [load] writes the line that announces a GitHub repository and nothing
    else. *)
Lemma load_state v w s st :
  snd (load v w s st) = extend st (map PushEvidence (announced s)).
Proof.
  unfold announced.
  destruct v; cbn [load]; unfold Minimal.load, Extended.load, githubRegex_test,
    match_owner_repo, Minimal.getFileFromGithub, Extended.getFileFromGithub;
    (destruct (githubRegex_match s) as [m|] eqn:E;
     [ destruct (owner_repo m) as [owner repo] eqn:Em; unfold bind, ret, mutate, lift;
       destruct (file_content (github w owner repo) "package.json") as [[|c t]|];
         try done;
       by destruct (JSON_parse w (String c t))
     | rewrite extend_nil;
       destruct (existsSync _); [| done];
       unfold bind, lift;
       destruct (readFileSync _) as [text|]; [| done];
       by destruct (JSON_parse w text) ]).
Qed.

(** What [load] hands on when there is a manifest to parse. *)
Lemma load_manifest v w s text st :
  manifest_text w s = Some text ->
  exists repoStructure,
    fst (load v w s st) =
      match JSON_parse w text with
      | Ok packageJson => Ok (packageJson, repoStructure)
      | Throw message => Throw message
      end.
Proof.
  unfold manifest_text.
  destruct v; cbn [load]; unfold Minimal.load, Extended.load, githubRegex_test,
    match_owner_repo, Minimal.getFileFromGithub, Extended.getFileFromGithub;
    (destruct (githubRegex_match s) as [m|] eqn:E;
     [ destruct (owner_repo m) as [owner repo] eqn:Em; unfold bind, ret, mutate, lift;
       destruct (file_content (github w owner repo) "package.json") as [[|c t]|];
         try done;
       intros [= <-]; eexists;
       destruct (JSON_parse w (String c t)); reflexivity
     | cbv zeta;
       destruct (disk w (path_join s "package.json")) as [[text'|]| |]; cbn; try done;
       intros [= <-]; eexists; unfold bind, lift;
       destruct (JSON_parse w _); reflexivity ]).
Qed.

(** ** A manifest that cannot be parsed (C5) *)

Lemma replay_pushes lines r :
  fold_left write (map PushEvidence lines) r =
  {| needsSSR := needsSSR r; evidence := evidence r ++ lines;
     frameworkDetected := frameworkDetected r; confidence := confidence r |}.
Proof.
  revert r; induction lines as [|line lines IH]; intros r; cbn.
  - rewrite app_nil_r. by destruct r.
  - rewrite IH. cbn. by rewrite <- (assoc_L (++)).
Qed.

(** C5, as the code has it: [JSON.parse] is not guarded, so a manifest that
    does not parse ends the [try] block.  The error is caught at the top and
    reported as the one line of evidence (after the line that announces a
    GitHub repository); no detector has run, so the verdict is false, the
    framework null and the score 0. *)
Theorem C5_malformed_manifest_is_caught v w s text message :
  manifest_text w s = Some text ->
  JSON_parse w text = Throw message ->
  detectSSR v w s =
    {| needsSSR := false;
       evidence := announced s ++ ["Error analyzing repository: " +:+ message];
       frameworkDetected := None;
       confidence := 0 |}.
Proof.
  intros Htext Hparse.
  destruct (load_manifest v w s text start Htext) as [l Hl].
  pose proof (load_state v w s start) as Hst.
  pose proof (run_after_load v w s) as Hrun.
  rewrite Hparse in Hl.
  destruct (load v w s start) as [o st1]. cbn in Hl, Hst. subst o st1.
  rewrite detectSSR_eq, Hrun. unfold catchError, mutate. cbn [snd extend cur fold_left].
  by rewrite replay_pushes.
Qed.

Lemma C5_malformed_manifest_is_caught_witness :
  manifest_text (local_world project_malformed) "project" = Some manifest_malformed_text /\
  JSON_parse (local_world project_malformed) manifest_malformed_text
    = Throw "Unexpected end of JSON input" /\
  detectSSR extended (local_world project_malformed) "project" =
    {| needsSSR := false;
       evidence := ["Error analyzing repository: Unexpected end of JSON input"];
       frameworkDetected := None;
       confidence := 0 |}.
Proof.
  split; [reflexivity |]. split; [reflexivity |].
  apply (C5_malformed_manifest_is_caught extended (local_world project_malformed)
           "project" manifest_malformed_text "Unexpected end of JSON input");
    reflexivity.
Defined.

(** A configuration file next to a manifest that does not parse is not
    found; next to no manifest it is. *)
Lemma C5_counterexample :
  let malformed := detectSSR extended (local_world project_malformed) "project" in
  let absent := detectSSR extended (local_world project_no_manifest) "project" in
  evidence absent = ["Found configuration file for Next.js: next.config.js"] /\
  needsSSR absent = true /\
  evidence malformed = ["Error analyzing repository: Unexpected end of JSON input"] /\
  needsSSR malformed = false /\
  malformed <> absent /\
  detectSSR minimal (local_world project_malformed) "project"
    <> detectSSR minimal (local_world project_no_manifest) "project".
Proof. cbv zeta; repeat split; try reflexivity; vm_compute; discriminate. Qed.

(** ** A local path that does not exist (C10) *)

Lemma nothing_found_report v w s error :
  githubRegex_test s = false ->
  disk w s = Missing error ->
  nothing_joined v w s = true ->
  fst (detectSSR_run v w s) = Ok tt /\
  needsSSR (detectSSR v w s) = false /\
  frameworkDetected (detectSSR v w s) = None /\
  confidence (detectSSR v w s) = 0 /\
  evidence (detectSSR v w s) =
    match v with
    | minimal => []
    | extended => ["Error analyzing repository: " +:+ fs_error error "scandir" s]
    end.
Proof.
  intros Htest Hdisk Hjoin.
  assert (Hno : forall name, In name (lookups v) ->
                  existsSync (disk w (path_join s name)) = false).
  { intros name Hin. unfold nothing_joined in Hjoin.
    rewrite forallb_forall in Hjoin. apply negb_true_iff. by apply Hjoin. }
  clear Hjoin.
  destruct v; cbn [detectSSR detectSSR_run];
    unfold Minimal.detectSSR, Minimal.detectSSR_run, Minimal.detectSSR_try,
      Minimal.load, Minimal.checkConfigFiles,
      Extended.detectSSR, Extended.detectSSR_run, Extended.detectSSR_try,
      Extended.load, Extended.checkConfigFiles, Extended.checkDirectories,
      Extended.checkCodePatterns, Extended.searchForPattern;
    rewrite Htest; cbv zeta;
    cbn [for_of configFiles Extended.ssrDirectories];
    rewrite ?Hno by (cbn; tauto);
    rewrite ?Hdisk; repeat split; reflexivity.
Qed.

(** C10: a local path that resolves to nothing, and for which none of the
    joined paths the code looks up resolves either, gives a report with
    verdict false, framework null and score 0, and no exception reaches the
    caller.  ([src/detectssr.js] finds nothing at all; the other file fails
    to list the directory in its last detector and reports that as
    evidence.) *)
Theorem C10_missing_local_path v w s error :
  githubRegex_test s = false ->
  disk w s = Missing error ->
  nothing_joined v w s = true ->
  fst (detectSSR_run v w s) = Ok tt /\
  needsSSR (detectSSR v w s) = false /\
  frameworkDetected (detectSSR v w s) = None /\
  confidence (detectSSR v w s) = 0 /\
  evidence (detectSSR v w s) =
    match v with
    | minimal => []
    | extended => ["Error analyzing repository: " +:+ fs_error error "scandir" s]
    end.
Proof. apply nothing_found_report. Qed.

Lemma C10_missing_local_path_witness :
  githubRegex_test "missing" = false /\
  disk (local_world project_next) "missing" = Missing ENOENT /\
  nothing_joined extended (local_world project_next) "missing" = true /\
  needsSSR (detectSSR extended (local_world project_next) "missing") = false /\
  frameworkDetected (detectSSR extended (local_world project_next) "missing") = None /\
  confidence (detectSSR extended (local_world project_next) "missing") = 0 /\
  evidence (detectSSR extended (local_world project_next) "missing") =
    ["Error analyzing repository: ENOENT: no such file or directory, scandir 'missing'"].
Proof.
  split; [reflexivity |]. split; [reflexivity |]. split; [reflexivity |].
  destruct (C10_missing_local_path extended (local_world project_next) "missing" ENOENT)
    as (_ & H1 & H2 & H3 & H4); [reflexivity | reflexivity | reflexivity |].
  exact (conj H1 (conj H2 (conj H3 H4))).
Defined.

(** A path that does not exist, and yet a finding: [path.join] puts
    ["missing/.."] and a name together to a path of the current directory,
    where the configuration file is.  The same happens with the empty
    path. *)
Lemma C10_counterexample :
  let w := cwd_world in
  githubRegex_test "missing/.." = false /\
  existsSync (disk w "missing/..") = false /\
  detectSSR minimal w "missing/.." =
    {| needsSSR := true;
       evidence := ["Found configuration file for Next.js: next.config.js"];
       frameworkDetected := Some "Next.js";
       confidence := 20 |} /\
  detectSSR extended w "missing/.." =
    {| needsSSR := true;
       evidence := ["Found configuration file for Next.js: next.config.js";
                    "Error analyzing repository: ENOENT: no such file or directory, scandir 'missing/..'"];
       frameworkDetected := Some "Next.js";
       confidence := 20 |} /\
  githubRegex_test "" = false /\
  existsSync (disk w "") = false /\
  needsSSR (detectSSR minimal w "") = true /\
  needsSSR (detectSSR extended w "") = true.
Proof. cbv zeta. repeat split; reflexivity. Qed.

(** ** The pattern is searched anywhere in the input (C9) *)

Lemma append_cons c a s : String c a +:+ s = String c (a +:+ s).
Proof. reflexivity. Qed.

Lemma span_segment_slash_free a y :
  slash_free a = true ->
  Str.span_segment (a +:+ String "/" y) = (a, String "/" y).
Proof.
  induction a as [|c a IH]; [done|].
  rewrite append_cons. cbn -[Ascii.eqb].
  intros [Hc Ha]%andb_true_iff. apply negb_true_iff in Hc. rewrite Hc.
  by rewrite (IH Ha).
Qed.

Lemma span_segment_head c b y :
  Ascii.eqb c "/" = false ->
  exists b' y', Str.span_segment (String c b +:+ y) = (String c b', y').
Proof.
  intros Hc. rewrite append_cons. cbn -[Ascii.eqb]. rewrite Hc.
  destruct (Str.span_segment (b +:+ y)) as [b' y']. eauto.
Qed.

Lemma githubRegex_at_matches a b rest :
  a <> "" -> b <> "" -> slash_free a = true -> slash_free b = true ->
  exists repo, githubRegex_at ("github.com/" +:+ a +:+ "/" +:+ b +:+ rest) = Some (a, repo).
Proof.
  intros Ha Hb Hsa Hsb. unfold githubRegex_at.
  change (Str.strip_prefix "github.com/" ("github.com/" +:+ a +:+ "/" +:+ b +:+ rest))
    with (Some (a +:+ "/" +:+ b +:+ rest)).
  change ("/" +:+ b +:+ rest) with (String "/" (b +:+ rest)).
  cbv beta iota. rewrite (span_segment_slash_free a _ Hsa).
  destruct a as [|ca a]; [done|].
  destruct b as [|cb b]; [done|].
  cbn -[Ascii.eqb] in Hsb. apply andb_true_iff in Hsb as [Hcb _].
  apply negb_true_iff in Hcb.
  destruct (span_segment_head cb b rest Hcb) as (b' & y' & ->). eauto.
Qed.

Lemma githubRegex_match_prefix p s :
  is_Some (githubRegex_match s) -> is_Some (githubRegex_match (p +:+ s)).
Proof.
  intros Hs. induction p as [|c p IH]; [done|].
  rewrite append_cons. cbn [githubRegex_match].
  destruct (githubRegex_at (String c (p +:+ s))); [by eexists | done].
Qed.

Lemma githubRegex_test_contains p a b rest :
  a <> "" -> b <> "" -> slash_free a = true -> slash_free b = true ->
  githubRegex_test (p +:+ "github.com/" +:+ a +:+ "/" +:+ b +:+ rest) = true.
Proof.
  intros Ha Hb Hsa Hsb. unfold githubRegex_test.
  destruct (githubRegex_match_prefix p ("github.com/" +:+ a +:+ "/" +:+ b +:+ rest))
    as [m ->]; [|done].
  destruct (githubRegex_at_matches a b rest Ha Hb Hsa Hsb) as [repo H].
  destruct ("github.com/" +:+ a +:+ "/" +:+ b +:+ rest) eqn:E; cbn [githubRegex_match];
    rewrite H; by eexists.
Qed.

Lemma remote_run_ignores_disk v w d s :
  githubRegex_test s = true ->
  detectSSR_run v (with_disk w d) s = detectSSR_run v w s.
Proof.
  intros Htest.
  destruct v; cbn [detectSSR detectSSR_run];
    unfold Minimal.detectSSR, Minimal.detectSSR_run, Minimal.detectSSR_try,
      Minimal.load, Minimal.checkConfigFiles,
      Extended.detectSSR, Extended.detectSSR_run, Extended.detectSSR_try,
      Extended.load, Extended.checkConfigFiles, Extended.checkDirectories,
      Extended.checkCodePatterns;
    rewrite Htest; reflexivity.
Qed.

Lemma evidence_extends t r : exists more, evidence (fold_left write t r) = evidence r ++ more.
Proof.
  revert r; induction t as [|mu t IH]; intros r; cbn.
  - exists []. by rewrite app_nil_r.
  - destruct (IH (write r mu)) as [more ->].
    destruct mu; cbn; eauto. eexists. by rewrite <- (assoc_L (++)).
Qed.

(** The evidence of a report starts with what [load] has written. *)
Lemma evidence_starts_announced v w s :
  exists more, evidence (detectSSR v w s) = announced s ++ more.
Proof.
  pose proof (steps_after_load v w s) as H. rewrite load_state in H.
  apply steps_extends in H as [t Ht].
  rewrite detectSSR_eq, Ht. cbn [cur extend]. rewrite replay_pushes.
  match goal with
  | |- context [fold_left write t ?r] => destruct (evidence_extends t r) as [more ->]
  end.
  by exists more.
Qed.

(** C9: an input that contains [github.com/<segment>/<segment>] anywhere is
    taken for a GitHub repository: the pattern matches, the report does not
    depend on the local disk, and its evidence starts with the line that
    names the repository. *)
Theorem C9_github_substring_is_remote p a b rest :
  a <> "" -> b <> "" -> slash_free a = true -> slash_free b = true ->
  let s := p +:+ "github.com/" +:+ a +:+ "/" +:+ b +:+ rest in
  githubRegex_test s = true /\
  forall v w,
    (forall d, detectSSR v (with_disk w d) s = detectSSR v w s) /\
    exists owner repo more,
      evidence (detectSSR v w s) =
        ("Analyzing GitHub repository: " +:+ owner +:+ "/" +:+ repo) :: more.
Proof.
  intros Ha Hb Hsa Hsb s.
  assert (Htest : githubRegex_test s = true) by by apply githubRegex_test_contains.
  split; [done |]. intros v w. split.
  - intros d. by rewrite !detectSSR_eq, remote_run_ignores_disk.
  - destruct (evidence_starts_announced v w s) as [more Hmore].
    unfold announced, githubRegex_test in *.
    destruct (githubRegex_match s) as [m|]; [|done].
    destruct (owner_repo m) as [owner repo]. eauto.
Qed.

(** A local path below a directory named [github.com]. *)
Lemma C9_github_substring_is_remote_witness :
  ("a" <> "" /\ "b" <> "" /\ slash_free "a" = true /\ slash_free "b" = true) /\
  githubRegex_test "/tmp/github.com/a/b" = true /\
  evidence (detectSSR minimal (local_world project_next) "/tmp/github.com/a/b")
    = ["Analyzing GitHub repository: a/b"].
Proof.
  split; [by repeat split |].
  split; [| reflexivity].
  apply (C9_github_substring_is_remote "/tmp/" "a" "b" "");
    [discriminate | discriminate | reflexivity | reflexivity].
Defined.

(** ** A framework package in the manifest (C3) *)

Lemma has_dependency_truthy pkg dep :
  has_dependency (allDependencies pkg) dep = true -> truthy pkg = true.
Proof.
  destruct pkg; try done; unfold has_dependency, allDependencies;
    cbn [member spread_or_empty]; by rewrite lookup_union, !lookup_empty.
Qed.

Lemma run_framework_loop deps table st :
  for_of table (fun '(dep, framework) =>
    when (has_dependency deps dep)
      (mutate (PushEvidence ("Found SSR framework: " +:+ framework +:+ " (" +:+ dep +:+ ")")) ;;
       mutate (AssignFramework framework) ;;
       mutate (AddConfidence 30) ;;
       mutate (AssignNeedsSSR true))) st
  = (Ok tt, extend st (framework_writes deps table)).
Proof.
  revert st; induction table as [|[dep fw] table IH]; intros st.
  - cbn. by rewrite extend_nil.
  - cbn [for_of framework_writes flat_map]. unfold bind at 1.
    destruct (has_dependency deps dep); cbn [when].
    + unfold bind, mutate. rewrite IH, !extend_extend. reflexivity.
    + unfold ret. by rewrite IH.
Qed.

Lemma run_checkFrameworks deps st :
  checkFrameworks deps st = (Ok tt, extend st (framework_writes deps ssrFrameworks)).
Proof. apply run_framework_loop. Qed.

Lemma present_in_cons deps dep fw table :
  present_in deps ((dep, fw) :: table) =
  if has_dependency deps dep then fw :: present_in deps table else present_in deps table.
Proof. unfold present_in; cbn. by destruct (has_dependency deps dep). Qed.

Lemma framework_writes_cons deps dep fw table :
  framework_writes deps ((dep, fw) :: table) =
  (if has_dependency deps dep then framework_block dep fw else [])
  ++ framework_writes deps table.
Proof. reflexivity. Qed.

Lemma framework_writes_state deps table r :
  let r' := fold_left write (framework_writes deps table) r in
  (present_in deps table <> [] -> needsSSR r' = true) /\
  confidence r' = confidence r + 30 * Z.of_nat (length (present_in deps table)) /\
  frameworkDetected r' =
    match last (present_in deps table) with
    | Some f => Some f
    | None => frameworkDetected r
    end /\
  (forall line, In line (evidence r) -> In line (evidence r')) /\
  (needsSSR r = true -> needsSSR r' = true).
Proof.
  revert r; induction table as [|[dep fw] table IH]; intros r.
  - cbn. repeat split; try done. lia.
  - rewrite framework_writes_cons, present_in_cons.
    destruct (has_dependency deps dep) eqn:E.
    + rewrite fold_left_app. cbn [framework_block fold_left].
      set (r1 := write _ (AssignNeedsSSR true)).
      destruct (IH r1) as (H1 & H2 & H3 & H4 & H5). cbv zeta.
      cbn [length]. rewrite last_cons.
      split; [intros _; by apply H5 |].
      split; [rewrite H2; cbn; lia |].
      split; [rewrite H3; by destruct (last (present_in deps table)) |].
      split; [| intros _; by apply H5].
      intros line Hl. apply H4. cbn. apply in_or_app. by left.
    + cbn [app]. apply IH.
Qed.

Lemma framework_block_in_writes deps table dep fw :
  In (dep, fw) table -> has_dependency deps dep = true ->
  exists t1 t2, framework_writes deps table = t1 ++ framework_block dep fw ++ t2.
Proof.
  intros Hin Hhas. apply in_split in Hin as (l1 & l2 & ->).
  unfold framework_writes. rewrite flat_map_app. cbn [flat_map]. rewrite Hhas.
  eauto.
Qed.

Lemma present_in_elem deps table dep fw :
  In (dep, fw) table -> has_dependency deps dep = true -> In fw (present_in deps table).
Proof.
  intros Hin Hhas. unfold present_in. apply in_map_iff. exists (dep, fw).
  split; [done |]. apply filter_In. by split.
Qed.

Lemma present_in_table deps table f :
  In f (present_in deps table) ->
  exists dep, In (dep, f) table /\ has_dependency deps dep = true.
Proof.
  unfold present_in. intros ([dep f'] & <- & [H1 H2]%filter_In)%in_map_iff. eauto.
Qed.

Lemma ssrFrameworks_named dep f : In (dep, f) ssrFrameworks -> f <> "".
Proof. cbn. intros H. repeat (destruct H as [[= <- <-] | H]; [done |]). done. Qed.

(** Once a framework is named, no block but the manifest's changes it. *)
Lemma framework_kept st st' f :
  f <> "" ->
  steps after_frameworks st st' ->
  frameworkDetected (cur st) = Some f -> frameworkDetected (cur st') = Some f.
Proof.
  intros Hf. apply (steps_invariant after_frameworks
                      (fun s => frameworkDetected (cur s) = Some f)).
  intros k s b Hk Hb Hs. cbn [extend cur].
  destruct Hb; cbn; try done.
  rewrite Hs. by destruct f.
Qed.

Lemma analyzePackage_truthy v pkg st :
  truthy pkg = true ->
  analyzePackage v pkg st =
  bind (checkFrameworks (allDependencies pkg))
       (fun _ => rest_of_package v (allDependencies pkg)) st.
Proof.
  intros Ht. destruct v; cbn [analyzePackage rest_of_package];
    unfold Minimal.analyzePackage, Extended.analyzePackage; rewrite Ht; cbn [when].
  - unfold bind. by rewrite run_checkFrameworks.
  - reflexivity.
Qed.

Lemma walks_rest_of_package v deps : walks after_frameworks (rest_of_package v deps).
Proof.
  destruct v; cbn [rest_of_package]; [apply walks_ret |].
  by apply walks_extended_libraries.
Qed.

(** From the state [checkFrameworks] leaves to the state at [return]. *)
Lemma steps_after_frameworks v w s text pkg :
  manifest_text w s = Some text ->
  JSON_parse w text = Ok pkg ->
  truthy pkg = true ->
  steps after_frameworks
    (extend (extend start (map PushEvidence (announced s)))
       (framework_writes (allDependencies pkg) ssrFrameworks))
    (snd (detectSSR_run v w s)).
Proof.
  intros Htext Hparse Ht.
  destruct (load_manifest v w s text start Htext) as [l Hl].
  pose proof (load_state v w s start) as Hst.
  pose proof (run_after_load v w s) as Hrun.
  rewrite Hparse in Hl.
  destruct (load v w s start) as [o st1]. cbn in Hl, Hst. subst o st1.
  rewrite Hrun. unfold after_load, try_catch, bind at 1.
  rewrite (analyzePackage_truthy v pkg _ Ht). unfold bind at 1.
  rewrite run_checkFrameworks.
  set (st2 := extend (extend start _) _).
  assert (Hw : walks after_frameworks
                 (try_catch (rest_of_package v (allDependencies pkg) ;;
                             rest_of_try v w s l) catchError)).
  { apply walks_try_catch; [| intros msg; by apply walks_catchError].
    apply walks_bind; [apply walks_rest_of_package | intros _].
    eapply walks_weaken; [| apply walks_rest_of_try]. by intros k [_ H]. }
  specialize (Hw st2). unfold try_catch, bind in Hw.
  destruct (rest_of_package v (allDependencies pkg) st2) as [[[]|msg] st3]; exact Hw.
Qed.

(** C3, as the code has it: the test is [if (allDependencies[dep])], so what
    counts is a truthy value under the key (for a version string: a
    non-empty one).  Then the run makes the four writes of the block, one
    after the other: the evidence line, a framework name, 30 more points,
    the verdict.  The report has the line, at least 30 points, the verdict
    true and the framework of a table entry that is present in this sense:
    the one of [dep] when no entry with another framework is present. *)
Theorem C3_truthy_framework_dependency v w s text pkg dep framework :
  manifest_text w s = Some text ->
  JSON_parse w text = Ok pkg ->
  In (dep, framework) ssrFrameworks ->
  has_dependency (allDependencies pkg) dep = true ->
  let r := detectSSR v w s in
  let line := "Found SSR framework: " +:+ framework +:+ " (" +:+ dep +:+ ")" in
  (exists t1 t2 f,
     trace v w s =
       t1 ++ [PushEvidence line; AssignFramework f;
              AddConfidence 30; AssignNeedsSSR true] ++ t2) /\
  In line (evidence r) /\
  30 <= confidence r /\
  needsSSR r = true /\
  (exists dep' f,
     In (dep', f) ssrFrameworks /\
     has_dependency (allDependencies pkg) dep' = true /\
     frameworkDetected r = Some f) /\
  ((forall dep' f,
      In (dep', f) ssrFrameworks ->
      has_dependency (allDependencies pkg) dep' = true -> f = framework) ->
   frameworkDetected r = Some framework).
Proof.
  intros Htext Hparse Hin Hhas r line.
  set (deps := allDependencies pkg) in *.
  pose proof (steps_after_frameworks v w s text pkg Htext Hparse
                (has_dependency_truthy pkg dep Hhas)) as Hsteps.
  fold deps in Hsteps.
  set (st1 := extend start (map PushEvidence (announced s))) in *.
  set (st2 := extend st1 (framework_writes deps ssrFrameworks)) in *.
  destruct (steps_extends _ _ _ Hsteps) as [t Ht].
  destruct (framework_block_in_writes deps ssrFrameworks dep framework Hin Hhas)
    as (t1 & t2 & Hblock).
  pose proof (present_in_elem deps ssrFrameworks dep framework Hin Hhas) as Hpresent.
  destruct (framework_writes_state deps ssrFrameworks (cur st1))
    as (Hneeds & Hconf & Hfw & _ & _).
  fold (frameworks_present deps) in *.
  assert (Hne : frameworks_present deps <> []) by (intros E; by rewrite E in Hpresent).
  assert (Htrace : trace v w s = (log st1 ++ framework_writes deps ssrFrameworks) ++ t)
    by (unfold trace; by rewrite Ht).
  assert (Hr : r = fold_left write t (cur st2))
    by (unfold r; by rewrite detectSSR_eq, Ht).
  assert (Hbt : Forall benign t).
  { pose proof (trace_benign v w s) as Hb. rewrite Htrace in Hb.
    by apply Forall_app in Hb as [_ Hb]. }
  assert (Hconf1 : confidence (cur st1) = 0)
    by (unfold st1; cbn [extend cur];
        by rewrite (replay_pushes (announced s) (cur start))).
  assert (Hdetected : exists dep' f,
             In (dep', f) ssrFrameworks /\ has_dependency deps dep' = true /\
             frameworkDetected r = Some f).
  { destruct (last (frameworks_present deps)) as [f|] eqn:El;
      [| by apply last_None in El].
    apply last_Some_elem_of, list_elem_of_In, present_in_table in El as El'.
    destruct El' as (dep' & Hdep' & Hhas').
    exists dep', f. split; [done |]. split; [done |].
    unfold r. rewrite detectSSR_eq.
    apply (framework_kept st2); [by eapply ssrFrameworks_named | done |].
    exact Hfw. }
  split; [| split; [| split; [| split; [| split]]]].
  - exists (log st1 ++ t1), (t2 ++ t), framework. rewrite Htrace, Hblock.
    by rewrite <- !(assoc_L (++)).
  - rewrite Hr. apply evidence_grows. cbn [st2 extend cur]. rewrite Hblock.
    rewrite !fold_left_app. apply evidence_grows. cbn. apply in_or_app. right. by left.
  - rewrite Hr. etrans; [| by apply benign_confidence].
    cbn [st2 extend cur]. rewrite Hconf, Hconf1.
    destruct (frameworks_present deps); [done | cbn [length]; lia].
  - rewrite Hr. apply benign_needsSSR; [done |]. by apply Hneeds.
  - exact Hdetected.
  - intros Honly. destruct Hdetected as (dep' & f & Hin' & Hhas' & ->).
    f_equal. eauto.
Qed.

(** The scenario of the specification: [next] alone, at 13.0.0. *)
Lemma C3_truthy_framework_dependency_witness :
  (manifest_text (local_world project_next) "project" = Some manifest_next_text /\
   JSON_parse (local_world project_next) manifest_next_text = Ok manifest_next /\
   In ("next", "Next.js") ssrFrameworks /\
   has_dependency (allDependencies manifest_next) "next" = true) /\
  In "Found SSR framework: Next.js (next)"
     (evidence (detectSSR extended (local_world project_next) "project")) /\
  30 <= confidence (detectSSR extended (local_world project_next) "project") /\
  needsSSR (detectSSR extended (local_world project_next) "project") = true /\
  frameworkDetected (detectSSR extended (local_world project_next) "project")
    = Some "Next.js".
Proof.
  split; [repeat split; try reflexivity; by left |].
  destruct (C3_truthy_framework_dependency extended (local_world project_next)
              "project" manifest_next_text manifest_next "next" "Next.js")
    as (_ & H1 & H2 & H3 & _ & H4);
    [reflexivity | reflexivity | by left | reflexivity |].
  split; [exact H1 |]. split; [exact H2 |]. split; [exact H3 |].
  apply H4. intros dep' f Hin.
  repeat (destruct Hin as [[= <- <-] | Hin];
          [intros Hhas; first [reflexivity | discriminate Hhas] |]).
  destruct Hin.
Defined.

(** [next] is a key of the merged map, with the empty string as its version
    range: no line, no points, no framework, verdict false. *)
Lemma C3_counterexample :
  manifest_text (local_world project_blank) "project" = Some manifest_blank_text /\
  JSON_parse (local_world project_blank) manifest_blank_text = Ok manifest_blank /\
  allDependencies manifest_blank !! "next" = Some (VStr "") /\
  In ("next", "Next.js") ssrFrameworks /\
  detectSSR minimal (local_world project_blank) "project" = initial /\
  detectSSR extended (local_world project_blank) "project" = initial /\
  ~ In "Found SSR framework: Next.js (next)"
       (evidence (detectSSR extended (local_world project_blank) "project")) /\
  needsSSR (detectSSR extended (local_world project_blank) "project") = false.
Proof.
  split; [reflexivity |]. split; [reflexivity |]. split; [reflexivity |].
  split; [by left |]. split; [reflexivity |]. split; [reflexivity |].
  split; [vm_compute; tauto | reflexivity].
Qed.

(** * More properties of the code *)

(** ** The URL pattern *)

Lemma strip_prefix_Some p s r : Str.strip_prefix p s = Some r -> s = p +:+ r.
Proof.
  revert s; induction p as [|a p IH]; intros s.
  - destruct s; intros [= <-]; reflexivity.
  - destruct s as [|b s]; cbn -[Ascii.eqb]; [done |].
    destruct (Ascii.eqb a b) eqn:E; [| done].
    apply Ascii.eqb_eq in E as ->. intros H. by rewrite (IH _ H).
Qed.

Lemma span_segment_spec s a b :
  Str.span_segment s = (a, b) ->
  s = a +:+ b /\ slash_free a = true /\ (b = "" \/ exists b', b = String "/" b').
Proof.
  revert a b; induction s as [|c s IH]; intros a b; cbn -[Ascii.eqb].
  - intros [= <- <-]. auto.
  - destruct (Ascii.eqb c "/") eqn:E.
    + apply Ascii.eqb_eq in E as ->. intros [= <- <-]. eauto.
    + destruct (Str.span_segment s) as [a' b'] eqn:Es. intros [= <- <-].
      destruct (IH a' b' eq_refl) as (-> & Ha & Hb).
      cbn -[Ascii.eqb]. rewrite E, Ha. auto.
Qed.

Lemma githubRegex_at_sound s owner repo :
  githubRegex_at s = Some (owner, repo) ->
  exists rest,
    s = "github.com/" +:+ owner +:+ "/" +:+ repo +:+ rest /\
    owner <> "" /\ repo <> "" /\ slash_free owner = true /\ slash_free repo = true /\
    (rest = "" \/ exists rest', rest = String "/" rest').
Proof.
  unfold githubRegex_at.
  destruct (Str.strip_prefix "github.com/" s) as [r1|] eqn:E1; [| done].
  apply strip_prefix_Some in E1 as ->.
  destruct (Str.span_segment r1) as [o r2] eqn:E2.
  apply span_segment_spec in E2 as (-> & Ho & Hr2).
  destruct o as [|co o]; [done |]. destruct r2 as [|c2 r3]; [done |].
  destruct Hr2 as [[=] | [r3' [= -> ->]]].
  destruct (Str.span_segment r3') as [rp rest] eqn:E3.
  apply span_segment_spec in E3 as (-> & Hrp & Hrest).
  destruct rp as [|cr rp]; [done |]. intros [= <- <-].
  exists rest. repeat split; try done.
Qed.

Lemma captured_groups_are_segments s owner repo :
  githubRegex_match s = Some (owner, repo) ->
  exists p rest,
    s = p +:+ "github.com/" +:+ owner +:+ "/" +:+ repo +:+ rest /\
    owner <> "" /\ repo <> "" /\ slash_free owner = true /\ slash_free repo = true /\
    (rest = "" \/ exists rest', rest = String "/" rest').
Proof.
  induction s as [|c s IH]; cbn [githubRegex_match].
  - destruct (githubRegex_at "") as [m|] eqn:E; [| done].
    intros [= ->]. apply githubRegex_at_sound in E as (rest & H). by exists "", rest.
  - destruct (githubRegex_at (String c s)) as [m|] eqn:E.
    + intros [= ->]. apply githubRegex_at_sound in E as (rest & H). by exists "", rest.
    + intros H. destruct (IH H) as (p & rest & -> & H').
      by exists (String c p), rest.
Qed.

(** X2: the two groups the pattern captures are whole path segments of the
    input: non-empty, without a slash, right after [github.com/], and the
    second one ends at the next slash or at the end of the input. *)
Theorem X2_captured_groups_are_segments s owner repo :
  githubRegex_match s = Some (owner, repo) ->
  exists p rest,
    s = p +:+ "github.com/" +:+ owner +:+ "/" +:+ repo +:+ rest /\
    owner <> "" /\ repo <> "" /\ slash_free owner = true /\ slash_free repo = true /\
    (rest = "" \/ exists rest', rest = String "/" rest').
Proof. apply captured_groups_are_segments. Qed.

(** X1: the test for a GitHub URL succeeds exactly on the inputs that
    contain [github.com/], a non-empty segment, a slash and another non-empty
    segment, at any position. *)
Theorem X1_test_is_containment s :
  githubRegex_test s = true <->
  exists p a b rest,
    a <> "" /\ b <> "" /\ slash_free a = true /\ slash_free b = true /\
    s = p +:+ "github.com/" +:+ a +:+ "/" +:+ b +:+ rest.
Proof.
  split.
  - unfold githubRegex_test.
    destruct (githubRegex_match s) as [[o r]|] eqn:E; [| done]. intros _.
    apply captured_groups_are_segments in E as (p & rest & -> & Ho & Hr & Hso & Hsr & _).
    by exists p, o, r, rest.
  - intros (p & a & b & rest & Ha & Hb & Hsa & Hsb & ->).
    by apply githubRegex_test_contains.
Qed.

Lemma X2_captured_groups_are_segments_witness :
  githubRegex_match "https://github.com/acme/widgets/tree/main" = Some ("acme", "widgets") /\
  exists p rest,
    "https://github.com/acme/widgets/tree/main"
      = p +:+ "github.com/" +:+ "acme" +:+ "/" +:+ "widgets" +:+ rest /\
    (rest = "" \/ exists rest', rest = String "/" rest').
Proof.
  split; [reflexivity |].
  destruct (X2_captured_groups_are_segments
              "https://github.com/acme/widgets/tree/main" "acme" "widgets" eq_refl)
    as (p & rest & H & _ & _ & _ & _ & Hrest).
  by exists p, rest.
Defined.

(** ** The repository name *)

Lemma replace_absent pat rep s :
  Str.includes pat s = false -> Str.replace pat rep s = s.
Proof.
  induction s as [|c s IH]; cbn [Str.includes Str.replace].
  - intros H. apply orb_false_iff in H as [-> _]. done.
  - intros H. apply orb_false_iff in H as [-> H]. by rewrite (IH H).
Qed.

Lemma replace_dot_free_suffix base :
  Str.includes "." base = false -> Str.replace ".git" "" (base +:+ ".git") = base.
Proof.
  induction base as [|c base IH].
  - reflexivity.
  - change (Str.includes "." (String c base))
      with (String.prefix "." (String c base) || Str.includes "." base).
    intros H. apply orb_false_iff in H as [Hc H].
    rewrite append_cons. cbn [Str.replace].
    assert (Hp : String.prefix ".git" (String c (base +:+ ".git")) = false).
    { cbn [String.prefix] in Hc |- *. destruct (ascii_dec "." c); [| done].
      by destruct base. }
    rewrite Hp. by rewrite (IH H).
Qed.

(** X3: a repository name in which [.git] does not occur is passed on
    unchanged, with its owner. *)
Theorem X3_name_without_git_kept s owner repo :
  githubRegex_match s = Some (owner, repo) ->
  Str.includes ".git" repo = false ->
  match_owner_repo s start = (Ok (owner, repo), start).
Proof.
  intros Hm Hr. unfold match_owner_repo, owner_repo. rewrite Hm. cbn [fst snd].
  by rewrite replace_absent.
Qed.

Lemma X3_name_without_git_kept_witness :
  githubRegex_match "https://github.com/acme/widgets" = Some ("acme", "widgets") /\
  Str.includes ".git" "widgets" = false /\
  match_owner_repo "https://github.com/acme/widgets" start = (Ok ("acme", "widgets"), start).
Proof.
  split; [reflexivity |]. split; [reflexivity |].
  apply X3_name_without_git_kept; reflexivity.
Defined.

(** X4: the [.git] at the end of a clone URL is removed when the name before
    it has no dot in it. *)
Theorem X4_git_suffix_removed s owner base :
  githubRegex_match s = Some (owner, base +:+ ".git") ->
  Str.includes "." base = false ->
  match_owner_repo s start = (Ok (owner, base), start).
Proof.
  intros Hm Hb. unfold match_owner_repo, owner_repo. rewrite Hm. cbn [fst snd].
  by rewrite replace_dot_free_suffix.
Qed.

Lemma X4_git_suffix_removed_witness :
  githubRegex_match "https://github.com/acme/widgets.git" = Some ("acme", "widgets" +:+ ".git") /\
  Str.includes "." "widgets" = false /\
  match_owner_repo "https://github.com/acme/widgets.git" start = (Ok ("acme", "widgets"), start).
Proof.
  split; [reflexivity |]. split; [reflexivity |].
  apply X4_git_suffix_removed; reflexivity.
Defined.

(** ** Score and evidence *)

Lemma score_snoc lines line : score (lines ++ [line]) = score lines + weight line.
Proof.
  unfold score. induction lines as [|l lines IH]; cbn [app fold_right]; [lia |].
  rewrite IH; lia.
Qed.

Lemma weight_framework framework rest :
  weight ("Found SSR framework: " +:+ framework +:+ rest) = 30.
Proof. by destruct framework, rest. Qed.

Lemma weight_library libName : weight ("Found potential SSR library: " +:+ libName) = 10.
Proof. by destruct libName. Qed.

Lemma weight_server pkg : weight ("Found server package: " +:+ pkg) = 5.
Proof. by destruct pkg. Qed.

Lemma weight_config framework rest :
  weight ("Found configuration file for " +:+ framework +:+ rest) = 20.
Proof. by destruct framework, rest. Qed.

Lemma weight_directory path rest :
  weight ("Found SSR-related directory: " +:+ path +:+ rest) = 10.
Proof. by destruct path, rest. Qed.

Lemma finding_score k r b :
  finding k r b ->
  confidence r = score (evidence r) ->
  confidence (fold_left write b r) = score (evidence (fold_left write b r)).
Proof.
  intros Hf Hr. destruct Hf; cbn [fold_left write confidence evidence];
    rewrite ?score_snoc, Hr,
      ?weight_framework, ?weight_library, ?weight_server, ?weight_config,
      ?weight_directory;
    reflexivity || (change (weight _) with 0; lia).
Qed.

(** X5: the score of a report can be recomputed from its evidence: it is the
    sum of the points of its lines, 30 for a framework package, 20 for a
    configuration file, 10 for a library or a directory, 5 for a server
    package, 15 for SSR functions or [renderToString], nothing for the
    other lines. *)
Theorem X5_score_from_evidence v w s :
  confidence (detectSSR v w s) = score (evidence (detectSSR v w s)).
Proof.
  rewrite detectSSR_eq.
  apply (steps_invariant (in_run v)
           (fun st => confidence (cur st) = score (evidence (cur st))) start).
  - intros k st b _ Hf Hst. cbn [extend cur]. by apply (finding_score k).
  - apply steps_detectSSR_run.
  - reflexivity.
Qed.

(** ** The highest score *)

Lemma spends_ret {A} (a : A) : spends 0 (ret a).
Proof. intros st; cbn; lia. Qed.
Lemma spends_throw {A} msg : spends 0 (@throw A msg).
Proof. intros st; cbn; lia. Qed.
Lemma spends_lift {A} (o : outcome A) : spends 0 (lift o).
Proof. intros st; cbn; lia. Qed.
Lemma spends_gets {A} (f : results -> A) : spends 0 (gets f).
Proof. intros st; cbn; lia. Qed.
Lemma spends_more {A} n n' (m : M A) : (n <= n')%nat -> spends n m -> spends n' m.
Proof. intros Hn Hm st. specialize (Hm st). lia. Qed.
Lemma spends_bind {A B} a b (m : M A) (k : A -> M B) :
  spends a m -> (forall x, spends b (k x)) -> spends (a + b) (bind m k).
Proof.
  intros Hm Hk st. unfold bind. specialize (Hm st).
  destruct (m st) as [[x|msg] st1]; cbn [snd] in *; [| lia].
  specialize (Hk x st1). lia.
Qed.
Lemma spends_try_catch {A} a b (m : M A) h :
  spends a m -> (forall msg, spends b (h msg)) -> spends (a + b) (try_catch m h).
Proof.
  intros Hm Hh st. unfold try_catch. specialize (Hm st).
  destruct (m st) as [[x|msg] st1]; cbn [snd] in *; [lia |].
  specialize (Hh msg st1). lia.
Qed.
Lemma spends_when n c (m : M unit) : spends n m -> spends n (when c m).
Proof. destruct c; cbn; [done |]. intros _. eapply spends_more; [| apply spends_ret]. lia. Qed.
Lemma spends_if {A} n (c : bool) (m1 m2 : M A) :
  spends n m1 -> spends n m2 -> spends n (if c then m1 else m2).
Proof. by destruct c. Qed.
Lemma spends_for_of {A} (cost : A -> nat) (l : list A) (body : A -> M unit) :
  (forall x, spends (cost x) (body x)) ->
  spends (list_sum (map cost l)) (for_of l body).
Proof.
  intros Hb. induction l as [|x l IH]; cbn [for_of map list_sum]; [apply spends_ret |].
  apply spends_bind; [apply Hb | intros _; apply IH].
Qed.
Lemma spends_match_owner_repo s : spends 0 (match_owner_repo s).
Proof.
  unfold match_owner_repo. destruct (githubRegex_match s); [apply spends_ret | apply spends_throw].
Qed.

(** A block of writes: run it and count. *)
Ltac spend_block := let st := fresh "st" in intros st; cbn; lia.

Lemma spends_checkFrameworks deps : spends 270 (checkFrameworks deps).
Proof.
  apply (spends_for_of (fun _ => 30%nat) ssrFrameworks).
  intros [dep fw]. apply spends_when. spend_block.
Qed.

Lemma spends_finalRule : spends 0 finalRule.
Proof.
  intros st. unfold finalRule, bind, gets, when.
  destruct (30 <? confidence (cur st)); cbn; lia.
Qed.

Lemma spends_catchError msg : spends 0 (catchError msg).
Proof. spend_block. Qed.

Lemma spends_load v w s : spends 0 (load v w s).
Proof. intros st. rewrite load_state. cbn [extend cur]. rewrite replay_pushes. cbn. lia. Qed.

Lemma spends_analyzePackage v p :
  spends (match v with minimal => 270 | extended => 345 end) (analyzePackage v p).
Proof.
  destruct v; cbn [analyzePackage]; unfold Minimal.analyzePackage, Extended.analyzePackage;
    apply spends_when; cbv zeta; [apply spends_checkFrameworks |].
  apply (spends_bind 270 75); [apply spends_checkFrameworks | intros _].
  apply (spends_bind 50 25); [| intros _].
  - apply (spends_for_of (fun _ => 10%nat) Extended.ssrLibraries).
    intros lib. apply spends_when. spend_block.
  - apply (spends_for_of (fun _ => 5%nat) Extended.serverPackages).
    intros pkg. apply spends_when. spend_block.
Qed.

Lemma spends_minimal_checkConfigFiles w s l : spends 120 (Minimal.checkConfigFiles w s l).
Proof.
  unfold Minimal.checkConfigFiles.
  apply spends_if; apply (spends_for_of (fun _ => 20%nat) configFiles);
    intros [file fw]; apply spends_when; spend_block.
Qed.

Lemma spends_extended_checkConfigFiles w s l : spends 120 (Extended.checkConfigFiles w s l).
Proof.
  unfold Extended.checkConfigFiles.
  apply spends_if; [apply (spends_bind 0 120); [apply spends_match_owner_repo | intros _] |];
    apply (spends_for_of (fun _ => 20%nat) configFiles);
    intros [file fw]; cbv zeta; apply spends_when; spend_block.
Qed.

Ltac spend_cases :=
  let st := fresh "st" in
  intros st; unfold directory_budget, bind, when, lift, mutate, ret; cbn [fst snd];
  repeat match goal with
         | |- context [if ?c then _ else _] => destruct c
         | |- context [match ?o with Ok _ => _ | Throw _ => _ end] => destruct o
         end;
  cbn; lia.

Lemma spends_extended_checkDirectories w s l : spends 110 (Extended.checkDirectories w s l).
Proof.
  unfold Extended.checkDirectories.
  apply spends_if.
  - apply (spends_bind 0 110); [apply spends_match_owner_repo | intros [owner repo]].
    apply (spends_for_of directory_budget Extended.ssrDirectories).
    intros [path fw]. cbv zeta. spend_cases.
  - apply (spends_for_of directory_budget Extended.ssrDirectories).
    intros [path fw]. cbv zeta. spend_cases.
Qed.

Lemma spends_extended_checkCodePatterns w s : spends 15 (Extended.checkCodePatterns w s).
Proof.
  unfold Extended.checkCodePatterns.
  apply spends_if.
  - apply (spends_bind 0 15); [apply spends_match_owner_repo | intros [owner repo]].
    cbv zeta. spend_cases.
  - spend_cases.
Qed.

Lemma spends_rest_of_try v w s l :
  spends (match v with minimal => 120 | extended => 245 end) (rest_of_try v w s l).
Proof.
  destruct v; unfold rest_of_try.
  - apply (spends_bind 120 0); [apply spends_minimal_checkConfigFiles | intros _].
    apply spends_finalRule.
  - apply (spends_bind 120 125); [apply spends_extended_checkConfigFiles | intros _].
    apply (spends_bind 110 15); [apply spends_extended_checkDirectories | intros _].
    apply (spends_bind 15 0); [apply spends_extended_checkCodePatterns | intros _].
    apply spends_finalRule.
Qed.

Lemma spends_detectSSR_try v w s :
  spends (match v with minimal => 390 | extended => 590 end) (detectSSR_try v w s).
Proof.
  rewrite detectSSR_try_eq.
  eapply spends_more; [| apply (spends_bind 0); [apply spends_load | intros [p l]]].
  2: { unfold after_load. apply spends_bind; [apply spends_analyzePackage | intros _].
       apply spends_rest_of_try. }
  destruct v; cbn; lia.
Qed.

(** X6: the score is an integer between 0 and 390 in [src/detectssr.js],
    and between 0 and 590 in the other file: every table entry adds its
    points at most once. *)
Theorem X6_confidence_bounds v w s :
  0 <= confidence (detectSSR v w s) <= highest v.
Proof.
  split.
  - rewrite detectSSR_replay. apply (benign_confidence _ initial), trace_benign.
  - rewrite detectSSR_eq, detectSSR_run_eq.
    pose proof (spends_try_catch _ 0 _ catchError (spends_detectSSR_try v w s)
                  spends_catchError start) as H.
    cbn [cur start confidence initial] in H. destruct v; cbn [highest]; lia.
Qed.

(** ** Verdict, framework and score *)

Lemma or_else_named detected framework :
  match detected with Some f => In f framework_names | None => True end ->
  In framework framework_names ->
  In (or_else detected framework) framework_names.
Proof. destruct detected as [[|c f]|]; cbn [or_else]; auto. Qed.

Lemma ssrFrameworks_names dep framework :
  In (dep, framework) ssrFrameworks -> In framework framework_names.
Proof.
  intros H. apply in_or_app. left. apply in_map_iff. by exists (dep, framework).
Qed.

Lemma configFiles_names file framework :
  In (file, framework) configFiles -> In framework framework_names.
Proof.
  intros H. apply in_or_app. right. apply in_map_iff. by exists (file, framework).
Qed.

Lemma finding_report_invariant v k r b :
  in_run v k -> finding k r b ->
  report_invariant v r -> report_invariant v (fold_left write b r).
Proof.
  intros Hk Hf (H0 & H1 & H2). unfold report_invariant.
  destruct Hf; cbn [fold_left write confidence needsSSR frameworkDetected];
    try (destruct Hk as [Hk | Hk]; [discriminate Hk |]);
    try (split; [lia |]; split; [| done];
         destruct (needsSSR r); [destruct v; cbn [lowest_forcing] in *; lia | done]).
  - split; [lia |]. split; [destruct v; cbn; lia | by eapply ssrFrameworks_names].
  - split; [lia |]. split; [destruct v; cbn; lia |].
    apply or_else_named; [done | by eapply configFiles_names].
  - destruct v; [done |]. split; [lia |]. split; [cbn; lia | done].
  - destruct v; [done |]. split; [lia |]. split; [cbn; lia | done].
  - split; [lia |]. split; [destruct v; cbn; lia | done].
Qed.

(** X7: in every report a framework is named only together with a positive
    verdict, a positive verdict comes with a score of at least 15 (20 in
    [src/detectssr.js]), and the framework is a name of one of the two
    tables. *)
Theorem X7_verdict_framework_score v w s :
  let r := detectSSR v w s in
  0 <= confidence r /\
  (if needsSSR r then lowest_forcing v <= confidence r else frameworkDetected r = None) /\
  match frameworkDetected r with Some f => In f framework_names | None => True end.
Proof.
  cbv zeta. change (report_invariant v (detectSSR v w s)).
  rewrite detectSSR_eq.
  apply (steps_invariant (in_run v) (fun st => report_invariant v (cur st)) start).
  - intros k st b Hk Hf Hst. cbn [extend cur]. by apply (finding_report_invariant v k).
  - apply steps_detectSSR_run.
  - unfold report_invariant. by cbn.
Qed.

(** ** What can throw *)

Lemma returns_ret {A} (a : A) : returns (ret a).
Proof. intros st; by eexists _, _. Qed.
Lemma returns_mutate mu : returns (mutate mu).
Proof. intros st; by eexists _, _. Qed.
Lemma returns_gets {A} (f : results -> A) : returns (gets f).
Proof. intros st; by eexists _, _. Qed.
Lemma returns_bind {A B} (m : M A) (k : A -> M B) :
  returns m -> (forall a, returns (k a)) -> returns (bind m k).
Proof.
  intros Hm Hk st. unfold bind. destruct (Hm st) as (a & st1 & ->). apply Hk.
Qed.
Lemma returns_when c (m : M unit) : returns m -> returns (when c m).
Proof. destruct c; cbn; auto using returns_ret. Qed.
Lemma returns_if {A} (c : bool) (m1 m2 : M A) :
  returns m1 -> returns m2 -> returns (if c then m1 else m2).
Proof. by destruct c. Qed.
Lemma returns_for_of {A} (l : list A) (body : A -> M unit) :
  (forall x, returns (body x)) -> returns (for_of l body).
Proof.
  intros Hb. induction l; cbn [for_of]; auto using returns_ret, returns_bind.
Qed.
Lemma returns_match_owner_repo s :
  githubRegex_test s = true -> returns (match_owner_repo s).
Proof.
  unfold githubRegex_test, match_owner_repo.
  destruct (githubRegex_match s); [intros _; apply returns_ret | done].
Qed.

Create HintDb returns.
#[local] Hint Resolve returns_ret returns_mutate returns_gets returns_when returns_if
  returns_match_owner_repo : returns.

Ltac returns_walk :=
  repeat first
    [ progress eauto with returns
    | apply returns_bind; [| intros ?]
    | apply returns_for_of; intros ?
    | apply returns_when
    | apply returns_if
    | match goal with
      | |- returns (let '(_, _) := ?p in _) => destruct p
      end ]; cbv zeta.

Lemma returns_checkFrameworks deps : returns (checkFrameworks deps).
Proof. unfold checkFrameworks. returns_walk. Qed.

Lemma returns_finalRule : returns finalRule.
Proof. unfold finalRule. returns_walk. Qed.

Lemma returns_analyzePackage v p : returns (analyzePackage v p).
Proof.
  destruct v; cbn [analyzePackage]; unfold Minimal.analyzePackage, Extended.analyzePackage;
    apply returns_when; cbv zeta; [apply returns_checkFrameworks |].
  apply returns_bind; [apply returns_checkFrameworks | intros _].
  returns_walk.
Qed.

Lemma returns_minimal_checkConfigFiles w s l : returns (Minimal.checkConfigFiles w s l).
Proof. unfold Minimal.checkConfigFiles. returns_walk. Qed.

Lemma is_ok_for_of {A} (l : list A) (body : A -> M unit) (cond : A -> bool) :
  (forall x st, is_ok (fst (body x st)) = cond x) ->
  forall st, is_ok (fst (for_of l body st)) = forallb cond l.
Proof.
  intros H. induction l as [|x l IH]; intros st; cbn [for_of forallb]; [done |].
  unfold bind. specialize (H x st).
  destruct (body x st) as [[u|msg] st']; cbn [fst is_ok] in H; rewrite <- H; cbn [andb];
    [apply IH | done].
Qed.

Lemma is_ok_returns {A} (m : M A) st : returns m -> is_ok (fst (m st)) = true.
Proof. intros H. by destruct (H st) as (a & st' & ->). Qed.

Lemma returns_minimal_rest_of_try w s l : returns (rest_of_try minimal w s l).
Proof.
  unfold rest_of_try.
  apply returns_bind; [apply returns_minimal_checkConfigFiles | intros _].
  apply returns_finalRule.
Qed.

(** After the manifest is loaded nothing can throw in [src/detectssr.js]. *)
Lemma only_load_throws w s :
  completed minimal w s = is_ok (fst (load minimal w s start)).
Proof.
  unfold completed. rewrite detectSSR_try_eq. unfold bind.
  destruct (load minimal w s start) as [[[p l]|msg] st1]; cbn [fst is_ok]; [| done].
  assert (Hr : returns (after_load minimal w s (p, l))).
  { unfold after_load. apply returns_bind; [apply returns_analyzePackage | intros _].
    apply returns_minimal_rest_of_try. }
  by destruct (Hr st1) as (a & st' & ->).
Qed.

(** In the other file, for a GitHub URL, only the searches of the structure
    can. *)
Lemma remote_checkDirectories_ok w s l st :
  githubRegex_test s = true ->
  is_ok (fst (Extended.checkDirectories w s l st)) = probes_return l.
Proof.
  intros Ht. unfold Extended.checkDirectories, match_owner_repo. rewrite Ht.
  unfold githubRegex_test in Ht.
  destruct (githubRegex_match s) as [m|]; [| done].
  destruct (owner_repo m) as [owner repo]. unfold bind at 1. cbn [ret].
  apply is_ok_for_of. intros [path framework] st'. cbn [fst].
  unfold bind, lift.
  destruct (some_at_or_below path l) as [dirExists|msg]; cbn [is_ok fst]; [| done].
  apply is_ok_returns. returns_walk.
Qed.

Lemma returns_remote_checkConfigFiles w s l :
  githubRegex_test s = true -> returns (Extended.checkConfigFiles w s l).
Proof. intros Ht. unfold Extended.checkConfigFiles. rewrite Ht. returns_walk. Qed.

Lemma returns_remote_checkCodePatterns w s :
  githubRegex_test s = true -> returns (Extended.checkCodePatterns w s).
Proof. intros Ht. unfold Extended.checkCodePatterns. rewrite Ht. returns_walk. Qed.

Lemma remote_completed w s :
  githubRegex_test s = true ->
  completed extended w s =
    match fst (load extended w s start) with
    | Ok (_, repoStructure) => probes_return repoStructure
    | Throw _ => false
    end.
Proof.
  intros Ht. unfold completed. rewrite detectSSR_try_eq. unfold bind at 1.
  destruct (load extended w s start) as [[[p l]|msg] st1]; cbn [fst]; [| done].
  unfold after_load, rest_of_try.
  destruct (returns_analyzePackage extended p st1) as (a & stA & EA).
  unfold bind at 1. rewrite EA.
  destruct (returns_remote_checkConfigFiles w s l Ht stA) as (b & stB & EB).
  unfold bind at 1. rewrite EB.
  rewrite <- (remote_checkDirectories_ok w s l stB Ht).
  unfold bind at 1.
  destruct (Extended.checkDirectories w s l stB) as [[c|msg] stC]; cbn [fst is_ok]; [| done].
  destruct (returns_remote_checkCodePatterns w s Ht stC) as (d & stD & ED).
  unfold bind at 1. rewrite ED.
  by destruct (returns_finalRule stD) as (e & stE & ->).
Qed.

Lemma load_remote_no_manifest v w s st :
  githubRegex_test s = true -> manifest_text w s = None ->
  exists l, fst (load v w s st) = Ok (VNull, l).
Proof.
  unfold manifest_text, githubRegex_test.
  destruct v; cbn [load]; unfold Minimal.load, Extended.load, githubRegex_test,
    match_owner_repo, Minimal.getFileFromGithub, Extended.getFileFromGithub;
    (destruct (githubRegex_match s) as [m|] eqn:E; [| done]; intros _;
     destruct (owner_repo m) as [owner repo] eqn:Em; unfold bind, ret, mutate, lift;
     destruct (file_content (github w owner repo) "package.json") as [[|c t]|];
       try done; by eexists).
Qed.

Lemma load_remote_structure v w s m pkg l :
  githubRegex_match s = Some m ->
  fst (load v w s start) = Ok (pkg, l) ->
  l = buildRepoStructure v w (fst (owner_repo m)) (snd (owner_repo m)).
Proof.
  intros Hm.
  destruct v; cbn [load buildRepoStructure]; unfold Minimal.load, Extended.load,
    githubRegex_test, match_owner_repo, Minimal.getFileFromGithub,
    Extended.getFileFromGithub; rewrite Hm;
    destruct (owner_repo m) as [owner repo]; unfold bind, ret, mutate, lift; cbn [fst snd];
    (destruct (file_content (github w owner repo) "package.json") as [[|c t]|];
     [ by intros [= _ <-]
     | destruct (JSON_parse w (String c t)); [by intros [= _ <-] | done]
     | by intros [= _ <-] ]).
Qed.

(** What [load] gives for a GitHub URL: the manifest, parsed, with the
    structure. *)
Lemma load_remote v w s :
  githubRegex_test s = true ->
  exists pkg,
    fst (load v w s start) =
      match manifest_text w s with
      | Some text =>
          match JSON_parse w text with
          | Ok _ => Ok (pkg, remote_structure v w s)
          | Throw message => Throw message
          end
      | None => Ok (pkg, remote_structure v w s)
      end.
Proof.
  intros Ht. unfold remote_structure.
  assert (Hm : exists m, githubRegex_match s = Some m).
  { unfold githubRegex_test in Ht. destruct (githubRegex_match s); [by eexists | done]. }
  destruct Hm as [m Hm]. rewrite Hm.
  destruct (manifest_text w s) as [text|] eqn:E.
  - destruct (load_manifest v w s text start E) as [l Hl].
    destruct (JSON_parse w text) as [pkg|msg] eqn:Ep.
    + exists pkg. rewrite Hl. f_equal. f_equal.
      by apply (load_remote_structure v w s m pkg l).
    + exists VNull. exact Hl.
  - destruct (load_remote_no_manifest v w s start Ht E) as [l Hl].
    exists VNull. rewrite Hl. f_equal. f_equal.
    by apply (load_remote_structure v w s m VNull l).
Qed.

Lemma probes_return_named structure :
  all_named structure = true -> probes_return structure = true.
Proof.
  intros Hn. unfold probes_return. apply forallb_forall. intros [path framework] _.
  cbn [fst]. induction structure as [|[item|] rest IH]; cbn [some_at_or_below]; [done | |].
  - destruct (String.eqb item path || Str.startsWith (path +:+ "/") item); [done |].
    apply IH. by cbn [all_named forallb] in Hn.
  - by cbn [all_named forallb] in Hn.
Qed.

(** X8: for a GitHub URL the [try] block runs to its end whatever listings,
    contents, search results and failures the API answers with, with two
    exceptions: a manifest that was fetched and does not parse, and, in
    [src/unnamed/part_000], an entry without a name that one of the searches
    of the structure comes to.  A structure of strings only never ends
    it. *)
Theorem X8_remote_completes_unless_parse_fails v w s :
  githubRegex_test s = true ->
  completed v w s =
    match manifest_text w s with
    | Some text => is_ok (JSON_parse w text)
    | None => true
    end
    && match v with
       | minimal => true
       | extended => probes_return (remote_structure extended w s)
       end /\
  (all_named (remote_structure extended w s) = true ->
   probes_return (remote_structure extended w s) = true).
Proof.
  intros Ht. split; [| apply probes_return_named].
  destruct (load_remote v w s Ht) as [pkg Hl].
  destruct v.
  - rewrite only_load_throws, Hl, andb_true_r.
    destruct (manifest_text w s) as [text|]; [| done].
    by destruct (JSON_parse w text).
  - rewrite remote_completed, Hl by done.
    destruct (manifest_text w s) as [text|]; [| done].
    by destruct (JSON_parse w text).
Qed.

Lemma X8_remote_completes_unless_parse_fails_witness :
  let url := "https://github.com/acme/widgets" in
  githubRegex_test url = true /\
  completed extended
    (remote_project (Ok manifest_next_text) (Throw "API rate limit exceeded")) url = true /\
  completed extended (remote_project (Throw "Not Found") (Ok 3)) url = true /\
  completed extended (remote_project (Ok manifest_malformed_text) (Ok 3)) url = false /\
  completed minimal (remote_project (Ok manifest_malformed_text) (Ok 3)) url = false /\
  completed extended remote_nameless url = false /\
  completed minimal remote_nameless url = true.
Proof.
  cbv zeta. split; [reflexivity |]. split; [| split; [| split; [| split; [| split]]]].
  - rewrite (proj1 (X8_remote_completes_unless_parse_fails extended
               (remote_project (Ok manifest_next_text) (Throw "API rate limit exceeded"))
               "https://github.com/acme/widgets" eq_refl)).
    reflexivity.
  - rewrite (proj1 (X8_remote_completes_unless_parse_fails extended
               (remote_project (Throw "Not Found") (Ok 3))
               "https://github.com/acme/widgets" eq_refl)).
    reflexivity.
  - rewrite (proj1 (X8_remote_completes_unless_parse_fails extended
               (remote_project (Ok manifest_malformed_text) (Ok 3))
               "https://github.com/acme/widgets" eq_refl)).
    reflexivity.
  - rewrite (proj1 (X8_remote_completes_unless_parse_fails minimal
               (remote_project (Ok manifest_malformed_text) (Ok 3))
               "https://github.com/acme/widgets" eq_refl)).
    reflexivity.
  - rewrite (proj1 (X8_remote_completes_unless_parse_fails extended remote_nameless
               "https://github.com/acme/widgets" eq_refl)).
    reflexivity.
  - rewrite (proj1 (X8_remote_completes_unless_parse_fails minimal remote_nameless
               "https://github.com/acme/widgets" eq_refl)).
    reflexivity.
Defined.

(** X9: for a local path [src/detectssr.js] runs its [try] block to the end
    exactly when [package.json] is absent, or is a file that can be read and
    parses. *)
Theorem X9_minimal_local_completes w s :
  githubRegex_test s = false ->
  completed minimal w s =
    match disk w (path_join s "package.json") with
    | Missing _ => true
    | Dir _ => false
    | File (Throw _) => false
    | File (Ok text) => match JSON_parse w text with Ok _ => true | Throw _ => false end
    end.
Proof.
  intros Ht. rewrite only_load_throws.
  cbn [load]. unfold Minimal.load. rewrite Ht.
  cbv zeta.
  destruct (disk w (path_join s "package.json")) as [[text|msg]|l|error]; cbn; try done.
  unfold bind, lift. by destruct (JSON_parse w text).
Qed.

Lemma X9_minimal_local_completes_witness :
  githubRegex_test "project" = false /\
  completed minimal (local_world project_no_manifest) "project" = true /\
  completed minimal (local_world project_malformed) "project" = false.
Proof.
  split; [reflexivity |]. split.
  - rewrite (X9_minimal_local_completes (local_world project_no_manifest) "project" eq_refl).
    reflexivity.
  - rewrite (X9_minimal_local_completes (local_world project_malformed) "project" eq_refl).
    reflexivity.
Defined.

(** ** Walking the local tree *)

(** [getAllFiles] as it is written: [readdirSync], then, for each name,
    [statSync] on the joined path; an exception ends the loop. *)
Lemma getAllFiles_as_written dirPath dir extensions arrayOfFiles :
  Extended.getAllFiles dirPath dir extensions arrayOfFiles =
  match readdirSync dirPath dir with
  | Throw msg => Throw msg
  | Ok files =>
      fold_left
        (fun (collected : outcome (list (string * node))) '(file, entry) =>
           match collected with
           | Throw msg => Throw msg
           | Ok arrayOfFiles =>
               let filePath := path_join dirPath file in
               match statSync_isDirectory filePath entry with
               | Throw msg => Throw msg
               | Ok true =>
                   if negb (String.eqb file "node_modules") && negb (String.eqb file ".git")
                   then Extended.getAllFiles filePath entry extensions arrayOfFiles
                   else Ok arrayOfFiles
               | Ok false =>
                   if (length extensions =? 0)%nat
                      || existsb (String.eqb (Str.extname file)) extensions
                   then Ok (arrayOfFiles ++ [(filePath, entry)])
                   else Ok arrayOfFiles
               end
           end)
        files (Ok arrayOfFiles)
  end.
Proof.
  destruct dir as [content | [files | msg] | error]; cbn [Extended.getAllFiles readdirSync];
    try reflexivity.
  revert arrayOfFiles.
  induction files as [| [file entry] rest IH]; intros acc; cbn [fold_left]; [reflexivity |].
  cbv zeta.
  assert (Hthrow : forall msg (l : list (string * node)),
            fold_left
              (fun (collected : outcome (list (string * node))) '(file, entry) =>
                 match collected with
                 | Throw msg => Throw msg
                 | Ok arrayOfFiles =>
                     match statSync_isDirectory (path_join dirPath file) entry with
                     | Throw msg => Throw msg
                     | Ok true =>
                         if negb (String.eqb file "node_modules")
                            && negb (String.eqb file ".git")
                         then Extended.getAllFiles (path_join dirPath file) entry extensions
                                arrayOfFiles
                         else Ok arrayOfFiles
                     | Ok false =>
                         if (length extensions =? 0)%nat
                            || existsb (String.eqb (Str.extname file)) extensions
                         then Ok (arrayOfFiles ++ [(path_join dirPath file, entry)])
                         else Ok arrayOfFiles
                     end
                 end) l (Throw msg) = Throw msg).
  { intros msg l. induction l as [| [f e] l IHl]; [reflexivity | exact IHl]. }
  destruct entry as [content | listing | error]; cbn [statSync_isDirectory].
  - destruct ((length extensions =? 0)%nat || existsb (String.eqb (Str.extname file)) extensions);
      apply IH.
  - destruct (negb (String.eqb file "node_modules") && negb (String.eqb file ".git"));
      [| apply IH].
    destruct (Extended.getAllFiles (path_join dirPath file) (Dir listing) extensions acc)
      as [files|msg]; [apply IH | by rewrite Hthrow].
  - by rewrite Hthrow.
Qed.

Lemma getAllFiles_accumulates dir extensions :
  forall dirPath acc0 acc,
    Extended.getAllFiles dirPath dir extensions (acc0 ++ acc) =
    match Extended.getAllFiles dirPath dir extensions acc with
    | Ok files => Ok (acc0 ++ files)
    | Throw msg => Throw msg
    end.
Proof.
  induction dir as [content | error | msg | entries IH] using node_induction;
    intros dirPath acc0 acc; cbn [Extended.getAllFiles]; try reflexivity.
  revert acc.
  induction IH as [| [file n] rest Hn _ IHrest]; intros acc; [reflexivity |].
  cbn [snd] in Hn. cbv zeta.
  destruct n as [content | listing | error].
  - destruct ((length extensions =? 0)%nat || existsb (String.eqb (Str.extname file)) extensions).
    + rewrite <- (assoc_L (++)). apply IHrest.
    + apply IHrest.
  - destruct (negb (String.eqb file "node_modules") && negb (String.eqb file ".git")).
    + rewrite Hn.
      destruct (Extended.getAllFiles (path_join dirPath file) (Dir listing) extensions acc)
        as [files|msg]; [apply IHrest | reflexivity].
    + apply IHrest.
  - reflexivity.
Qed.

(** X10: files collected earlier are kept, in order, in front of what one
    more call of [getAllFiles] finds; and the call throws with a non-empty
    array exactly as it does with the empty one. *)
Theorem X10_getAllFiles_appends dirPath dir extensions arrayOfFiles :
  Extended.getAllFiles dirPath dir extensions arrayOfFiles =
  match Extended.getAllFiles dirPath dir extensions [] with
  | Ok files => Ok (arrayOfFiles ++ files)
  | Throw msg => Throw msg
  end.
Proof.
  rewrite <- (app_nil_r arrayOfFiles) at 1. apply getAllFiles_accumulates.
Qed.

Lemma getAllFiles_walkable dir extensions :
  forall dirPath acc, is_ok (Extended.getAllFiles dirPath dir extensions acc) = walkable dir.
Proof.
  induction dir as [content | error | msg | entries IH] using node_induction;
    intros dirPath acc; cbn [Extended.getAllFiles walkable]; try reflexivity.
  revert acc.
  induction IH as [| [file n] rest Hn _ IHrest]; intros acc; [reflexivity |].
  cbn [snd] in Hn. cbv zeta.
  destruct n as [content | listing | error].
  - destruct ((length extensions =? 0)%nat || existsb (String.eqb (Str.extname file)) extensions);
      apply IHrest.
  - destruct (negb (String.eqb file "node_modules") && negb (String.eqb file ".git")).
    + specialize (Hn (path_join dirPath file) acc).
      destruct (Extended.getAllFiles (path_join dirPath file) (Dir listing) extensions acc)
        as [files|msg];
        cbn [is_ok] in Hn; rewrite <- Hn; [apply IHrest | reflexivity].
    + apply IHrest.
  - reflexivity.
Qed.

(** X12: [getAllFiles] returns exactly on the trees that are [walkable],
    whatever the extensions asked for: it throws when the root is no
    directory that can be listed, and when an entry outside [node_modules]
    and [.git] is dangling or is a directory that cannot be walked. *)
Theorem X12_getAllFiles_returns_iff_walkable dirPath dir extensions arrayOfFiles :
  is_ok (Extended.getAllFiles dirPath dir extensions arrayOfFiles) = walkable dir.
Proof. apply getAllFiles_walkable. Qed.

(** X11: a directory named [node_modules] or [.git] is as good as absent:
    whatever it holds, dangling links and unreadable directories included,
    is never looked at. *)
Theorem X11_getAllFiles_skips dirPath pre name listing post extensions arrayOfFiles :
  name = "node_modules" \/ name = ".git" ->
  Extended.getAllFiles dirPath (Dir (Ok (pre ++ (name, Dir listing) :: post))) extensions
    arrayOfFiles =
  Extended.getAllFiles dirPath (Dir (Ok (pre ++ post))) extensions arrayOfFiles.
Proof.
  intros Hname. cbn [Extended.getAllFiles]. revert arrayOfFiles.
  induction pre as [| [file n] pre IH]; intros acc; cbn [app].
  - by destruct Hname as [-> | ->].
  - cbv zeta. destruct n as [content | l | error].
    + destruct ((length extensions =? 0)%nat || existsb (String.eqb (Str.extname file)) extensions);
        apply IH.
    + destruct (negb (String.eqb file "node_modules") && negb (String.eqb file ".git")).
      * destruct (Extended.getAllFiles (path_join dirPath file) (Dir l) extensions acc)
          as [files|msg]; [apply IH | reflexivity].
      * apply IH.
    + reflexivity.
Qed.

Lemma X11_getAllFiles_skips_witness :
  ("node_modules" = "node_modules" \/ "node_modules" = ".git") /\
  Extended.getAllFiles "project"
    (Dir (Ok [("node_modules", Dir (Throw "EACCES: permission denied, scandir 'project/node_modules'"));
              ("index.js", File (Ok "render()"))]))
    Extended.codeExtensions []
  = Ok [("project/index.js", File (Ok "render()"))].
Proof.
  split; [by left |].
  etrans; [exact (X11_getAllFiles_skips "project" [] "node_modules"
                    (Throw "EACCES: permission denied, scandir 'project/node_modules'")
                    [("index.js", File (Ok "render()"))]
                    Extended.codeExtensions [] (or_introl eq_refl)) |].
  reflexivity.
Defined.

Lemma searchForPattern_ok dirPath dir pattern :
  is_ok (Extended.searchForPattern dirPath dir pattern) = walkable dir.
Proof.
  unfold Extended.searchForPattern.
  rewrite <- (getAllFiles_walkable dir Extended.codeExtensions dirPath []).
  by destruct (Extended.getAllFiles dirPath dir Extended.codeExtensions []).
Qed.

Lemma searchForSSRFunctions_ok dirPath dir :
  is_ok (Extended.searchForSSRFunctions dirPath dir) = walkable dir.
Proof.
  unfold Extended.searchForSSRFunctions.
  rewrite <- (getAllFiles_walkable dir Extended.codeExtensions dirPath []).
  by destruct (Extended.getAllFiles dirPath dir Extended.codeExtensions []).
Qed.

Lemma local_directory_ok w s entry st :
  is_ok (fst
    ((let '(path, framework) := entry in
      let dirPath := path_join s path in
      isDirectory <- (if existsSync (disk w dirPath)
                      then lift (statSync_isDirectory dirPath (disk w dirPath))
                      else ret false) ;;
      when isDirectory
        (mutate (PushEvidence ("Found SSR-related directory: " +:+ path +:+
                               " (indicates " +:+ framework +:+ ")")) ;;
         mutate (AddConfidence 10) ;;
         when (String.eqb path "pages" || String.eqb path "app")
           (hasSSRFunctions <- lift (Extended.searchForSSRFunctions dirPath (disk w dirPath)) ;;
            when hasSSRFunctions
              (mutate (PushEvidence
                 ("Found SSR functions (getServerSideProps or getInitialProps) in " +:+ path)) ;;
               mutate (AddConfidence 15) ;;
               mutate (AssignNeedsSSR true))))) st))
  = directory_searchable w s entry.
Proof.
  destruct entry as [path framework]. unfold directory_searchable. cbn [fst]. cbv zeta.
  pose proof (searchForSSRFunctions_ok (path_join s path) (disk w (path_join s path))) as Hs.
  destruct (disk w (path_join s path)) as [c | l | error];
    cbn [existsSync statSync_isDirectory walkable_if_directory];
    try (by destruct (String.eqb path "pages" || String.eqb path "app")).
  unfold bind, lift, mutate, when, ret. cbn [fst].
  destruct (String.eqb path "pages" || String.eqb path "app"); [| done].
  rewrite <- Hs.
  by destruct (Extended.searchForSSRFunctions (path_join s path) (Dir l)) as [[|]|].
Qed.

Lemma checkDirectories_local_ok w s l st :
  githubRegex_test s = false ->
  is_ok (fst (Extended.checkDirectories w s l st)) =
    forallb (directory_searchable w s) Extended.ssrDirectories.
Proof.
  intros Ht. unfold Extended.checkDirectories. rewrite Ht. cbv zeta.
  apply is_ok_for_of. intros entry st'. apply local_directory_ok.
Qed.

Lemma returns_local_checkConfigFiles w s l :
  githubRegex_test s = false -> returns (Extended.checkConfigFiles w s l).
Proof. intros Ht. unfold Extended.checkConfigFiles. rewrite Ht. returns_walk. Qed.

Lemma checkCodePatterns_local_ok w s st :
  githubRegex_test s = false ->
  is_ok (fst (Extended.checkCodePatterns w s st)) = walkable (disk w s).
Proof.
  intros Ht. unfold Extended.checkCodePatterns. rewrite Ht. unfold bind, lift.
  rewrite <- (searchForPattern_ok s (disk w s) "renderToString").
  destruct (Extended.searchForPattern s (disk w s) "renderToString") as [[|]|]; reflexivity.
Qed.

(** X13: for a local path the [try] block of the other file runs to its end
    exactly when the manifest is loaded without an exception and
    [getAllFiles] can walk the three trees it is sent into: what
    [path.join(repoPath, 'pages')] and [path.join(repoPath, 'app')] resolve
    to, when these are directories, and what [repoPath] itself resolves
    to. *)
Theorem X13_extended_local_completes w s :
  githubRegex_test s = false ->
  completed extended w s =
    is_ok (fst (load extended w s start))
    && walkable_if_directory (disk w (path_join s "pages"))
    && walkable_if_directory (disk w (path_join s "app"))
    && walkable (disk w s).
Proof.
  intros Ht. unfold completed. rewrite detectSSR_try_eq. unfold bind at 1.
  destruct (load extended w s start) as [[[p l]|msg] st1]; cbn [fst is_ok andb]; [| done].
  unfold after_load, rest_of_try.
  destruct (returns_analyzePackage extended p st1) as (a & stA & EA).
  unfold bind at 1. rewrite EA.
  destruct (returns_local_checkConfigFiles w s l Ht stA) as (b & stB & EB).
  unfold bind at 1. rewrite EB.
  pose proof (checkDirectories_local_ok w s l stB Ht) as Hd.
  assert (Hf : forallb (directory_searchable w s) Extended.ssrDirectories =
               walkable_if_directory (disk w (path_join s "pages"))
               && walkable_if_directory (disk w (path_join s "app"))).
  { cbn [forallb Extended.ssrDirectories]. unfold directory_searchable.
    cbn [fst String.eqb Ascii.eqb Bool.eqb orb].
    by destruct (walkable_if_directory (disk w (path_join s "pages"))),
                (walkable_if_directory (disk w (path_join s "app"))). }
  rewrite Hf in Hd. rewrite <- Hd. clear Hd Hf.
  unfold bind at 1.
  destruct (Extended.checkDirectories w s l stB) as [[c|msg] stC]; cbn [fst is_ok andb];
    [| done].
  pose proof (checkCodePatterns_local_ok w s stC Ht) as Hp. rewrite <- Hp.
  unfold bind at 1.
  destruct (Extended.checkCodePatterns w s stC) as [[d|msg] stD]; cbn [fst is_ok]; [| done].
  by destruct (returns_finalRule stD) as (e & stE & ->).
Qed.

Lemma X13_extended_local_completes_witness :
  githubRegex_test "project" = false /\
  completed extended (local_world project_servers) "project" = true /\
  completed extended (local_world project_dangling) "project" = false /\
  githubRegex_test "link/.." = false /\
  walkable (disk linked_world "link/..") = true /\
  completed extended linked_world "link/.." = false.
Proof.
  split; [reflexivity |]. split; [| split; [| split; [reflexivity | split; [reflexivity |]]]].
  - rewrite (X13_extended_local_completes (local_world project_servers) "project" eq_refl).
    reflexivity.
  - rewrite (X13_extended_local_completes (local_world project_dangling) "project" eq_refl).
    reflexivity.
  - rewrite (X13_extended_local_completes linked_world "link/.." eq_refl).
    reflexivity.
Defined.

(** ** Walking the remote tree *)

Lemma visit_below_cap descend path it wk :
  (forall p wk0,
     (length (Extended.structure wk0 ++ all_paths (item_contents it) p) <= 100)%nat ->
     Extended.structure (descend (item_contents it) p wk0)
       = Extended.structure wk0 ++ all_paths (item_contents it) p) ->
  let below :=
    match it with
    | Item _ type contents =>
        if String.eqb type "dir"
        then all_paths contents (Extended.path_or_default (item_path path it))
        else []
    end in
  (length (Extended.structure wk ++ item_path path it :: below) <= 100)%nat ->
  Extended.structure (Extended.visit descend path it wk)
    = Extended.structure wk ++ item_path path it :: below.
Proof.
  intros Hd below Hlen. destruct it as [name type contents]. unfold Extended.visit.
  fold (item_path path (Item name type contents)).
  set (itemPath := item_path path (Item name type contents)) in *.
  cbn [item_contents] in Hd. subst below.
  rewrite length_app in Hlen. cbn [length] in Hlen.
  destruct (String.eqb type "dir") eqn:Et; cbn [andb Extended.structure].
  - destruct (length (Extended.structure wk ++ [itemPath]) <? 100)%nat eqn:Hl.
    + rewrite Hd.
      * cbn [Extended.structure]. by rewrite <- (assoc_L (++)).
      * cbn [Extended.structure]. rewrite <- (assoc_L (++)), length_app. cbn [app length]. lia.
    + apply Nat.ltb_ge in Hl. rewrite length_app in Hl. cbn [length] in Hl.
      destruct (all_paths contents (Extended.path_or_default itemPath));
        [done | cbn [length] in Hlen; lia].
  - reflexivity.
Qed.

Lemma walk_below_cap answer :
  forall path wk,
    (length (Extended.structure wk ++ all_paths answer path) <= 100)%nat ->
    Extended.structure (Extended.buildRepoStructure_at answer path wk)
      = Extended.structure wk ++ all_paths answer path.
Proof.
  induction answer as [message | items IH | it IH] using response_induction;
    intros path wk; cbn [Extended.buildRepoStructure_at all_paths].
  - intros _. cbn. by rewrite app_nil_r.
  - set (wk0 := {| Extended.structure := Extended.structure wk;
                      Extended.requests := S (Extended.requests wk) |}).
    change (Extended.structure wk) with (Extended.structure wk0).
    clearbody wk0. revert wk0.
    induction IH as [| it rest Hit _ IHrest]; intros wk0 Hlen.
    + by rewrite app_nil_r.
    + rewrite IHrest.
      * rewrite (visit_below_cap _ path it wk0 Hit).
        -- by rewrite <- (assoc_L (++)).
        -- rewrite (assoc_L (++)), length_app in Hlen. lia.
      * rewrite (visit_below_cap _ path it wk0 Hit).
        -- by rewrite <- (assoc_L (++)).
        -- rewrite (assoc_L (++)), length_app in Hlen. lia.
  - intros Hlen. by rewrite (visit_below_cap _ path it _ IH).
Qed.

(** X15: for a repository of at most 100 paths the cap changes nothing: the
    walk returns every path of the tree, in depth-first order. *)
Theorem X15_walk_complete_below_cap w owner repo :
  (length (all_paths (root (github w owner repo)) "") <= 100)%nat ->
  Extended.buildRepoStructure w owner repo = all_paths (root (github w owner repo)) "".
Proof.
  intros H. unfold Extended.buildRepoStructure. by rewrite walk_below_cap.
Qed.

Lemma X15_walk_complete_below_cap_witness :
  (length (all_paths (root (github (remote_world nested_items) "acme" "widgets")) "")
     <= 100)%nat /\
  Extended.buildRepoStructure (remote_world nested_items) "acme" "widgets"
    = [Some "src"; Some "src/index.js"; Some "src/lib"; Some "src/lib/util.js";
       Some "README.md"] /\
  length (all_paths (root (github (remote_world capped_items) "acme" "widgets")) "")
    = 101%nat /\
  Extended.buildRepoStructure (remote_world capped_items) "acme" "widgets"
    <> all_paths (root (github (remote_world capped_items) "acme" "widgets")) "".
Proof.
  split; [vm_compute; lia |]. split; [| split; [reflexivity |]].
  - rewrite (X15_walk_complete_below_cap (remote_world nested_items) "acme" "widgets").
    + reflexivity.
    + vm_compute. lia.
  - intros H. apply (f_equal (@length (option string))) in H. vm_compute in H. discriminate H.
Defined.

Lemma visit_keeps descend path it wk :
  (forall p wk0 x, In x (Extended.structure wk0) ->
                   In x (Extended.structure (descend (item_contents it) p wk0))) ->
  forall x, In x (Extended.structure wk ++ [item_path path it]) ->
            In x (Extended.structure (Extended.visit descend path it wk)).
Proof.
  intros Hd x Hx. destruct it as [name type contents]. unfold Extended.visit.
  fold (item_path path (Item name type contents)).
  destruct (_ && _); [apply Hd |]; exact Hx.
Qed.

Lemma walk_keeps answer :
  forall path wk x,
    In x (Extended.structure wk) ->
    In x (Extended.structure (Extended.buildRepoStructure_at answer path wk)).
Proof.
  induction answer as [message | items IH | it IH] using response_induction;
    intros path wk x Hx; cbn [Extended.buildRepoStructure_at].
  - exact Hx.
  - set (wk0 := {| Extended.structure := Extended.structure wk;
                   Extended.requests := S (Extended.requests wk) |}).
    change (In x (Extended.structure wk0)) in Hx. clearbody wk0. revert wk0 Hx.
    induction IH as [| it rest Hit _ IHrest]; intros wk0 Hx; [exact Hx |].
    apply IHrest. apply (visit_keeps _ path it wk0 Hit). apply in_or_app. by left.
  - apply (visit_keeps _ path it _ IH). apply in_or_app. by left.
Qed.

Lemma walk_collects_listing items path :
  forall wk it,
    In it items ->
    In (item_path path it)
       (Extended.structure (Extended.buildRepoStructure_at (Listing items) path wk)).
Proof.
  intros wk it Hin. cbn [Extended.buildRepoStructure_at].
  generalize {| Extended.structure := Extended.structure wk;
                Extended.requests := S (Extended.requests wk) |}.
  induction items as [| it' rest IH]; intros wk0; [done |].
  destruct Hin as [-> | Hin].
  - assert (H : In (item_path path it)
                  (Extended.structure
                     (Extended.visit Extended.buildRepoStructure_at path it wk0))).
    { apply visit_keeps; [intros; by apply walk_keeps |]. apply in_or_app. right. by left. }
    revert H. generalize (Extended.visit Extended.buildRepoStructure_at path it wk0).
    clear. induction rest as [| it' rest IH]; intros wk1 H; [exact H |].
    apply IH. apply visit_keeps; [intros; by apply walk_keeps |]. apply in_or_app. by left.
  - by apply IH.
Qed.

Lemma root_entries_collected w owner repo items it :
  root (github w owner repo) = Listing items ->
  In it items ->
  In (item_path "" it) (Minimal.buildRepoStructure w owner repo) /\
  In (item_path "" it) (Extended.buildRepoStructure w owner repo).
Proof.
  intros Hroot Hin. split.
  - unfold Minimal.buildRepoStructure. rewrite Hroot.
    apply in_map_iff. exists it. split; [by destruct it | done].
  - unfold Extended.buildRepoStructure. rewrite Hroot. by apply walk_collects_listing.
Qed.

(** X14: every entry of the root listing is in the structure, in both
    files and however large the repository: the cap can hide paths below the
    root only. *)
Theorem X14_root_entries_collected w owner repo items it :
  root (github w owner repo) = Listing items ->
  In it items ->
  In (item_path "" it) (Minimal.buildRepoStructure w owner repo) /\
  In (item_path "" it) (Extended.buildRepoStructure w owner repo).
Proof. apply root_entries_collected. Qed.

Lemma X14_root_entries_collected_witness :
  root (github (remote_world (many_files 101)) "acme" "widgets") = Listing (many_files 101) /\
  In (Item (Some "file100") "file" (Failed "not requested")) (many_files 101) /\
  In (Some "file100")
    (Extended.buildRepoStructure (remote_world (many_files 101)) "acme" "widgets").
Proof.
  assert (Hin : In (Item (Some "file100") "file" (Failed "not requested")) (many_files 101)).
  { unfold many_files.
    apply (in_map (fun i => Item (Some ("file" +:+ index_key i)) "file" (Failed "not requested"))
             (seq 0 101) 100%nat).
    apply in_seq. lia. }
  split; [reflexivity |]. split; [exact Hin |].
  exact (proj2 (X14_root_entries_collected (remote_world (many_files 101)) "acme" "widgets"
                  (many_files 101) _ eq_refl Hin)).
Defined.

(** * More of the run *)

Lemma run_config_loop (present : string -> bool) table st :
  for_of table (fun '(file, framework) =>
    when (present file)
      (mutate (PushEvidence ("Found configuration file for " +:+ framework +:+ ": " +:+ file)) ;;
       detected <- gets frameworkDetected ;;
       mutate (AssignFramework (or_else detected framework)) ;;
       mutate (AddConfidence 20) ;;
       mutate (AssignNeedsSSR true))) st
  = (Ok tt, extend st (config_writes present table (frameworkDetected (cur st)))).
Proof.
  revert st; induction table as [|[file fw] table IH]; intros st.
  - cbn. by rewrite extend_nil.
  - cbn [for_of config_writes]. unfold bind at 1.
    destruct (present file); cbn [when].
    + unfold bind, mutate, gets. rewrite IH, !extend_extend. reflexivity.
    + unfold ret. by rewrite IH.
Qed.

Lemma run_checkConfigFiles v w s l st :
  checkConfigFiles v w s l st =
  (Ok tt, extend st (config_writes (config_present v w s l) configFiles
                       (frameworkDetected (cur st)))).
Proof.
  unfold config_present.
  destruct v; cbn [checkConfigFiles];
    unfold Minimal.checkConfigFiles, Extended.checkConfigFiles, githubRegex_test,
      match_owner_repo;
    destruct (githubRegex_match s) as [m|]; apply run_config_loop.
Qed.

Lemma config_writes_benign present table detected :
  Forall benign (config_writes present table detected).
Proof.
  revert detected; induction table as [|[file fw] table IH]; intros detected;
    cbn [config_writes]; [constructor |].
  destruct (present file); [| apply IH].
  apply Forall_app. split; [repeat constructor; cbn; lia | apply IH].
Qed.

Lemma or_else_named_r detected framework :
  framework <> "" -> named (Some (or_else detected framework)) = true.
Proof. destruct detected as [[|c f]|], framework; cbn; congruence. Qed.

Lemma or_else_kept detected framework :
  named detected = true -> Some (or_else detected framework) = detected.
Proof. by destruct detected as [[|c f]|]. Qed.

Lemma or_else_new detected framework :
  named detected = false -> or_else detected framework = framework.
Proof. by destruct detected as [[|c f]|]. Qed.

Lemma config_writes_framework present table r :
  Forall (fun e => snd e <> "") table ->
  frameworkDetected (fold_left write (config_writes present table (frameworkDetected r)) r) =
    if named (frameworkDetected r) then frameworkDetected r
    else match head (map snd (List.filter (fun e => present (fst e)) table)) with
         | Some f => Some f
         | None => frameworkDetected r
         end.
Proof.
  intros Ht; revert r; induction Ht as [|[file fw] table Hfw _ IH]; intros r.
  - cbn. by destruct (named (frameworkDetected r)).
  - cbn [config_writes List.filter fst]. cbn [snd] in Hfw.
    destruct (present file) eqn:E; [| apply IH].
    rewrite fold_left_app. cbn [fold_left].
    set (r1 := write _ (AssignNeedsSSR true)).
    assert (Hfd1 : frameworkDetected r1 = Some (or_else (frameworkDetected r) fw)) by done.
    rewrite <- Hfd1, IH, Hfd1, (or_else_named_r _ _ Hfw). cbn [map snd head].
    destruct (named (frameworkDetected r)) eqn:En.
    + by apply or_else_kept.
    + by rewrite or_else_new.
Qed.

Lemma config_writes_found present table r file framework :
  Forall (fun e => snd e <> "") table ->
  In (file, framework) table -> present file = true ->
  let r' := fold_left write (config_writes present table (frameworkDetected r)) r in
  In ("Found configuration file for " +:+ framework +:+ ": " +:+ file) (evidence r') /\
  needsSSR r' = true /\ confidence r + 20 <= confidence r' /\
  named (frameworkDetected r') = true.
Proof.
  intros Ht Hin Hp. revert r. induction Ht as [|[file' fw'] table Hfw Ht IH]; intros r;
    [done |].
  cbn [config_writes]. cbn [snd] in Hfw.
  destruct Hin as [[= -> ->] | Hin].
  - rewrite Hp, fold_left_app. cbn [fold_left].
    set (r1 := write _ (AssignNeedsSSR true)).
    set (t := config_writes _ _ _).
    pose proof (config_writes_benign present table
                  (Some (or_else (frameworkDetected r) framework))) as Hb.
    fold t in Hb. cbv zeta.
    split; [apply evidence_grows; cbn; apply in_or_app; right; by left |].
    split; [by apply benign_needsSSR |].
    split; [etrans; [| by apply benign_confidence]; cbn; lia |].
    assert (Hfd1 : frameworkDetected r1 = Some (or_else (frameworkDetected r) framework))
      by done.
    subst t. rewrite <- Hfd1, config_writes_framework by done.
    rewrite Hfd1, (or_else_named_r _ _ Hfw). by apply or_else_named_r.
  - destruct (present file') eqn:E; [| by apply IH].
    rewrite fold_left_app. cbn [fold_left].
    set (r1 := write _ (AssignNeedsSSR true)).
    assert (Hfd1 : frameworkDetected r1 = Some (or_else (frameworkDetected r) fw')) by done.
    rewrite <- Hfd1. destruct (IH Hin r1) as (H1 & H2 & H3 & H4). cbv zeta.
    repeat split; try done. etrans; [| exact H3]. cbn. lia.
Qed.

Lemma configFiles_all_named : Forall (fun e => snd e <> "") configFiles.
Proof. repeat constructor; done. Qed.

Lemma steps_added allowed st st' :
  steps allowed st st' -> exists t, st' = extend st t /\ Forall benign t.
Proof.
  induction 1 as [|st st1 k b _ (t & -> & Ht) _ Hf].
  - exists []. by rewrite extend_nil.
  - exists (t ++ b). rewrite extend_extend. split; [done |].
    apply Forall_app. eauto using finding_benign.
Qed.

Lemma quiet_keeps_framework st st' :
  steps quiet st st' -> frameworkDetected (cur st') = frameworkDetected (cur st).
Proof.
  intros H. apply (steps_invariant quiet
                     (fun x => frameworkDetected (cur x) = frameworkDetected (cur st)) st st');
    [| done | done].
  intros k x b [Hk1 Hk2] Hf Hx. cbn [extend cur]. by destruct Hf.
Qed.

Lemma rest_of_try_eq v w s l :
  rest_of_try v w s l = bind (checkConfigFiles v w s l) (fun _ => tail_of_try v w s l).
Proof. by destruct v. Qed.

Lemma walks_tail_of_try v w s l :
  walks quiet (try_catch (tail_of_try v w s l) catchError).
Proof.
  apply walks_try_catch; [| intros msg; by apply walks_catchError].
  destruct v; cbn [tail_of_try]; [by apply walks_finalRule |].
  apply walks_bind; [by apply walks_extended_checkDirectories | intros _].
  apply walks_bind; [by apply walks_extended_checkCodePatterns | intros _].
  by apply walks_finalRule.
Qed.

(** The run from the loaded manifest on: the package, the configuration
    files, the rest. *)
Lemma run_after_config v w s pkg l :
  fst (load v w s start) = Ok (pkg, l) ->
  exists stA,
    analyzePackage v pkg (extend start (map PushEvidence (announced s))) = (Ok tt, stA) /\
    let stB := extend stA (config_writes (config_present v w s l) configFiles
                             (frameworkDetected (cur stA))) in
    detectSSR_run v w s = try_catch (tail_of_try v w s l) catchError stB /\
    steps quiet stB (snd (detectSSR_run v w s)).
Proof.
  intros Hl.
  pose proof (load_state v w s start) as Hst.
  pose proof (run_after_load v w s) as Hrun.
  destruct (load v w s start) as [o st1]. cbn [fst snd] in Hl, Hst. subst o st1.
  destruct (returns_analyzePackage v pkg (extend start (map PushEvidence (announced s))))
    as ([] & stA & EA).
  exists stA. split; [exact EA |]. cbv zeta.
  assert (E : detectSSR_run v w s =
              try_catch (tail_of_try v w s l) catchError
                (extend stA (config_writes (config_present v w s l) configFiles
                               (frameworkDetected (cur stA))))).
  { rewrite Hrun. unfold after_load, try_catch. rewrite rest_of_try_eq.
    unfold bind at 1. rewrite EA. unfold bind at 1. by rewrite run_checkConfigFiles. }
  split; [exact E |]. rewrite E. apply walks_tail_of_try.
Qed.

Lemma filter_none {A} (f : A -> bool) l :
  (forall x, In x l -> f x = false) -> List.filter f l = [].
Proof.
  induction l as [|x l IH]; intros H; cbn; [done |].
  rewrite (H x) by by left. apply IH. intros y Hy. apply H. by right.
Qed.

Lemma walks_quiet_rest_of_package v deps : walks quiet (rest_of_package v deps).
Proof.
  destruct v; cbn [rest_of_package]; [apply walks_ret |].
  by apply walks_extended_libraries.
Qed.

Lemma frameworks_present_falsy pkg :
  truthy pkg = false -> frameworks_present (allDependencies pkg) = [].
Proof.
  intros Ht. unfold frameworks_present, present_in.
  rewrite filter_none; [done |]. intros [dep fw] _. cbn [fst].
  destruct (has_dependency (allDependencies pkg) dep) eqn:E; [| done].
  apply has_dependency_truthy in E. congruence.
Qed.

Lemma last_named deps :
  match last (frameworks_present deps) with
  | Some f => f <> ""
  | None => True
  end.
Proof.
  destruct (last (frameworks_present deps)) as [f|] eqn:E; [| done].
  apply last_Some_elem_of, list_elem_of_In, present_in_table in E as (dep & Hin & _).
  by eapply ssrFrameworks_named.
Qed.

(** The state after [if (packageJson) { ... }]. *)
Lemma analyzePackage_state v pkg st stA :
  analyzePackage v pkg st = (Ok tt, stA) ->
  frameworkDetected (cur st) = None ->
  frameworkDetected (cur stA) = last (frameworks_present (allDependencies pkg)) /\
  exists t, stA = extend st t /\ Forall benign t.
Proof.
  intros EA Hnone.
  assert (Hsteps : steps (in_try v) st stA).
  { pose proof (walks_analyzePackage v pkg st) as H. by rewrite EA in H. }
  split; [| by eapply steps_added].
  destruct (truthy pkg) eqn:Ht.
  - rewrite analyzePackage_truthy in EA by done. unfold bind at 1 in EA.
    rewrite run_checkFrameworks in EA.
    set (st2 := extend st _) in EA.
    assert (Hq : steps quiet st2 stA).
    { pose proof (walks_quiet_rest_of_package v (allDependencies pkg) st2) as H.
      by rewrite EA in H. }
    rewrite (quiet_keeps_framework _ _ Hq). cbn [st2 extend cur].
    destruct (framework_writes_state (allDependencies pkg) ssrFrameworks (cur st))
      as (_ & _ & -> & _). rewrite Hnone.
    by destruct (last _).
  - rewrite frameworks_present_falsy by done. cbn [last].
    destruct v; cbn [analyzePackage] in EA;
      unfold Minimal.analyzePackage, Extended.analyzePackage in EA;
      rewrite Ht in EA; cbn [when] in EA; injection EA as <-; exact Hnone.
Qed.

Lemma announced_state s :
  frameworkDetected (cur (extend start (map PushEvidence (announced s)))) = None /\
  confidence (cur (extend start (map PushEvidence (announced s)))) = 0.
Proof. cbn [extend cur]. by rewrite (replay_pushes (announced s) (cur start)). Qed.

(** ** The framework of a report *)

(** X16: the framework of a report, in both files.  When the manifest is
    loaded it is the last framework of the table that the manifest depends
    on, whatever the configuration files; without such a dependency it is
    the framework of the first configuration file of the table that is
    present; no other block of the run writes it.  When loading throws there
    is none. *)
Theorem X16_framework_characterised v w s :
  frameworkDetected (detectSSR v w s) =
    match fst (load v w s start) with
    | Ok (pkg, repoStructure) =>
        match last (frameworks_present (allDependencies pkg)) with
        | Some f => Some f
        | None => head (configs_present (config_present v w s repoStructure))
        end
    | Throw _ => None
    end.
Proof.
  destruct (fst (load v w s start)) as [[pkg l]|msg] eqn:El.
  - destruct (run_after_config v w s pkg l El) as (stA & EA & _ & Hq).
    destruct (analyzePackage_state v pkg _ stA EA (proj1 (announced_state s)))
      as (HfdA & _).
    rewrite detectSSR_eq, (quiet_keeps_framework _ _ Hq). cbn [extend cur].
    rewrite config_writes_framework by apply configFiles_all_named.
    rewrite HfdA. pose proof (last_named (allDependencies pkg)) as Hn.
    destruct (last (frameworks_present (allDependencies pkg))) as [[|c f]|]; try done.
    cbn [named]. fold (configs_present (config_present v w s l)).
    by destruct (head _).
  - pose proof (run_after_load v w s) as Hrun.
    pose proof (load_state v w s start) as Hst.
    destruct (load v w s start) as [o st1]. cbn [fst snd] in El, Hst. subst o st1.
    rewrite detectSSR_eq, Hrun. unfold catchError, mutate. cbn [snd extend cur fold_left write].
    apply announced_state.
Qed.

Lemma config_file_found v w s pkg repoStructure file framework :
  fst (load v w s start) = Ok (pkg, repoStructure) ->
  In (file, framework) configFiles ->
  config_present v w s repoStructure file = true ->
  let r := detectSSR v w s in
  In ("Found configuration file for " +:+ framework +:+ ": " +:+ file) (evidence r) /\
  needsSSR r = true /\
  20 <= confidence r /\
  named (frameworkDetected r) = true.
Proof.
  intros El Hin Hp r.
  destruct (run_after_config v w s pkg repoStructure El) as (stA & EA & _ & Hq).
  destruct (analyzePackage_state v pkg _ stA EA (proj1 (announced_state s)))
    as (_ & tA & -> & HbA).
  set (st1 := extend start _) in *.
  set (stB := extend (extend st1 tA) _) in *.
  destruct (config_writes_found (config_present v w s repoStructure) configFiles
              (cur (extend st1 tA)) file framework configFiles_all_named Hin Hp)
    as (H1 & H2 & H3 & H4).
  destruct (steps_added _ _ _ Hq) as (t & Ht & Hbt).
  assert (Hr : r = fold_left write t (cur stB)) by (unfold r; by rewrite detectSSR_eq, Ht).
  assert (HcA : 0 <= confidence (cur (extend st1 tA))).
  { cbn [extend cur]. etrans; [| by apply benign_confidence].
    unfold st1. by rewrite (proj2 (announced_state s)). }
  split; [rewrite Hr; by apply evidence_grows |].
  split; [rewrite Hr; by apply benign_needsSSR |].
  split; [rewrite Hr; etrans; [| by apply benign_confidence];
          unfold stB; cbn [extend cur] in *; lia |].
  unfold r. rewrite detectSSR_eq, (quiet_keeps_framework _ _ Hq). exact H4.
Qed.

(** ** Configuration files *)

(** X17: a configuration file of the table that is present is reported, in
    both files, as soon as the manifest is loaded: its line is in the
    evidence, the verdict is true, it counts for 20 at least and a framework
    is named. *)
Theorem X17_config_file_found v w s pkg repoStructure file framework :
  fst (load v w s start) = Ok (pkg, repoStructure) ->
  In (file, framework) configFiles ->
  config_present v w s repoStructure file = true ->
  let r := detectSSR v w s in
  In ("Found configuration file for " +:+ framework +:+ ": " +:+ file) (evidence r) /\
  needsSSR r = true /\
  20 <= confidence r /\
  named (frameworkDetected r) = true.
Proof. apply config_file_found. Qed.

Lemma X17_config_file_found_witness :
  fst (load minimal (local_world project_no_manifest) "project" start) = Ok (VNull, []) /\
  In ("next.config.js", "Next.js") configFiles /\
  config_present minimal (local_world project_no_manifest) "project" [] "next.config.js" = true /\
  In "Found configuration file for Next.js: next.config.js"
    (evidence (detectSSR minimal (local_world project_no_manifest) "project")).
Proof.
  assert (Hin : In ("next.config.js", "Next.js") configFiles) by (cbn; auto).
  split; [reflexivity |]. split; [exact Hin |]. split; [reflexivity |].
  exact (proj1 (X17_config_file_found minimal (local_world project_no_manifest) "project"
                  VNull [] "next.config.js" "Next.js" eq_refl Hin eq_refl)).
Defined.



Lemma config_present_remote v w s l file :
  githubRegex_test s = true -> In (Some file) l -> config_present v w s l file = true.
Proof.
  intros Ht Hin. unfold config_present. rewrite Ht.
  apply existsb_exists. exists (Some file). split; [done | apply String.eqb_refl].
Qed.

(** X18: on a GitHub repository whose manifest is loaded, a configuration
    file of the table that is listed in the root directory is reported, in
    both files and whatever the size of the repository: the cap of 100
    entries never hides it. *)
Theorem X18_root_config_file_found v w s m pkg l items type contents file framework :
  githubRegex_match s = Some m ->
  fst (load v w s start) = Ok (pkg, l) ->
  root (github w (fst (owner_repo m)) (snd (owner_repo m))) = Listing items ->
  In (Item (Some file) type contents) items ->
  In (file, framework) configFiles ->
  let r := detectSSR v w s in
  In ("Found configuration file for " +:+ framework +:+ ": " +:+ file) (evidence r) /\
  needsSSR r = true /\
  20 <= confidence r /\
  named (frameworkDetected r) = true.
Proof.
  intros Hm El Hroot Hin Hcfg.
  apply (config_file_found v w s pkg l file framework El Hcfg).
  apply config_present_remote; [unfold githubRegex_test; by rewrite Hm |].
  rewrite (load_remote_structure v w s m pkg l Hm El).
  destruct (root_entries_collected w _ _ items (Item (Some file) type contents) Hroot Hin)
    as [Hmin Hext].
  by destruct v.
Qed.

Lemma X18_root_config_file_found_witness :
  let w := remote_world [Item (Some "README.md") "file" (Failed "not requested");
                         Item (Some "next.config.js") "file" (Failed "not requested")] in
  let s := "https://github.com/acme/widgets" in
  githubRegex_match s = Some ("acme", "widgets") /\
  fst (load extended w s start) = Ok (VNull, [Some "README.md"; Some "next.config.js"]) /\
  In ("next.config.js", "Next.js") configFiles /\
  In "Found configuration file for Next.js: next.config.js" (evidence (detectSSR extended w s)) /\
  needsSSR (detectSSR extended w s) = true.
Proof.
  cbv zeta.
  assert (Hcfg : In ("next.config.js", "Next.js") configFiles) by (cbn; auto).
  split; [reflexivity |]. split; [reflexivity |]. split; [exact Hcfg |].
  pose proof (X18_root_config_file_found extended
                (remote_world [Item (Some "README.md") "file" (Failed "not requested");
                               Item (Some "next.config.js") "file" (Failed "not requested")])
                "https://github.com/acme/widgets" ("acme", "widgets") VNull
                [Some "README.md"; Some "next.config.js"]
                [Item (Some "README.md") "file" (Failed "not requested");
                 Item (Some "next.config.js") "file" (Failed "not requested")]
                "file" (Failed "not requested") "next.config.js" "Next.js"
                eq_refl eq_refl eq_refl (or_intror (or_introl eq_refl)) Hcfg) as H.
  cbv zeta in H. split; [exact (proj1 H) | exact (proj1 (proj2 H))].
Defined.

Lemma covers_refl a : covers a a.
Proof. unfold covers. repeat split; auto; lia. Qed.

Lemma covers_trans c b a : covers c b -> covers b a -> covers c a.
Proof.
  intros (H1 & H2 & H3 & H4) (G1 & G2 & G3 & G4). unfold covers.
  repeat split; auto; [congruence | lia].
Qed.

Lemma covers_write b a mu : covers b a -> covers (write b mu) (write a mu).
Proof.
  intros (H1 & H2 & H3 & H4). unfold covers.
  destruct mu; cbn; repeat split; auto; try lia.
  intros l [Hl | Hl]%in_app_or; apply in_or_app; auto.
Qed.

Lemma covers_writes t b a : covers b a -> covers (fold_left write t b) (fold_left write t a).
Proof. revert a b; induction t; cbn; auto using covers_write. Qed.

Lemma covers_added t a :
  Forall benign t ->
  frameworkDetected (fold_left write t a) = frameworkDetected a ->
  covers (fold_left write t a) a.
Proof.
  intros Ht Hfd. unfold covers. split; [done |].
  split; [intros; by apply benign_needsSSR |].
  split; [by apply benign_confidence | intros; by apply evidence_grows].
Qed.

Lemma minimal_steps_invariant st st' :
  steps (in_run minimal) st st' ->
  needsSSR (cur st) = true \/ confidence (cur st) = 0 ->
  needsSSR (cur st') = true \/ confidence (cur st') = 0.
Proof.
  apply (steps_invariant (in_run minimal)
           (fun x => needsSSR (cur x) = true \/ confidence (cur x) = 0)).
  intros k x b Hk Hf Hx. cbn [extend cur].
  destruct Hf; cbn; auto; destruct Hk as [Hk|Hk]; done.
Qed.

Lemma load_local_same w s st :
  githubRegex_test s = false -> Minimal.load w s st = Extended.load w s st.
Proof. intros Ht. unfold Minimal.load, Extended.load. by rewrite Ht. Qed.

Lemma config_present_local w s l l' file :
  githubRegex_test s = false ->
  config_present minimal w s l file = config_present extended w s l' file.
Proof. intros Ht. unfold config_present. by rewrite Ht. Qed.

Lemma config_writes_ext (P Q : string -> bool) table detected :
  (forall file, P file = Q file) ->
  config_writes P table detected = config_writes Q table detected.
Proof.
  intros H. revert detected. induction table as [|[file framework] t IH]; intros d; cbn;
    [done |].
  rewrite H. destruct (Q file); [by rewrite IH | apply IH].
Qed.

Lemma finalRule_state st :
  snd (try_catch finalRule catchError st) =
  if 30 <? confidence (cur st) then extend st [AssignNeedsSSR true] else st.
Proof.
  unfold try_catch, finalRule, bind, gets, when.
  by destruct (30 <? confidence (cur st)).
Qed.

(** ** The two files on a local path *)

(** X19: on a local path the report of [src/unnamed/part_000] covers the one
    of [src/detectssr.js]: the same framework, the verdict true whenever the
    other is, a confidence at least as large and every line of evidence of
    the other. *)
Theorem X19_extended_covers_minimal w s :
  githubRegex_test s = false ->
  covers (detectSSR extended w s) (detectSSR minimal w s).
Proof.
  intros Ht.
  assert (Hload : load minimal w s start = load extended w s start)
    by by apply load_local_same.
  destruct (fst (load minimal w s start)) as [[pkg l]|msg] eqn:El.
  - assert (El' : fst (load extended w s start) = Ok (pkg, l)) by by rewrite <- Hload.
    destruct (run_after_config minimal w s pkg l El) as (stA & EA & Erun & _).
    destruct (run_after_config extended w s pkg l El') as (stA' & EA' & _ & Hq').
    destruct (analyzePackage_state minimal pkg _ stA EA (proj1 (announced_state s)))
      as (Hfd & _).
    destruct (analyzePackage_state extended pkg _ stA' EA' (proj1 (announced_state s)))
      as (Hfd' & _).
    set (st1 := extend start (map PushEvidence (announced s))) in *.
    (* the extended state after the package is the minimal one and more *)
    assert (HA : exists t, stA' = extend stA t /\ Forall benign t).
    { destruct (truthy pkg) eqn:Hp.
      - rewrite analyzePackage_truthy in EA, EA' by done.
        unfold bind at 1 in EA. unfold bind at 1 in EA'.
        rewrite run_checkFrameworks in EA, EA'. cbn [rest_of_package ret] in EA.
        injection EA as <-.
        pose proof (walks_quiet_rest_of_package extended (allDependencies pkg)
                      (extend st1 (framework_writes (allDependencies pkg) ssrFrameworks)))
          as Hw.
        rewrite EA' in Hw. by apply steps_added in Hw.
      - cbn [analyzePackage] in EA, EA'.
        unfold Minimal.analyzePackage, Extended.analyzePackage in EA, EA'.
        rewrite Hp in EA, EA'. cbn [when ret] in EA, EA'.
        injection EA as <-. injection EA' as <-.
        exists []. by rewrite extend_nil. }
    destruct HA as (t & -> & Ht').
    assert (HcA : covers (cur (extend stA t)) (cur stA)).
    { cbn [extend cur]. apply covers_added; [done |].
      cbn [extend cur] in Hfd'. by rewrite Hfd', Hfd. }
    (* the configuration files: the same writes on both sides *)
    set (cw := config_writes (config_present minimal w s l) configFiles
                 (frameworkDetected (cur stA))).
    assert (Hcw : config_writes (config_present extended w s l) configFiles
                    (frameworkDetected (cur (extend stA t))) = cw).
    { unfold cw. rewrite Hfd', Hfd.
      apply config_writes_ext. intros file. symmetry. by apply config_present_local. }
    rewrite Hcw in Hq'.
    assert (HcB : covers (cur (extend (extend stA t) cw)) (cur (extend stA cw))).
    { cbn [extend cur]. apply covers_writes. exact HcA. }
    (* the extended run goes on with blocks that only add *)
    assert (HcE : covers (detectSSR extended w s) (cur (extend stA cw))).
    { eapply covers_trans; [| exact HcB].
      destruct (steps_added _ _ _ Hq') as (t' & Ht'' & Hb').
      rewrite detectSSR_eq, Ht''. cbn [extend cur]. apply covers_added; [done |].
      pose proof (quiet_keeps_framework _ _ Hq') as Hk. rewrite Ht'' in Hk. exact Hk. }
    (* the minimal run ends with the final rule, which changes nothing *)
    rewrite (detectSSR_eq minimal), Erun. cbn [tail_of_try]. rewrite finalRule_state.
    fold cw.
    destruct (30 <? confidence (cur (extend stA cw))) eqn:E30; [| exact HcE].
    assert (Hinv : needsSSR (cur (extend stA cw)) = true \/
                   confidence (cur (extend stA cw)) = 0).
    { apply (minimal_steps_invariant start); [| by right].
      eapply steps_trans; [| eapply steps_trans].
      - apply (walks_minimal_load (in_run minimal) w s); by right.
      - change (Minimal.load w s start) with (load minimal w s start).
        rewrite load_state. fold st1.
        eapply steps_weaken; [| apply (walks_analyzePackage minimal pkg st1)].
        intros k; by right.
      - rewrite EA. cbn [snd].
        pose proof (walks_minimal_checkConfigFiles (in_run minimal) w s l) as Hw.
        specialize (Hw ltac:(by right) stA).
        change (Minimal.checkConfigFiles w s l) with (checkConfigFiles minimal w s l) in Hw.
        by rewrite run_checkConfigFiles in Hw. }
    destruct Hinv as [Hn | Hz]; [| apply Z.ltb_lt in E30; lia].
    destruct HcE as (H1 & H2 & H3 & H4). unfold covers. cbn. auto.
  - assert (El' : fst (load extended w s start) = Throw msg) by by rewrite <- Hload.
    pose proof (run_after_load minimal w s) as Hrun.
    pose proof (run_after_load extended w s) as Hrun'.
    rewrite <- Hload in Hrun'.
    destruct (load minimal w s start) as [o st1]. cbn [fst] in El. subst o.
    rewrite !detectSSR_eq, Hrun, Hrun'. apply covers_refl.
Qed.

Lemma X19_extended_covers_minimal_witness :
  let small := detectSSR minimal (local_world project_full) "project" in
  let large := detectSSR extended (local_world project_full) "project" in
  githubRegex_test "project" = false /\
  covers large small /\
  small =
    {| needsSSR := true;
       evidence := ["Found SSR framework: Next.js (next)";
                    "Found configuration file for Next.js: next.config.js"];
       frameworkDetected := Some "Next.js";
       confidence := 50 |} /\
  large =
    {| needsSSR := true;
       evidence := ["Found SSR framework: Next.js (next)";
                    "Found configuration file for Next.js: next.config.js";
                    "Found SSR-related directory: pages (indicates Next.js)";
                    "Found SSR functions (getServerSideProps or getInitialProps) in pages";
                    "Found SSR-related directory: server (indicates Generic Server)"];
       frameworkDetected := Some "Next.js";
       confidence := 85 |}.
Proof.
  cbv zeta. split; [reflexivity |]. split; [| split; reflexivity].
  exact (X19_extended_covers_minimal (local_world project_full) "project" eq_refl).
Defined.

Lemma existsb_orb {A} (f g : A -> bool) l :
  existsb (fun x => f x || g x) l = existsb f l || existsb g l.
Proof.
  induction l as [|x l IH]; cbn; [done |]. rewrite IH.
  destruct (f x), (g x), (existsb f l), (existsb g l); done.
Qed.

Lemma existsb_pointwise {A} (f g : A -> bool) l :
  (forall x, f x = g x) -> existsb f l = existsb g l.
Proof. intros H. induction l as [|x l IH]; cbn; [done |]. by rewrite H, IH. Qed.

Lemma existsb_const_false {A} (l : list A) : existsb (fun _ => false) l = false.
Proof. by induction l. Qed.

Lemma anyFileHasToken_tokens files :
  Extended.anyFileHasToken files =
  existsb (fun token => Extended.anyFileIncludes token files) Extended.ssrTokens.
Proof.
  induction files as [|[file p] rest IH].
  - cbn [Extended.anyFileHasToken Extended.anyFileIncludes].
    by rewrite existsb_const_false.
  - cbn [Extended.anyFileHasToken Extended.anyFileIncludes].
    destruct (readFileSync file p) as [content|msg]; [| exact IH].
    rewrite (existsb_pointwise
               (fun token => if Str.includes token content then true
                             else Extended.anyFileIncludes token rest)
               (fun token => Str.includes token content
                             || Extended.anyFileIncludes token rest)) by done.
    rewrite existsb_orb, <- IH.
    by destruct (existsb _ Extended.ssrTokens).
Qed.

(** ** Searching the code *)

(** X20: [searchForSSRFunctions] and [searchForPattern] throw on the same
    directories, with the same message, whatever the pattern; and when they
    return, [searchForSSRFunctions] finds what [searchForPattern] finds for
    one of its five tokens. *)
Theorem X20_tokens_searched_as_patterns dirPath dir :
  match Extended.searchForSSRFunctions dirPath dir with
  | Ok found =>
      exists finds : string -> bool,
        (forall pattern, Extended.searchForPattern dirPath dir pattern = Ok (finds pattern)) /\
        found = existsb finds Extended.ssrTokens
  | Throw message =>
      forall pattern, Extended.searchForPattern dirPath dir pattern = Throw message
  end.
Proof.
  unfold Extended.searchForSSRFunctions, Extended.searchForPattern.
  destruct (Extended.getAllFiles dirPath dir Extended.codeExtensions []) as [files|msg];
    [| done].
  exists (fun pattern => Extended.anyFileIncludes pattern files).
  split; [done | apply anyFileHasToken_tokens].
Qed.

(** ** The endpoint [/check-repo] *)

(** X21: the handler never answers 500: without [repoPath], or with the
    empty one, it answers 400, and with any other string it answers the
    report of [detectSSR], whatever the disk, the API and [JSON.parse]
    do. *)
Theorem X21_check_repo_never_fails w repoPath :
  status (check_repo w repoPath) <> 500 /\
  check_repo w repoPath =
    match repoPath with
    | Some (String c p) => Results (detectSSR minimal w (String c p))
    | _ => BadRequest "repoPath is required"
    end.
Proof.
  destruct repoPath as [[|c p]|]; cbn [check_repo]; [done | | done].
  pose proof (detectSSR_run_eq minimal w (String c p)) as E.
  cbn [detectSSR_run] in E.
  cbn [detectSSR]. unfold Minimal.detectSSR.
  destruct (Minimal.detectSSR_run w (String c p)) as [[u|msg] st] eqn:Er.
  - done.
  - exfalso. revert E. unfold try_catch.
    destruct (detectSSR_try minimal w (String c p) start) as [[u|m] st0]; [done |].
    unfold catchError. done.
Qed.

(** * Paths in normal form *)

Lemma append_nil_l s : "" +:+ s = s.
Proof. reflexivity. Qed.

Lemma append_nil_r s : s +:+ "" = s.
Proof. induction s as [|c s IH]; [done |]. by rewrite append_cons, IH. Qed.

Lemma append_assoc a b c : (a +:+ b) +:+ c = a +:+ (b +:+ c).
Proof. induction a as [|x a IH]; [done |]. by rewrite !append_cons, IH. Qed.

Lemma split_slash_aux_last cur a :
  slash_free a = true -> Str.split_slash_aux cur a = [cur a].
Proof.
  revert cur. induction a as [|c a IH]; intros cur; [done |].
  cbn -[Ascii.eqb]. intros [Hc Ha]%andb_true_iff. apply negb_true_iff in Hc.
  rewrite Hc. by rewrite IH.
Qed.

Lemma split_slash_aux_segment cur a y :
  slash_free a = true ->
  Str.split_slash_aux cur (a +:+ String "/" y) = cur a :: Str.split_slash y.
Proof.
  revert cur. induction a as [|c a IH]; intros cur.
  - intros _. reflexivity.
  - rewrite append_cons. cbn -[Ascii.eqb].
    intros [Hc Ha]%andb_true_iff. apply negb_true_iff in Hc. rewrite Hc. by rewrite IH.
Qed.

Lemma proper_slash_free x : proper x = true -> slash_free x = true.
Proof. unfold proper. by intros [_ H]%andb_true_iff. Qed.

Lemma join_slash_cons x y l :
  Str.join_slash (x :: y :: l) = x +:+ String "/" (Str.join_slash (y :: l)).
Proof. reflexivity. Qed.

Lemma split_join segments :
  segments <> [] -> forallb proper segments = true ->
  Str.split_slash (Str.join_slash segments) = segments.
Proof.
  induction segments as [|x l IH]; [done |]. intros _ [Hx Hl]%andb_true_iff.
  apply proper_slash_free in Hx.
  destruct l as [|y l].
  - cbn [Str.join_slash]. unfold Str.split_slash. by rewrite split_slash_aux_last.
  - rewrite join_slash_cons. unfold Str.split_slash.
    rewrite split_slash_aux_segment by done. f_equal. by apply IH.
Qed.

Lemma join_slash_app l1 l2 :
  l1 <> [] -> l2 <> [] ->
  Str.join_slash (l1 ++ l2) = Str.join_slash l1 +:+ "/" +:+ Str.join_slash l2.
Proof.
  intros H1 H2. induction l1 as [|x l IH]; [done |].
  destruct l as [|y l].
  - destruct l2 as [|z l2]; [done |]. reflexivity.
  - change ((x :: y :: l) ++ l2) with (x :: y :: (l ++ l2)).
    rewrite !join_slash_cons.
    change (y :: l ++ l2) with ((y :: l) ++ l2). rewrite IH by done.
    change (String "/" ?z) with ("/" +:+ z).
    by rewrite !append_assoc.
Qed.

Lemma normalizeString_proper allow segments res :
  forallb proper segments = true ->
  normalizeString allow segments res = rev res ++ segments.
Proof.
  revert res. induction segments as [|x l IH]; intros res; cbn [normalizeString forallb].
  - intros _. by rewrite app_nil_r.
  - intros [Hx Hl]%andb_true_iff. unfold proper in Hx.
    apply andb_true_iff in Hx as [Hx _]. apply andb_true_iff in Hx as [Hx H2].
    apply andb_true_iff in Hx as [H0 H1].
    apply negb_true_iff in H0, H1, H2. rewrite H0, H1, H2. cbn [orb].
    rewrite IH by done. cbn [rev]. by rewrite <- (assoc_L (++)).
Qed.

Lemma join_slash_head x l :
  proper x = true -> exists c t, Str.join_slash (x :: l) = String c t /\ Ascii.eqb c "/" = false.
Proof.
  intros Hx. unfold proper in Hx.
  apply andb_true_iff in Hx as [Hx Hs]. apply andb_true_iff in Hx as [Hx _].
  apply andb_true_iff in Hx as [H0 _].
  destruct x as [|c t]; [done |]. cbn -[Ascii.eqb] in Hs.
  apply andb_true_iff in Hs as [Hc _]. apply negb_true_iff in Hc.
  destruct l as [|y l]; [by exists c, t |].
  rewrite join_slash_cons, append_cons. by eexists _, _.
Qed.

Lemma ends_with_slash_append a c t :
  Str.ends_with_slash (a +:+ String c t) = Str.ends_with_slash (String c t).
Proof.
  induction a as [|x a IH]; [done |]. rewrite append_cons.
  cbn [Str.ends_with_slash]. destruct (a +:+ String c t) eqn:E; [| exact IH].
  by destruct a.
Qed.

Lemma ends_with_slash_proper x :
  proper x = true -> Str.ends_with_slash x = false.
Proof.
  intros Hx. pose proof (proper_slash_free x Hx) as Hs.
  unfold proper in Hx. apply andb_true_iff in Hx as [Hx _]. apply andb_true_iff in Hx as [Hx _].
  apply andb_true_iff in Hx as [H0 _]. clear -Hs H0.
  destruct x as [|c t]; [done |]. clear H0. revert c Hs.
  induction t as [|d t IH]; intros c Hs.
  - cbn -[Ascii.eqb] in *. apply andb_true_iff in Hs as [Hc _]. by apply negb_true_iff in Hc.
  - cbn -[Ascii.eqb] in Hs. apply andb_true_iff in Hs as [_ Hs].
    change (Str.ends_with_slash (String d t) = false). by apply IH.
Qed.

Lemma ends_with_slash_join segments :
  segments <> [] -> forallb proper segments = true ->
  Str.ends_with_slash (Str.join_slash segments) = false.
Proof.
  induction segments as [|x l IH]; [done |]. intros _ [Hx Hl]%andb_true_iff.
  destruct l as [|y l]; [by apply ends_with_slash_proper |].
  pose proof Hl as Hl'. cbn [forallb] in Hl'. apply andb_true_iff in Hl' as [Hy _].
  destruct (join_slash_head y l Hy) as (c & t & E & _).
  rewrite join_slash_cons.
  change (String "/" (Str.join_slash (y :: l))) with ("/" +:+ Str.join_slash (y :: l)).
  rewrite <- append_assoc, E, ends_with_slash_append, <- E.
  by apply IH.
Qed.

Lemma path_normalize_eq path c t :
  path = String c t ->
  path_normalize path =
    match Str.join_slash
            (normalizeString (negb (Ascii.eqb c "/")) (Str.split_slash path) []) with
    | EmptyString =>
        if Ascii.eqb c "/" then "/" else if Str.ends_with_slash path then "./" else "."
    | String _ _ as normalized =>
        (if Ascii.eqb c "/" then "/" else "") +:+ normalized +:+
        (if Str.ends_with_slash path then "/" else "")
    end.
Proof. by intros ->. Qed.

Lemma path_normalize_clean absolute segments :
  segments <> [] -> forallb proper segments = true ->
  path_normalize (clean_path absolute segments) = clean_path absolute segments.
Proof.
  intros Hne Hp. unfold clean_path.
  destruct segments as [|x l]; [done |].
  pose proof Hp as Hp'. cbn [forallb] in Hp'. apply andb_true_iff in Hp' as [Hx _].
  destruct (join_slash_head x l Hx) as (c & t & E & Hc).
  pose proof (split_join (x :: l) Hne Hp) as Hsplit.
  pose proof (ends_with_slash_join (x :: l) Hne Hp) as Hend.
  destruct absolute.
  - change ("/" +:+ Str.join_slash (x :: l)) with (String "/" (Str.join_slash (x :: l))).
    rewrite (path_normalize_eq _ "/" (Str.join_slash (x :: l)) eq_refl).
    cbn [Ascii.eqb Bool.eqb].
    replace (Str.split_slash (String "/" (Str.join_slash (x :: l))))
      with ("" :: x :: l)
      by (unfold Str.split_slash; cbn [Str.split_slash_aux Ascii.eqb Bool.eqb];
          fold (Str.split_slash (Str.join_slash (x :: l))); by rewrite Hsplit).
    change (normalizeString (negb true) ("" :: x :: l) [])
      with (normalizeString false (x :: l) []).
    rewrite normalizeString_proper by done. cbn [rev app].
    replace (Str.ends_with_slash (String "/" (Str.join_slash (x :: l)))) with false
      by (rewrite E in *; symmetry; exact Hend).
    rewrite E. by rewrite append_nil_r.
  - rewrite append_nil_l. rewrite (path_normalize_eq _ c t E).
    rewrite Hc, Hsplit, normalizeString_proper by done. cbn [rev app negb].
    rewrite Hend, E. by rewrite append_nil_l, append_nil_r.
Qed.

Lemma path_join_clean absolute segments relative :
  segments <> [] -> forallb proper segments = true ->
  relative <> [] -> forallb proper relative = true ->
  path_join (clean_path absolute segments) (Str.join_slash relative) =
  clean_path absolute segments +:+ "/" +:+ Str.join_slash relative.
Proof.
  intros Hs Hps Hr Hpr.
  assert (E : clean_path absolute segments +:+ "/" +:+ Str.join_slash relative
              = clean_path absolute (segments ++ relative)).
  { unfold clean_path. rewrite join_slash_app by done. by rewrite append_assoc. }
  unfold path_join.
  destruct (clean_path absolute segments) as [|c t] eqn:Ec.
  { unfold clean_path in Ec. destruct segments as [|x l]; [done |].
    cbn [forallb] in Hps. apply andb_true_iff in Hps as [Hx _].
    destruct (join_slash_head x l Hx) as (c & t & Ej & _). rewrite Ej in Ec.
    by destruct absolute. }
  destruct (Str.join_slash relative) as [|d u] eqn:Er.
  { destruct relative as [|x l]; [done |].
    cbn [forallb] in Hpr. apply andb_true_iff in Hpr as [Hx _].
    destruct (join_slash_head x l Hx) as (c' & t' & Ej & _). by rewrite Ej in Er. }
  rewrite E. apply path_normalize_clean.
  - by destruct segments.
  - rewrite forallb_app. by rewrite Hps, Hpr.
Qed.

Lemma lookups_clean v name :
  In name (lookups v) ->
  exists relative,
    relative <> [] /\ forallb proper relative = true /\ name = Str.join_slash relative.
Proof.
  intros H. destruct v; cbn in H;
    repeat (destruct H as [<- | H];
            [ match goal with
              | |- exists r, _ /\ _ /\ ?n = _ => exists (Str.split_slash n)
              end; by vm_compute |]);
    done.
Qed.

Lemma nothing_joined_clean v w absolute segments :
  segments <> [] -> forallb proper segments = true ->
  (forall name,
     existsSync (disk w (clean_path absolute segments +:+ "/" +:+ name)) = false) ->
  nothing_joined v w (clean_path absolute segments) = true.
Proof.
  intros Hne Hp Hbelow. unfold nothing_joined. apply forallb_forall. intros name Hin.
  destruct (lookups_clean v name Hin) as (relative & Hr & Hpr & ->).
  rewrite path_join_clean by done. by rewrite Hbelow.
Qed.

(** X22: for a path in normal form (segments that are neither empty, nor
    ["."], nor [".."]) that does not exist, and below which nothing exists,
    the report is the empty one, with the line of the failed [readdirSync]
    in [src/unnamed/part_000]: [path.join] only appends the names the code
    looks up. *)
Theorem X22_missing_clean_path v w absolute segments error :
  let s := clean_path absolute segments in
  segments <> [] ->
  forallb proper segments = true ->
  githubRegex_test s = false ->
  disk w s = Missing error ->
  (forall name, existsSync (disk w (s +:+ "/" +:+ name)) = false) ->
  fst (detectSSR_run v w s) = Ok tt /\
  needsSSR (detectSSR v w s) = false /\
  frameworkDetected (detectSSR v w s) = None /\
  confidence (detectSSR v w s) = 0 /\
  evidence (detectSSR v w s) =
    match v with
    | minimal => []
    | extended => ["Error analyzing repository: " +:+ fs_error error "scandir" s]
    end.
Proof.
  intros s Hne Hp Ht Hd Hbelow. apply nothing_found_report; [done | done |].
  by apply nothing_joined_clean.
Qed.

Lemma X22_missing_clean_path_witness :
  clean_path false ["no"; "such"; "dir"] = "no/such/dir" /\
  githubRegex_test "no/such/dir" = false /\
  disk cwd_world "no/such/dir" = Missing ENOENT /\
  existsSync (disk cwd_world "next.config.js") = true /\
  detectSSR extended cwd_world "no/such/dir" =
    {| needsSSR := false;
       evidence := ["Error analyzing repository: ENOENT: no such file or directory, scandir 'no/such/dir'"];
       frameworkDetected := None;
       confidence := 0 |}.
Proof.
  split; [reflexivity |]. split; [reflexivity |]. split; [reflexivity |].
  split; [reflexivity |].
  destruct (X22_missing_clean_path extended cwd_world false ["no"; "such"; "dir"] ENOENT)
    as (_ & H1 & H2 & H3 & H4);
    [done | reflexivity | reflexivity | reflexivity | intros name; reflexivity |].
  destruct (detectSSR extended cwd_world (clean_path false ["no"; "such"; "dir"]))
    as [n e f c].
  cbn [needsSSR evidence frameworkDetected confidence] in *. by subst.
Defined.
